(** * A shallow embedding of the virtual file system (lib/internal/vfs)

    The development follows the JavaScript sources module by module:
    - [JSString]   : the string primitives the sources call;
    - [path]       : the POSIX flavour of Node's [path] module;
    - router.js    : [normalizePath], [splitPath], [isUnderMountPoint], ...;
    - entries      : the entry tree ([VirtualFile], [VirtualDirectory]);
    - virtual_fs.js: the [VirtualFileSystem] class;
    - module_hooks.js: the registry of active instances and the dispatchers.

    Definitions come first, the theorems about them afterwards. *)

From Stdlib Require Import String Ascii List ZArith Bool Arith Lia.
Import ListNotations.

Local Open Scope string_scope.
Local Open Scope list_scope.

(** JavaScript's [+] on strings. *)
Notation "s1 +++ s2" := (String.append s1 s2) (at level 60, right associativity).

(* ================================================================== *)
(** ** JavaScript string primitives *)
(* ================================================================== *)

Module JSString.

(** [s.startsWith(search)] *)
Fixpoint startsWith (s search : string) {struct search} : bool :=
  match search, s with
  | EmptyString, _ => true
  | String c search', String d s' => Ascii.eqb c d && startsWith s' search'
  | String _ _, EmptyString => false
  end.

(** [s.endsWith(search)] *)
Fixpoint endsWith (s search : string) : bool :=
  String.eqb s search ||
  match s with
  | EmptyString => false
  | String _ s' => endsWith s' search
  end.

Fixpoint drop (n : nat) (s : string) : string :=
  match n, s with
  | O, _ => s
  | S n', String _ s' => drop n' s'
  | S _, EmptyString => EmptyString
  end.

Fixpoint take (n : nat) (s : string) : string :=
  match n, s with
  | O, _ => EmptyString
  | S n', String c s' => String c (take n' s')
  | S _, EmptyString => EmptyString
  end.

(** How [slice] reads an index: negative indices count from the end, and
    everything is clamped to [0 .. len]. *)
Definition relativeIndex (len : nat) (i : Z) : nat :=
  if (i <? 0)%Z then Z.to_nat (Z.max (Z.of_nat len + i) 0)
  else Nat.min (Z.to_nat i) len.

(** [s.slice(start, end)]; [end_ = None] is the one-argument form. *)
Definition slice (s : string) (start : Z) (end_ : option Z) : string :=
  let len := String.length s in
  let from := relativeIndex len start in
  let to := match end_ with
            | Some e => relativeIndex len e
            | None => len
            end in
  take (to - from) (drop from s).

Fixpoint lastIndexOfFrom (s : string) (c : ascii) (i found : Z) : Z :=
  match s with
  | EmptyString => found
  | String d s' =>
      lastIndexOfFrom s' c (i + 1) (if Ascii.eqb d c then i else found)
  end.

(** [s.lastIndexOf(c)] for a one-character needle; [-1] when absent. *)
Definition lastIndexOf (s : string) (c : ascii) : Z :=
  lastIndexOfFrom s c 0 (-1).

(** [s.split(c)] for a one-character separator: never the empty array. *)
Fixpoint split (s : string) (c : ascii) : list string :=
  match s with
  | EmptyString => [EmptyString]
  | String d s' =>
      if Ascii.eqb d c then EmptyString :: split s' c
      else match split s' c with
           | seg :: segs => String d seg :: segs
           | [] => [String d EmptyString]
           end
  end.

(** [xs.join(sep)] *)
Fixpoint join (xs : list string) (sep : string) : string :=
  match xs with
  | [] => EmptyString
  | x :: rest =>
      match rest with
      | [] => x
      | _ :: _ => x +++ sep +++ join rest sep
      end
  end.

(** [s.replace(/c/g, d)] for single characters. *)
Fixpoint replaceAll (s : string) (c d : ascii) : string :=
  match s with
  | EmptyString => EmptyString
  | String e s' => String (if Ascii.eqb e c then d else e) (replaceAll s' c d)
  end.

(** JavaScript truthiness of a string. *)
Definition truthy (s : string) : bool := negb (String.eqb s EmptyString).

End JSString.

(** The names under which router.js takes them from [primordials]. *)
Definition StringPrototypeStartsWith := JSString.startsWith.
Definition StringPrototypeEndsWith := JSString.endsWith.
Definition StringPrototypeSlice := JSString.slice.

(* ================================================================== *)
(** ** Node's [path] module, POSIX flavour *)
(* ================================================================== *)

(** The host process, as far as the file system layer looks at it:
    [process.cwd()]. *)
Class Process := { cwd : string }.

Module path.

(** lib/path.js is not among the sources.  The spec asks of [normalize] an
    absolute, separator-canonicalized path with no trailing slash, the same
    for any two inputs denoting one location; on a POSIX host that is what
    [path.resolve] gives: the arguments are prepended right to left (then
    the working directory) until an absolute one is met, and the result is
    cleaned segment by segment: empty and ["."] segments vanish and [".."]
    removes the segment before it. *)

(** Modelled from the spec: [path.sep] of lib/path.js, on a POSIX host. *)
Definition sep : string := "/".

(** Modelled from the spec: the test of lib/path.js for an absolute POSIX
    path, a leading separator. *)
Definition isAbsolute (p : string) : bool :=
  match p with
  | String c _ => Ascii.eqb c "/"
  | EmptyString => false
  end.

(** Modelled from the spec: one round of [normalizeString] of lib/path.js,
    one segment against the stack of kept segments (innermost first). *)
Definition normalizeSegment (allowAboveRoot : bool)
           (kept : list string) (seg : string) : list string :=
  if String.eqb seg EmptyString then kept
  else if String.eqb seg "." then kept
  else if String.eqb seg ".." then
    match kept with
    | top :: below =>
        if String.eqb top ".." then
          (if allowAboveRoot then seg :: kept else kept)
        else below
    | [] => if allowAboveRoot then [seg] else []
    end
  else seg :: kept.

(** Modelled from the spec: [normalizeString] of lib/path.js, by segments. *)
Definition normalizeString (p : string) (allowAboveRoot : bool) : string :=
  JSString.join
    (rev (fold_left (normalizeSegment allowAboveRoot)
                    (JSString.split p "/") []))
    "/".

Section Resolve.

Context {process : Process}.

(** Modelled from the spec: the loop of [path.resolve] of lib/path.js.
    [paths] are the arguments from the last to the first, followed by the
    working directory; the loop stops at the first absolute one. *)
Fixpoint resolveLoop (paths : list string) (resolvedPath : string)
  : string * bool :=
  match paths with
  | [] => (resolvedPath, false)
  | p :: rest =>
      if (String.length p =? 0)%nat then resolveLoop rest resolvedPath
      else
        let resolvedPath := p +++ "/" +++ resolvedPath in
        if isAbsolute p then (resolvedPath, true)
        else resolveLoop rest resolvedPath
  end.

(** Modelled from the spec: [path.resolve(...args)] of lib/path.js. *)
Definition resolve (args : list string) : string :=
  let '(resolvedPath, resolvedAbsolute) :=
    resolveLoop (rev args ++ [cwd]) EmptyString in
  let resolvedPath := normalizeString resolvedPath (negb resolvedAbsolute) in
  if resolvedAbsolute then "/" +++ resolvedPath
  else if (0 <? String.length resolvedPath)%nat then resolvedPath
  else ".".

End Resolve.

End path.


(* ================================================================== *)
(** ** router.js *)
(* ================================================================== *)

Definition backslash : ascii := Ascii.ascii_of_nat 92.

Definition normalizePath {process : Process} (inputPath : string) : string :=
  let normalized := path.resolve [inputPath] in
  (* On Windows, convert backslashes to forward slashes *)
  let normalized :=
    if String.eqb path.sep (String backslash EmptyString)
    then JSString.replaceAll normalized backslash "/"
    else normalized in
  (* Remove trailing slash (except for root) *)
  let normalized :=
    if (1 <? String.length normalized)%nat
       && StringPrototypeEndsWith normalized "/"
    then StringPrototypeSlice normalized 0 (Some (-1)%Z)
    else normalized in
  normalized.

Definition splitPath (normalizedPath : string) : list string :=
  if String.eqb normalizedPath "/" then []
  else JSString.split (StringPrototypeSlice normalizedPath 1 None) "/".

(** [null] is [None]. *)
Definition getParentPath (normalizedPath : string) : option string :=
  if String.eqb normalizedPath "/" then None
  else
    let lastSlash := JSString.lastIndexOf normalizedPath "/" in
    if (lastSlash =? 0)%Z then Some "/"
    else Some (StringPrototypeSlice normalizedPath 0 (Some lastSlash)).

Definition getBaseName (normalizedPath : string) : string :=
  let lastSlash := JSString.lastIndexOf normalizedPath "/" in
  StringPrototypeSlice normalizedPath (lastSlash + 1) None.

Definition isUnderMountPoint (normalizedPath mountPoint : string) : bool :=
  if String.eqb normalizedPath mountPoint then true
  else StringPrototypeStartsWith normalizedPath (mountPoint +++ "/").

Definition getRelativePath (normalizedPath mountPoint : string) : string :=
  if String.eqb normalizedPath mountPoint then "/"
  else StringPrototypeSlice normalizedPath
         (Z.of_nat (String.length mountPoint)) None.

Definition joinMountPath (mountPoint relativePath : string) : string :=
  if String.eqb relativePath "/" then mountPoint
  else mountPoint +++ relativePath.

(* ================================================================== *)
(** ** Errors and results *)
(* ================================================================== *)

(** Modelled from the spec: the error constructors of internal/vfs/errors
    ([createENOENT], [createENOTDIR], [createEISDIR]) are not among the
    sources.  The spec tags an error by the operation it comes from and the
    path; [Error] is a plain [new Error(message)], [ERR_INVALID_STATE] the
    spec's ContentUnavailable, [TypeError] what the engine raises when a
    method is called on an object that lacks it. *)
Inductive JsError : Type :=
| ENOENT (syscall path : string)
| ENOTDIR (syscall path : string)
| EISDIR (syscall path : string)
| Error (message : string)
| ERR_INVALID_STATE (message : string)
| TypeError (message : string).

(** Modelled from the spec: [createENOENT] of internal/vfs/errors. *)
Definition createENOENT (syscall path : string) : JsError := ENOENT syscall path.

(** Modelled from the spec: [createENOTDIR] of internal/vfs/errors. *)
Definition createENOTDIR (syscall path : string) : JsError := ENOTDIR syscall path.

(** Modelled from the spec: [createEISDIR] of internal/vfs/errors. *)
Definition createEISDIR (syscall path : string) : JsError := EISDIR syscall path.

(** What a call produces: a value, or a thrown error.  The same type stands
    for what an asynchronous call hands to its callback, or settles its
    promise with. *)
Inductive Outcome (A : Type) : Type :=
| Return (a : A)
| Throw (e : JsError).
Arguments Return {A} a.
Arguments Throw {A} e.

(* ================================================================== *)
(** ** The entry tree *)
(* ================================================================== *)

(** A [SafeMap] with string keys, kept as the list of its entries in the
    order in which their keys were first set. *)
Module SafeMap.

Section Ops.
Context {A : Type}.

Fixpoint get (m : list (string * A)) (k : string) : option A :=
  match m with
  | [] => None
  | (k', a) :: m' => if String.eqb k' k then Some a else get m' k
  end.

(** [set] on a key already present keeps its place. *)
Fixpoint set (m : list (string * A)) (k : string) (a : A)
  : list (string * A) :=
  match m with
  | [] => [(k, a)]
  | (k', a') :: m' =>
      if String.eqb k' k then (k, a) :: m' else (k', a') :: set m' k a
  end.

(** [delete] says whether the key was there. *)
Fixpoint delete (m : list (string * A)) (k : string)
  : list (string * A) * bool :=
  match m with
  | [] => ([], false)
  | (k', a') :: m' =>
      if String.eqb k' k then (m', true)
      else let '(m'', found) := delete m' k in ((k', a') :: m'', found)
  end.

Definition keys (m : list (string * A)) : list string := map fst m.
End Ops.

End SafeMap.

(** A [Buffer], as the string of its bytes. *)
Definition Buffer : Type := string.

(** Modelled from the spec: the content source of a [VirtualFile] of
    internal/vfs/entries, which is not among the sources.  It is a fixed
    buffer or a provider called on demand; a provider is kept as what
    calling it yields (for an asynchronous one: what its promise settles
    with). *)
Inductive ContentSource : Type :=
| FixedBytes (bytes : Buffer)
| SyncProvider (result : Outcome Buffer)
| AsyncProvider (result : Outcome Buffer).

(** Modelled from the spec: the classes [VirtualFile] and [VirtualDirectory]
    of internal/vfs/entries.  An entry has the path it was created with; a
    directory maps child names to entries.  Populate callbacks of
    directories are left out: a directory is the children it has. *)
#[warnings="-register-all"]
Inductive VirtualEntry : Type :=
| VirtualFile (entryPath : string) (content : ContentSource)
| VirtualDirectory (entryPath : string) (entries : list (string * VirtualEntry)).

(** Modelled from the spec: what [getStats()] produces, the kind and the
    size where it is known. *)
Record Stats : Type := mkStats { st_isDirectory : bool; st_size : option nat }.

(** Modelled from the spec: [isDirectory()] of internal/vfs/entries. *)
Definition isDirectory (entry : VirtualEntry) : bool :=
  match entry with
  | VirtualDirectory _ _ => true
  | VirtualFile _ _ => false
  end.

(** Modelled from the spec: [getEntry(name)] of a directory. *)
Definition getEntry (dir : VirtualEntry) (name : string) : option VirtualEntry :=
  match dir with
  | VirtualDirectory _ entries => SafeMap.get entries name
  | VirtualFile _ _ => None
  end.

(** Modelled from the spec: [addEntry(name, entry)] of a directory; it
    overwrites silently. *)
Definition addEntry (dir : VirtualEntry) (name : string) (entry : VirtualEntry)
  : VirtualEntry :=
  match dir with
  | VirtualDirectory p entries => VirtualDirectory p (SafeMap.set entries name entry)
  | VirtualFile _ _ => dir
  end.

(** Modelled from the spec: [removeEntry(name)] of a directory: the
    directory after the call, and whether an entry was there. *)
Definition removeEntry (dir : VirtualEntry) (name : string)
  : VirtualEntry * bool :=
  match dir with
  | VirtualDirectory p entries =>
      let '(entries', found) := SafeMap.delete entries name in
      (VirtualDirectory p entries', found)
  | VirtualFile _ _ => (dir, false)
  end.

(** Modelled from the spec: [getEntryNames()] of a directory.  The order
    of the names is that of the model's list: the entries module is not
    among the sources, and what is stated below about listings is about
    which names are listed, not about their order. *)
Definition getEntryNames (dir : VirtualEntry) : list string :=
  match dir with
  | VirtualDirectory _ entries => SafeMap.keys entries
  | VirtualFile _ _ => []
  end.

(** Modelled from the spec: [getContentSync()] of a file; it fails when the
    provider is asynchronous-only. *)
Definition getContentSync (file : VirtualEntry) : Outcome Buffer :=
  match file with
  | VirtualFile _ (FixedBytes bytes) => Return bytes
  | VirtualFile _ (SyncProvider result) => result
  | VirtualFile _ (AsyncProvider _) =>
      Throw (ERR_INVALID_STATE "cannot use sync API with async content provider")
  | VirtualDirectory _ _ => Throw (TypeError "entry.getContentSync is not a function")
  end.

(** Modelled from the spec: [getContent()] of a file; it always works, and
    the outcome is what the promise settles with. *)
Definition getContent (file : VirtualEntry) : Outcome Buffer :=
  match file with
  | VirtualFile _ (FixedBytes bytes) => Return bytes
  | VirtualFile _ (SyncProvider result) => result
  | VirtualFile _ (AsyncProvider result) => result
  | VirtualDirectory _ _ => Throw (TypeError "entry.getContent is not a function")
  end.

(** Modelled from the spec: [getStats()] of an entry. *)
Definition getStats (entry : VirtualEntry) : Stats :=
  match entry with
  | VirtualFile _ (FixedBytes bytes) => mkStats false (Some (String.length bytes))
  | VirtualFile _ _ => mkStats false None
  | VirtualDirectory _ _ => mkStats true None
  end.

(* ================================================================== *)
(** ** virtual_fs.js: the VirtualFileSystem class *)
(* ================================================================== *)

(** The private fields of an instance.  [kMountPoint = None] is [null]. *)
Record VirtualFileSystem : Type := mkVFS {
  kRoot : VirtualEntry;
  kMountPoint : option string;
  kMounted : bool;
  kOverlay : bool;
  kFallthrough : bool
}.

(** [new VirtualFileSystem(options)]; the argument is [options.fallthrough],
    [None] when it is not given. *)
Definition newVirtualFileSystem (fallthrough : option bool) : VirtualFileSystem :=
  {| kRoot := VirtualDirectory "/" [];
     kMountPoint := None;
     kMounted := false;
     kOverlay := false;
     kFallthrough := match fallthrough with
                     | Some false => false
                     | _ => true
                     end |}.

Definition mountPoint (this : VirtualFileSystem) : option string := kMountPoint this.
Definition isMounted (this : VirtualFileSystem) : bool := kMounted this.
Definition isOverlay (this : VirtualFileSystem) : bool := kOverlay this.
Definition fallthrough (this : VirtualFileSystem) : bool := kFallthrough this.

Definition setRoot (this : VirtualFileSystem) (root : VirtualEntry) : VirtualFileSystem :=
  {| kRoot := root;
     kMountPoint := kMountPoint this;
     kMounted := kMounted this;
     kOverlay := kOverlay this;
     kFallthrough := kFallthrough this |}.

Definition setMode (this : VirtualFileSystem)
           (mountPoint : option string) (mounted overlay : bool) : VirtualFileSystem :=
  {| kRoot := kRoot this;
     kMountPoint := mountPoint;
     kMounted := mounted;
     kOverlay := overlay;
     kFallthrough := kFallthrough this |}.

(** The loop of [addFile] over [segments[i]], [i < segments.length - 1], and
    the final [addEntry] of the file.  [done] holds [segments.slice(0, i)].
    The source mutates the directory objects in place and moves [current]
    down the tree; here each level returns the directory as the loop leaves
    it, and the parent stores it back under the same name ([SafeMap.set]
    keeps the place of a name already there).  When the loop throws, the
    tree is returned as the throw leaves it. *)
Fixpoint addFileLoop (current : VirtualEntry) (done segments : list string)
         (file : VirtualEntry) : VirtualEntry * Outcome unit :=
  match segments with
  | [] => (current, Return tt)
  | segment :: rest =>
      match rest with
      | [] =>
          (* segment is the file name *)
          if isDirectory current
          then (addEntry current segment file, Return tt)
          else (current, Throw (TypeError "current.addEntry is not a function"))
      | _ :: _ =>
          if negb (isDirectory current)
          then (current, Throw (TypeError "current.getEntry is not a function"))
          else
            match getEntry current segment with
            | None =>
                (* Auto-create parent directory *)
                let dirPath := "/" +++ JSString.join (done ++ [segment]) "/" in
                let entry := VirtualDirectory dirPath [] in
                let current := addEntry current segment entry in
                let '(entry', r) :=
                  addFileLoop entry (done ++ [segment]) rest file in
                (addEntry current segment entry', r)
            | Some entry =>
                if negb (isDirectory entry) then
                  (current,
                   Throw (Error ("Cannot create file: "
                                 +++ JSString.join (done ++ [segment]) "/"
                                 +++ " is not a directory")))
                else
                  let '(entry', r) :=
                    addFileLoop entry (done ++ [segment]) rest file in
                  (addEntry current segment entry', r)
            end
      end
  end.

(** [for (const segment of segments)] in [_resolveEntry]. *)
Fixpoint resolveSegments (current : VirtualEntry) (segments : list string)
  : option VirtualEntry :=
  match segments with
  | [] => Some current
  | segment :: rest =>
      if negb (isDirectory current) then None
      else match getEntry current segment with
           | None => None
           | Some entry => resolveSegments entry rest
           end
  end.

(** A method called on an entry that [_resolveEntry] returned changes the
    object inside the tree.  [storeAt root segments entry] is the tree with
    [entry] in the place the walk over [segments] leads to. *)
Fixpoint storeAt (current : VirtualEntry) (segments : list string)
         (entry : VirtualEntry) : VirtualEntry :=
  match segments with
  | [] => entry
  | segment :: rest =>
      match getEntry current segment with
      | Some child => addEntry current segment (storeAt child rest entry)
      | None => current
      end
  end.

(** The [options] argument of the read operations. *)
Inductive ReadOptions : Type :=
| OptUndefined
| OptString (encoding : string)
| OptObject (encoding : option string)
| OptFunction.

(** What a read hands back: the buffer, or [content.toString(encoding)],
    kept as the buffer with its encoding (decoding is a primitive of the
    host). *)
Inductive FileData : Type :=
| Raw (content : Buffer)
| Decoded (content : Buffer) (encoding : string).

(** The "Handle encoding" block shared by the read operations. *)
Definition handleEncoding (options : ReadOptions) (content : Buffer) : FileData :=
  match options with
  | OptUndefined => Raw content
  | OptString encoding =>
      if JSString.truthy encoding then Decoded content encoding else Raw content
  | OptObject (Some encoding) =>
      if JSString.truthy encoding then Decoded content encoding else Raw content
  | OptObject None => Raw content
  | OptFunction => Raw content
  end.

Section VirtualFileSystemMethods.

Context {process : Process}.

(** The instance after the call, and whether the call returned or threw.
    The [options] of the file are metadata that nothing here reads. *)
Definition addFile (this : VirtualFileSystem) (filePath : string)
           (content : ContentSource) : VirtualFileSystem * Outcome unit :=
  let normalized := normalizePath filePath in
  let segments := splitPath normalized in
  if (List.length segments =? 0)%nat then
    (this, Throw (Error "Cannot add file at root path"))
  else
    let file := VirtualFile normalized content in
    let '(root, r) := addFileLoop (kRoot this) [] segments file in
    (setRoot this root, r).

(** "Determine the path within VFS" in [_resolveEntry]; [None] when the
    method returns [null] there. *)
Definition vfsPathOf (this : VirtualFileSystem) (normalized : string)
  : option string :=
  match kMountPoint this with
  | Some mountPoint =>
      if kMounted this && JSString.truthy mountPoint then
        if negb (isUnderMountPoint normalized mountPoint) then None
        else Some (getRelativePath normalized mountPoint)
      else Some normalized
  | None => Some normalized
  end.

Definition _resolveEntry (this : VirtualFileSystem) (inputPath : string)
  : option VirtualEntry :=
  let normalized := normalizePath inputPath in
  match vfsPathOf this normalized with
  | None => None
  | Some vfsPath =>
      (* Handle root *)
      if String.eqb vfsPath "/" then Some (kRoot this)
      else (* Walk the path *)
        resolveSegments (kRoot this) (splitPath vfsPath)
  end.

(** Where in the tree [_resolveEntry] finds what it returns. *)
Definition entryLocation (this : VirtualFileSystem) (inputPath : string)
  : list string :=
  match vfsPathOf this (normalizePath inputPath) with
  | None => []
  | Some vfsPath => if String.eqb vfsPath "/" then [] else splitPath vfsPath
  end.

(** The instance after the call, and the boolean the call returns. *)
Definition remove (this : VirtualFileSystem) (entryPath : string)
  : VirtualFileSystem * bool :=
  let normalized := normalizePath entryPath in
  match getParentPath normalized with
  | None =>
      (* Cannot remove root *)
      (this, false)
  | Some parentPath =>
      match _resolveEntry this parentPath with
      | None => (this, false)
      | Some parent =>
          if negb (isDirectory parent) then (this, false)
          else
            let name := getBaseName normalized in
            let '(parent, removed) := removeEntry parent name in
            (setRoot this
                     (storeAt (kRoot this) (entryLocation this parentPath) parent),
             removed)
      end
  end.

Definition has (this : VirtualFileSystem) (entryPath : string) : bool :=
  let normalized := normalizePath entryPath in
  match _resolveEntry this normalized with
  | Some _ => true
  | None => false
  end.

Definition shouldHandle (this : VirtualFileSystem) (inputPath : string) : bool :=
  if negb (kMounted this) && negb (kOverlay this) then false
  else
    let normalized := normalizePath inputPath in
    if kOverlay this then
      (* In overlay mode, check if the path exists in VFS *)
      match _resolveEntry this normalized with
      | Some _ => true
      | None => false
      end
    else
      match kMountPoint this with
      | Some mountPoint =>
          if kMounted this && JSString.truthy mountPoint then
            (* In mount mode, check if path is under mount point *)
            isUnderMountPoint normalized mountPoint
          else false
      | None => false
      end.

Definition existsSync (this : VirtualFileSystem) (filePath : string) : bool :=
  match _resolveEntry this filePath with
  | Some _ => true
  | None => false
  end.

Definition statSync (this : VirtualFileSystem) (filePath : string) : Outcome Stats :=
  match _resolveEntry this filePath with
  | None => Throw (createENOENT "stat" filePath)
  | Some entry => Return (getStats entry)
  end.

Definition lstatSync (this : VirtualFileSystem) (filePath : string) : Outcome Stats :=
  statSync this filePath.

Definition readFileSync (this : VirtualFileSystem) (filePath : string)
           (options : ReadOptions) : Outcome FileData :=
  match _resolveEntry this filePath with
  | None => Throw (createENOENT "open" filePath)
  | Some entry =>
      if isDirectory entry then Throw (createEISDIR "read" filePath)
      else
        match getContentSync entry with
        | Throw e => Throw e
        | Return content => Return (handleEncoding options content)
        end
  end.

Definition realpathSync (this : VirtualFileSystem) (filePath : string) : Outcome string :=
  let normalized := normalizePath filePath in
  match _resolveEntry this normalized with
  | None => Throw (createENOENT "realpath" filePath)
  | Some _ => Return normalized
  end.

Definition internalModuleStat (this : VirtualFileSystem) (filePath : string) : Z :=
  match _resolveEntry this filePath with
  | None => (-2)%Z
  | Some entry => if isDirectory entry then 1%Z else 0%Z
  end.

(** Callback style: the outcome is the [(err, data)] the callback is called
    with.  A function in the place of [options] is the callback, and the
    options are then [undefined]. *)
Definition readFile (this : VirtualFileSystem) (filePath : string)
           (options : ReadOptions) : Outcome FileData :=
  let options := match options with
                 | OptFunction => OptUndefined
                 | _ => options
                 end in
  match _resolveEntry this filePath with
  | None => Throw (createENOENT "open" filePath)
  | Some entry =>
      if isDirectory entry then Throw (createEISDIR "read" filePath)
      else
        (* Use async getContent for dynamic content support *)
        match getContent entry with
        | Return content => Return (handleEncoding options content)
        | Throw err => Throw err
        end
  end.

(** [vfs.promises.readFile]: the outcome is what the promise settles with. *)
Definition promises_readFile (vfs : VirtualFileSystem) (filePath : string)
           (options : ReadOptions) : Outcome FileData :=
  match _resolveEntry vfs filePath with
  | None => Throw (createENOENT "open" filePath)
  | Some entry =>
      if isDirectory entry then Throw (createEISDIR "read" filePath)
      else
        match getContent entry with
        | Throw e => Throw e
        | Return content => Return (handleEncoding options content)
        end
  end.

End VirtualFileSystemMethods.

(* ================================================================== *)
(** ** virtual_fs.js: directories and listings *)
(* ================================================================== *)

(** The loop of [addDirectory] and the final [addEntry] of the directory;
    it is the loop of [addFile] but for the message of its error. *)
Fixpoint addDirectoryLoop (current : VirtualEntry) (done segments : list string)
         (dir : VirtualEntry) : VirtualEntry * Outcome unit :=
  match segments with
  | [] => (current, Return tt)
  | segment :: rest =>
      match rest with
      | [] =>
          (* segment is the directory name *)
          if isDirectory current
          then (addEntry current segment dir, Return tt)
          else (current, Throw (TypeError "current.addEntry is not a function"))
      | _ :: _ =>
          if negb (isDirectory current)
          then (current, Throw (TypeError "current.getEntry is not a function"))
          else
            match getEntry current segment with
            | None =>
                (* Auto-create parent directory *)
                let parentPath := "/" +++ JSString.join (done ++ [segment]) "/" in
                let entry := VirtualDirectory parentPath [] in
                let current := addEntry current segment entry in
                let '(entry', r) :=
                  addDirectoryLoop entry (done ++ [segment]) rest dir in
                (addEntry current segment entry', r)
            | Some entry =>
                if negb (isDirectory entry) then
                  (current,
                   Throw (Error ("Cannot create directory: "
                                 +++ JSString.join (done ++ [segment]) "/"
                                 +++ " is not a directory")))
                else
                  let '(entry', r) :=
                    addDirectoryLoop entry (done ++ [segment]) rest dir in
                  (addEntry current segment entry', r)
            end
      end
  end.

(** Modelled from the spec: the kind tags [UV_DIRENT_FILE] and
    [UV_DIRENT_DIR], constants of the [fs] binding, which is not among the
    sources. *)
Inductive DirentType : Type :=
| UV_DIRENT_FILE
| UV_DIRENT_DIR.

(** Modelled from the spec: [Dirent] of internal/fs/utils, a name tagged
    with its kind and the path of the listed directory. *)
Record Dirent : Type := mkDirent {
  dirent_name : string;
  dirent_type : DirentType;
  dirent_path : string
}.

(** What [readdir] hands back: names, or [Dirent] objects. *)
Inductive Listing : Type :=
| Names (names : list string)
| Dirents (dirents : list Dirent).

(** [for (const name of names)] in [readdirSync] and its asynchronous
    forms.  A name without an entry makes [childEntry] undefined, and the
    method call on it a [TypeError]. *)
Fixpoint direntsLoop (entry : VirtualEntry) (names : list string)
         (dirPath : string) : Outcome (list Dirent) :=
  match names with
  | [] => Return []
  | name :: rest =>
      match getEntry entry name with
      | None => Throw (TypeError "Cannot read properties of undefined")
      | Some childEntry =>
          let type := if isDirectory childEntry
                      then UV_DIRENT_DIR else UV_DIRENT_FILE in
          match direntsLoop entry rest dirPath with
          | Throw e => Throw e
          | Return dirents => Return (mkDirent name type dirPath :: dirents)
          end
      end
  end.

(** The part of [readdirSync], [readdir] and [promises.readdir] after the
    entry has been found to be a directory.  [withFileTypes] is
    [options?.withFileTypes], false when there are no options. *)
Definition listEntries (entry : VirtualEntry) (dirPath : string)
           (withFileTypes : bool) : Outcome Listing :=
  let names := getEntryNames entry in
  if withFileTypes then
    match direntsLoop entry names dirPath with
    | Throw e => Throw e
    | Return dirents => Return (Dirents dirents)
    end
  else Return (Names names).

Section MoreMethods.

Context {process : Process}.

(** [addDirectory(dirPath)], the call without a populate callback: the
    directory it creates has the children it is given later.  At the root
    the call does nothing. *)
Definition addDirectory (this : VirtualFileSystem) (dirPath : string)
  : VirtualFileSystem * Outcome unit :=
  let normalized := normalizePath dirPath in
  let segments := splitPath normalized in
  (* Handle root directory *)
  if (List.length segments =? 0)%nat then (this, Return tt)
  else
    let dir := VirtualDirectory normalized [] in
    let '(root, r) := addDirectoryLoop (kRoot this) [] segments dir in
    (setRoot this root, r).

Definition readdirSync (this : VirtualFileSystem) (dirPath : string)
           (withFileTypes : bool) : Outcome Listing :=
  match _resolveEntry this dirPath with
  | None => Throw (createENOENT "scandir" dirPath)
  | Some entry =>
      if negb (isDirectory entry) then Throw (createENOTDIR "scandir" dirPath)
      else listEntries entry dirPath withFileTypes
  end.

(** The callback forms: the outcome is the [(err, value)] the callback is
    called with. *)
Definition stat (this : VirtualFileSystem) (filePath : string) : Outcome Stats :=
  match _resolveEntry this filePath with
  | None => Throw (createENOENT "stat" filePath)
  | Some entry => Return (getStats entry)
  end.

Definition lstat (this : VirtualFileSystem) (filePath : string) : Outcome Stats :=
  stat this filePath.

Definition readdir (this : VirtualFileSystem) (dirPath : string)
           (withFileTypes : bool) : Outcome Listing :=
  match _resolveEntry this dirPath with
  | None => Throw (createENOENT "scandir" dirPath)
  | Some entry =>
      if negb (isDirectory entry) then Throw (createENOTDIR "scandir" dirPath)
      else listEntries entry dirPath withFileTypes
  end.

Definition realpath (this : VirtualFileSystem) (filePath : string) : Outcome string :=
  let normalized := normalizePath filePath in
  match _resolveEntry this normalized with
  | None => Throw (createENOENT "realpath" filePath)
  | Some _ => Return normalized
  end.

Definition access (this : VirtualFileSystem) (filePath : string) : Outcome unit :=
  match _resolveEntry this filePath with
  | None => Throw (createENOENT "access" filePath)
  | Some _ => Return tt
  end.

(** The promise forms of [createPromisesAPI]: the outcome is what the
    promise settles with. *)
Definition promises_stat (vfs : VirtualFileSystem) (filePath : string)
  : Outcome Stats :=
  match _resolveEntry vfs filePath with
  | None => Throw (createENOENT "stat" filePath)
  | Some entry => Return (getStats entry)
  end.

Definition promises_lstat (vfs : VirtualFileSystem) (filePath : string)
  : Outcome Stats :=
  promises_stat vfs filePath.

Definition promises_readdir (vfs : VirtualFileSystem) (dirPath : string)
           (withFileTypes : bool) : Outcome Listing :=
  match _resolveEntry vfs dirPath with
  | None => Throw (createENOENT "scandir" dirPath)
  | Some entry =>
      if negb (isDirectory entry) then Throw (createENOTDIR "scandir" dirPath)
      else listEntries entry dirPath withFileTypes
  end.

Definition promises_realpath (vfs : VirtualFileSystem) (filePath : string)
  : Outcome string :=
  let normalized := normalizePath filePath in
  match _resolveEntry vfs normalized with
  | None => Throw (createENOENT "realpath" filePath)
  | Some _ => Return normalized
  end.

Definition promises_access (vfs : VirtualFileSystem) (filePath : string)
  : Outcome unit :=
  match _resolveEntry vfs filePath with
  | None => Throw (createENOENT "access" filePath)
  | Some _ => Return tt
  end.

End MoreMethods.

(* ================================================================== *)
(** ** The process-wide state *)
(* ================================================================== *)

(** Instances are objects with identity: the registry and the callers hold
    references to them, and a method call changes the one object behind all
    references.  [heap] gives the fields of every instance. *)
Definition ObjId : Type := nat.

Record World : Type := mkWorld {
  heap : ObjId -> VirtualFileSystem;
  activeVFSList : list ObjId;
  hooksInstalled : bool
}.

Definition initialWorld : World :=
  {| heap := fun _ => newVirtualFileSystem None;
     activeVFSList := [];
     hooksInstalled := false |}.

Definition setObject (w : World) (this : ObjId) (fields : VirtualFileSystem) : World :=
  {| heap := fun i => if (i =? this)%nat then fields else heap w i;
     activeVFSList := activeVFSList w;
     hooksInstalled := hooksInstalled w |}.

Definition setActiveVFSList (w : World) (list : list ObjId) : World :=
  {| heap := heap w;
     activeVFSList := list;
     hooksInstalled := hooksInstalled w |}.

(* ================================================================== *)
(** ** module_hooks.js *)
(* ================================================================== *)

Fixpoint ArrayPrototypeIndexOf (xs : list ObjId) (x : ObjId) : Z :=
  match xs with
  | [] => (-1)%Z
  | y :: ys =>
      if (y =? x)%nat then 0%Z
      else let i := ArrayPrototypeIndexOf ys x in
           if (i =? -1)%Z then (-1)%Z else (i + 1)%Z
  end.

Definition ArrayPrototypePush (xs : list ObjId) (x : ObjId) : list ObjId :=
  xs ++ [x].

(** [ArrayPrototypeSplice(xs, index, deleteCount)] for [0 <= index]. *)
Definition ArrayPrototypeSplice (xs : list ObjId) (index : Z) (deleteCount : nat)
  : list ObjId :=
  firstn (Z.to_nat index) xs ++ skipn (Z.to_nat index + deleteCount) xs.

(** The originals are saved and the entry points overridden; of that the
    state keeps the flag, and the overriding functions below take the
    originals as arguments. *)
Definition installHooks (w : World) : World :=
  if hooksInstalled w then w
  else {| heap := heap w;
          activeVFSList := activeVFSList w;
          hooksInstalled := true |}.

Definition registerVFS (vfs : ObjId) (w : World) : World :=
  if (ArrayPrototypeIndexOf (activeVFSList w) vfs =? -1)%Z then
    let w := setActiveVFSList w (ArrayPrototypePush (activeVFSList w) vfs) in
    if negb (hooksInstalled w) then installHooks w else w
  else w.

Definition unregisterVFS (vfs : ObjId) (w : World) : World :=
  let index := ArrayPrototypeIndexOf (activeVFSList w) vfs in
  if negb (index =? -1)%Z then
    setActiveVFSList w (ArrayPrototypeSplice (activeVFSList w) index 1)
  else w.

Definition getActiveVFSCount (w : World) : nat := List.length (activeVFSList w).
Definition areHooksInstalled (w : World) : bool := hooksInstalled w.

(** What is passed where a path is expected. *)
Inductive PathLike : Type :=
| PathString (s : string)
| PathURL (pathname : string)
| PathOther.

Section ModuleHooks.

Context {process : Process}.

(** The dispatch loops run over [activeVFSList[i]], [i = 0, 1, ...]; [objs]
    resolves a reference.  [None] is [null]. *)
Fixpoint findVFSForStatLoop (objs : ObjId -> VirtualFileSystem)
         (list : list ObjId) (normalized : string) : option (ObjId * Z) :=
  match list with
  | [] => None
  | vfs :: rest =>
      if shouldHandle (objs vfs) normalized then
        let result := internalModuleStat (objs vfs) normalized in
        (* For mounted VFS, always return result (even -2 for ENOENT within
           mount).  For overlay VFS, only return if found *)
        if isMounted (objs vfs) || (0 <=? result)%Z then Some (vfs, result)
        else findVFSForStatLoop objs rest normalized
      else findVFSForStatLoop objs rest normalized
  end.

Definition findVFSForStat (w : World) (filename : string) : option (ObjId * Z) :=
  let normalized := normalizePath filename in
  findVFSForStatLoop (heap w) (activeVFSList w) normalized.

Fixpoint findVFSForReadLoop (objs : ObjId -> VirtualFileSystem)
         (list : list ObjId) (filename normalized : string)
         (options : ReadOptions) : Outcome (option (ObjId * FileData)) :=
  match list with
  | [] => Return None
  | vfs :: rest =>
      if shouldHandle (objs vfs) normalized then
        (* Check if the file actually exists in VFS *)
        if existsSync (objs vfs) normalized then
          (* Only read files, not directories *)
          let statResult := internalModuleStat (objs vfs) normalized in
          if negb (statResult =? 0)%Z then
            (* Let the real fs handle it *)
            Return None
          else
            match readFileSync (objs vfs) normalized options with
            | Return content => Return (Some (vfs, content))
            | Throw e =>
                if isMounted (objs vfs) then Throw e
                else findVFSForReadLoop objs rest filename normalized options
            end
        else if isMounted (objs vfs) then
          (* under the mount point but absent: no fall through to real fs *)
          Throw (createENOENT "open" filename)
        else findVFSForReadLoop objs rest filename normalized options
      else findVFSForReadLoop objs rest filename normalized options
  end.

Definition findVFSForRead (w : World) (filename : string) (options : ReadOptions)
  : Outcome (option (ObjId * FileData)) :=
  let normalized := normalizePath filename in
  findVFSForReadLoop (heap w) (activeVFSList w) filename normalized options.

Fixpoint findVFSForRealpathLoop (objs : ObjId -> VirtualFileSystem)
         (list : list ObjId) (filename normalized : string)
  : Outcome (option (ObjId * string)) :=
  match list with
  | [] => Return None
  | vfs :: rest =>
      if shouldHandle (objs vfs) normalized then
        if existsSync (objs vfs) normalized then
          match realpathSync (objs vfs) normalized with
          | Return realpath => Return (Some (vfs, realpath))
          | Throw e =>
              if isMounted (objs vfs) then Throw e
              else findVFSForRealpathLoop objs rest filename normalized
          end
        else if isMounted (objs vfs) then
          Throw (createENOENT "realpath" filename)
        else findVFSForRealpathLoop objs rest filename normalized
      else findVFSForRealpathLoop objs rest filename normalized
  end.

Definition findVFSForRealpath (w : World) (filename : string)
  : Outcome (option (ObjId * string)) :=
  let normalized := normalizePath filename in
  findVFSForRealpathLoop (heap w) (activeVFSList w) filename normalized.

Fixpoint findVFSForFsStatLoop (objs : ObjId -> VirtualFileSystem)
         (list : list ObjId) (filename normalized : string)
  : Outcome (option (ObjId * Stats)) :=
  match list with
  | [] => Return None
  | vfs :: rest =>
      if shouldHandle (objs vfs) normalized then
        if existsSync (objs vfs) normalized then
          match statSync (objs vfs) normalized with
          | Return stats => Return (Some (vfs, stats))
          | Throw e =>
              if isMounted (objs vfs) then Throw e
              else findVFSForFsStatLoop objs rest filename normalized
          end
        else if isMounted (objs vfs) then
          Throw (createENOENT "stat" filename)
        else findVFSForFsStatLoop objs rest filename normalized
      else findVFSForFsStatLoop objs rest filename normalized
  end.

Definition findVFSForFsStat (w : World) (filename : string)
  : Outcome (option (ObjId * Stats)) :=
  let normalized := normalizePath filename in
  findVFSForFsStatLoop (heap w) (activeVFSList w) filename normalized.

(** The functions [installHooks] puts in the place of [Module._stat],
    [fs.readFileSync], [fs.realpathSync], [fs.lstatSync] and [fs.statSync].
    Each takes the saved original as its first argument. *)
Definition vfsStat (originalStat : string -> Z) (w : World) (filename : string) : Z :=
  match findVFSForStat w filename with
  | Some (_, result) => result
  | None => originalStat filename
  end.

Definition pathStr (p : PathLike) : option string :=
  match p with
  | PathString s => Some s
  | PathURL pathname => Some pathname
  | PathOther => None
  end.

Definition vfsReadFileSync
           (originalReadFileSync : PathLike -> ReadOptions -> Outcome FileData)
           (w : World) (p : PathLike) (options : ReadOptions) : Outcome FileData :=
  match pathStr p with
  | Some pathStr =>
      match findVFSForRead w pathStr options with
      | Throw e => Throw e
      | Return (Some (_, content)) => Return content
      | Return None => originalReadFileSync p options
      end
  | None => originalReadFileSync p options
  end.

Definition vfsRealpathSync
           (originalRealpathSync : PathLike -> Outcome string)
           (w : World) (p : PathLike) : Outcome string :=
  match pathStr p with
  | Some pathStr =>
      match findVFSForRealpath w pathStr with
      | Throw e => Throw e
      | Return (Some (_, realpath)) => Return realpath
      | Return None => originalRealpathSync p
      end
  | None => originalRealpathSync p
  end.

Definition vfsLstatSync
           (originalLstatSync : PathLike -> Outcome Stats)
           (w : World) (p : PathLike) : Outcome Stats :=
  match pathStr p with
  | Some pathStr =>
      match findVFSForFsStat w pathStr with
      | Throw e => Throw e
      | Return (Some (_, stats)) => Return stats
      | Return None => originalLstatSync p
      end
  | None => originalLstatSync p
  end.

Definition vfsStatSync
           (originalStatSync : PathLike -> Outcome Stats)
           (w : World) (p : PathLike) : Outcome Stats :=
  match pathStr p with
  | Some pathStr =>
      match findVFSForFsStat w pathStr with
      | Throw e => Throw e
      | Return (Some (_, stats)) => Return stats
      | Return None => originalStatSync p
      end
  | None => originalStatSync p
  end.

(* ================================================================== *)
(** ** virtual_fs.js: activation *)
(* ================================================================== *)

Definition mount (this : ObjId) (prefix : string) (w : World)
  : World * Outcome unit :=
  if kMounted (heap w this) || kOverlay (heap w this) then
    (w, Throw (Error "VFS is already mounted or in overlay mode"))
  else
    let w := setObject w this
               (setMode (heap w this) (Some (normalizePath prefix))
                        (kMounted (heap w this)) (kOverlay (heap w this))) in
    let w := setObject w this
               (setMode (heap w this) (kMountPoint (heap w this))
                        true (kOverlay (heap w this))) in
    (registerVFS this w, Return tt).

Definition overlay (this : ObjId) (w : World) : World * Outcome unit :=
  if kMounted (heap w this) || kOverlay (heap w this) then
    (w, Throw (Error "VFS is already mounted or in overlay mode"))
  else
    let w := setObject w this
               (setMode (heap w this) (kMountPoint (heap w this))
                        (kMounted (heap w this)) true) in
    (registerVFS this w, Return tt).

Definition unmount (this : ObjId) (w : World) : World :=
  let w := unregisterVFS this w in
  setObject w this (setMode (heap w this) None false false).

(** A method call on an instance, as a caller makes it; [addDirectory] is
    the call without a populate callback. *)
Inductive Call : Type :=
| CallMount (prefix : string)
| CallOverlay
| CallUnmount
| CallAddFile (filePath : string) (content : ContentSource)
| CallAddDirectory (dirPath : string)
| CallRemove (entryPath : string).

(** The state a call leaves behind, whether it returned or threw. *)
Definition call (w : World) (c : ObjId * Call) : World :=
  let '(this, c) := c in
  match c with
  | CallMount prefix => fst (mount this prefix w)
  | CallOverlay => fst (overlay this w)
  | CallUnmount => unmount this w
  | CallAddFile filePath content =>
      setObject w this (fst (addFile (heap w this) filePath content))
  | CallAddDirectory dirPath =>
      setObject w this (fst (addDirectory (heap w this) dirPath))
  | CallRemove entryPath =>
      setObject w this (fst (remove (heap w this) entryPath))
  end.

Definition run (calls : list (ObjId * Call)) (w : World) : World :=
  fold_left call calls w.

End ModuleHooks.

(* ================================================================== *)
(** ** Notions used to state and prove the properties *)
(* ================================================================== *)

(** A string without a separator in it. *)
Fixpoint noSlash (s : string) : bool :=
  match s with
  | EmptyString => true
  | String c s' => negb (Ascii.eqb c "/") && noSlash s'
  end.

(** A segment as it stands in a normalized path: not empty, not ["."], not
    [".."], and without a separator. *)
Definition cleanSegment (seg : string) : bool :=
  negb (String.eqb seg EmptyString) && negb (String.eqb seg ".")
  && negb (String.eqb seg "..") && noSlash seg.

(** The absolute path with the given segments. *)
Definition pathOf (segments : list string) : string :=
  "/" +++ JSString.join segments "/".

(** Resolution of a path inside the tree, from the root: what
    [_resolveEntry] does once it has the path within the VFS. *)
Definition treeLookup (root : VirtualEntry) (vfsPath : string)
  : option VirtualEntry :=
  if String.eqb vfsPath "/" then Some root
  else resolveSegments root (splitPath vfsPath).

Definition isSome {A : Type} (o : option A) : bool :=
  match o with
  | Some _ => true
  | None => false
  end.

(** The three mode fields fit together: not mounted and overlay at once, and
    a mount point, never empty, exactly when mounted. *)
Definition modeInvariant (this : VirtualFileSystem) : bool :=
  negb (kMounted this && kOverlay this)
  && match kMountPoint this with
     | Some mountPoint => kMounted this && JSString.truthy mountPoint
     | None => negb (kMounted this)
     end.

(** A file whose content only an asynchronous provider can give. *)
Definition asyncOnly (entry : VirtualEntry) : bool :=
  match entry with
  | VirtualFile _ (AsyncProvider _) => true
  | _ => false
  end.

(** What a synchronous read of a file with content source [c] gives. *)
Definition syncRead (c : ContentSource) (options : ReadOptions)
  : Outcome FileData :=
  match c with
  | FixedBytes bytes => Return (handleEncoding options bytes)
  | SyncProvider (Return bytes) => Return (handleEncoding options bytes)
  | SyncProvider (Throw e) => Throw e
  | AsyncProvider _ =>
      Throw (ERR_INVALID_STATE "cannot use sync API with async content provider")
  end.

(** [xs] is an initial part of [ys], or all of it. *)
Fixpoint isPrefixOf (xs ys : list string) : bool :=
  match xs, ys with
  | [], _ => true
  | x :: xs', y :: ys' => String.eqb x y && isPrefixOf xs' ys'
  | _ :: _, [] => false
  end.

(** The place in the tree at which a call on the instance [this] puts or
    deletes an entry, if it gets that far.  [addFile] and [addDirectory] at
    the root count as writing at the root. *)
Definition writesAt {process : Process} (this : VirtualFileSystem) (c : Call)
  : option (list string) :=
  match c with
  | CallAddFile filePath _ => Some (splitPath (normalizePath filePath))
  | CallAddDirectory dirPath => Some (splitPath (normalizePath dirPath))
  | CallRemove entryPath =>
      let normalized := normalizePath entryPath in
      match getParentPath normalized with
      | None => None
      | Some parentPath =>
          match vfsPathOf this (normalizePath parentPath) with
          | None => None
          | Some _ =>
              Some (entryLocation this parentPath ++ [getBaseName normalized])
          end
      end
  | _ => None
  end.

(** None of the calls, made one after the other from the state [w], writes
    in the tree of the instance [target] at the place [segments] or at a
    place above it. *)
Fixpoint leavesAlone {process : Process} (target : ObjId) (segments : list string)
         (w : World) (calls : list (ObjId * Call)) : bool :=
  match calls with
  | [] => true
  | (that, c) :: rest =>
      (negb (that =? target)%nat
       || match writesAt (heap w target) c with
          | Some place => negb (isPrefixOf place segments)
          | None => true
          end)
      && leavesAlone target segments (call w (that, c)) rest
  end.

(** *** Sample states *)

Definition hostProcess : Process := {| cwd := "/home/user" |}.

(** One instance holding [/a.txt], [/docs/readme.md] and a file served by an
    asynchronous provider. *)
Definition sampleCalls : list (ObjId * Call) :=
  [ (0, CallAddFile "/a.txt" (FixedBytes "hi"));
    (0, CallAddFile "/docs/readme.md" (FixedBytes "read me"));
    (0, CallAddFile "/docs/lazy.bin" (AsyncProvider (Return "later"))) ].

Definition sampleUnmounted : World := run (process := hostProcess) sampleCalls initialWorld.

Definition sampleMounted : World :=
  run (process := hostProcess) [(0, CallMount "/sea")] sampleUnmounted.

Definition sampleOverlay : World :=
  run (process := hostProcess) [(0, CallOverlay)] sampleUnmounted.

(** Two instances mounted at the same prefix, each with its own [/a.txt],
    and a third one in overlay mode. *)
Definition sampleTwoMounts : World :=
  run (process := hostProcess)
      [ (1, CallAddFile "/a.txt" (FixedBytes "second"));
        (2, CallAddFile "/etc/hosts" (FixedBytes "overlay"));
        (0, CallMount "/sea");
        (1, CallMount "/sea");
        (2, CallOverlay) ]
      sampleUnmounted.

(** The administrative calls that change the tree of an instance. *)
Inductive TreeCall : Type :=
| TreeAddFile (filePath : string) (content : ContentSource)
| TreeAddDirectory (dirPath : string)
| TreeRemove (entryPath : string).

(** The instance a tree call leaves behind, whether it returned or threw. *)
Definition treeCall {process : Process} (this : VirtualFileSystem) (c : TreeCall)
  : VirtualFileSystem :=
  match c with
  | TreeAddFile filePath content => fst (addFile this filePath content)
  | TreeAddDirectory dirPath => fst (addDirectory this dirPath)
  | TreeRemove entryPath => fst (remove this entryPath)
  end.

(* ================================================================== *)
(** ** module_hooks.js: the module loader hooks *)
(* ================================================================== *)

Definition getFormatFromExtension (url : string) : string :=
  if StringPrototypeEndsWith url ".mjs" then "module"
  else if StringPrototypeEndsWith url ".cjs" then "commonjs"
  else if StringPrototypeEndsWith url ".json" then "json"
  else (* Default to commonjs for .js files *) "commonjs".

(** The [context] of the resolve step: [None] is an absent [parentURL]. *)
Record ResolveContext : Type := mkResolveContext { parentURL : option string }.

(** The [context] of the load step: [None] is an absent [format]. *)
Record LoadContext : Type := mkLoadContext { contextFormat : option string }.

Record ResolveResult : Type := mkResolveResult {
  resolved_url : string;
  resolved_format : string;
  resolved_shortCircuit : bool
}.

Record LoadResult : Type := mkLoadResult {
  loaded_format : string;
  loaded_source : FileData;
  loaded_shortCircuit : bool
}.

(** [s[0] === c] *)
Definition firstCharIs (s : string) (c : ascii) : bool :=
  match s with
  | String d _ => Ascii.eqb d c
  | EmptyString => false
  end.

Section LoaderHooks.

Context {process : Process}.

(** [fileURLToPath] and [pathToFileURL(...).href] of internal/url and
    [path.dirname] belong to the host; the hooks are modelled for any such
    functions. *)
Variable fileURLToPath : string -> Outcome string.
Variable pathToFileURL : string -> string.
Variable dirname : string -> string.

Definition urlToPath (urlOrPath : string) : Outcome string :=
  if StringPrototypeStartsWith urlOrPath "file://" then fileURLToPath urlOrPath
  else Return urlOrPath.

(** "Check if any VFS handles this path" in [vfsResolveHook]; [next] is what
    [nextResolve(specifier, context)] gives. *)
Fixpoint vfsResolveHookLoop (objs : ObjId -> VirtualFileSystem)
         (list : list ObjId) (normalized : string)
         (next : Outcome ResolveResult) : Outcome ResolveResult :=
  match list with
  | [] => next
  | vfs :: rest =>
      if shouldHandle (objs vfs) normalized && existsSync (objs vfs) normalized
      then
        (* Only resolve files, let directories go through normal resolution *)
        let statResult := internalModuleStat (objs vfs) normalized in
        if negb (statResult =? 0)%Z then next
        else
          let url := pathToFileURL normalized in
          let format := getFormatFromExtension normalized in
          Return (mkResolveResult url format true)
      else vfsResolveHookLoop objs rest normalized next
  end.

Definition vfsResolveHook (w : World) (specifier : string)
           (context : ResolveContext)
           (nextResolve : string -> ResolveContext -> Outcome ResolveResult)
  : Outcome ResolveResult :=
  (* Skip node: built-ins *)
  if StringPrototypeStartsWith specifier "node:" then nextResolve specifier context
  else
    let check (checkPath : string) :=
      let normalized := normalizePath checkPath in
      vfsResolveHookLoop (heap w) (activeVFSList w) normalized
                         (nextResolve specifier context) in
    if StringPrototypeStartsWith specifier "file://" then
      match fileURLToPath specifier with
      | Throw e => Throw e
      | Return checkPath => check checkPath
      end
    else if firstCharIs specifier "/" then
      (* Absolute path *)
      check specifier
    else if firstCharIs specifier "." then
      (* Relative path - need to resolve against parent *)
      match parentURL context with
      | Some parent =>
          if JSString.truthy parent then
            match urlToPath parent with
            | Throw e => Throw e
            | Return parentPath =>
                let parentDir := dirname parentPath in
                check (path.resolve [parentDir; specifier])
            end
          else nextResolve specifier context
      | None => nextResolve specifier context
      end
    else
      (* Bare specifier - let default resolver handle it *)
      nextResolve specifier context.

(** "Check if any VFS handles this path" in [vfsLoadHook]; [next] is what
    [nextLoad(url, context)] gives. *)
Fixpoint vfsLoadHookLoop (objs : ObjId -> VirtualFileSystem)
         (list : list ObjId) (normalized : string) (context : LoadContext)
         (next : Outcome LoadResult) : Outcome LoadResult :=
  match list with
  | [] => next
  | vfs :: rest =>
      if shouldHandle (objs vfs) normalized && existsSync (objs vfs) normalized
      then
        (* Only load files, not directories *)
        let statResult := internalModuleStat (objs vfs) normalized in
        if negb (statResult =? 0)%Z then next
        else
          match readFileSync (objs vfs) normalized (OptString "utf8") with
          | Return content =>
              let format :=
                match contextFormat context with
                | Some f => if JSString.truthy f then f
                            else getFormatFromExtension normalized
                | None => getFormatFromExtension normalized
                end in
              Return (mkLoadResult format content true)
          | Throw e =>
              (* If read fails, fall through to default loader *)
              if isMounted (objs vfs) then Throw e
              else vfsLoadHookLoop objs rest normalized context next
          end
      else vfsLoadHookLoop objs rest normalized context next
  end.

Definition vfsLoadHook (w : World) (url : string) (context : LoadContext)
           (nextLoad : string -> LoadContext -> Outcome LoadResult)
  : Outcome LoadResult :=
  (* Skip node: built-ins *)
  if StringPrototypeStartsWith url "node:" then nextLoad url context
  else if negb (StringPrototypeStartsWith url "file://") then
    (* Only handle file:// URLs *)
    nextLoad url context
  else
    match fileURLToPath url with
    | Throw e => Throw e
    | Return filePath =>
        let normalized := normalizePath filePath in
        vfsLoadHookLoop (heap w) (activeVFSList w) normalized context
                        (nextLoad url context)
    end.

End LoaderHooks.

(* ================================================================== *)
(** ** The adapter for the assets of a single executable application *)
(* ================================================================== *)

(** The [options] of the adapter; [None] is an absent field. *)
Record SeaOptions : Type := mkSeaOptions {
  sea_prefix : option string;
  sea_moduleHooks : option bool
}.

(** The module state: the world of instances, and [cachedSeaVfs], [None]
    for [null]. *)
Record SeaState : Type := mkSeaState {
  sea_world : World;
  cachedSeaVfs : option ObjId
}.

(** "Determine the path - if key starts with /, use as-is, otherwise
    prepend /" *)
Definition assetPath (key : string) : string :=
  if StringPrototypeStartsWith key "/" then key else "/" +++ key.

Section Sea.

Context {process : Process}.

(** [isSea], [getAssetKeys] and [getAsset] of the [sea] module belong to the
    host; the adapter is modelled for any such functions.  [isSea] and the
    keys do not change while the process runs. *)
Variable isSea : bool.
Variable getAssetKeys : list string.
Variable getAsset : string -> Outcome Buffer.

(** [for (let i = 0; i < keys.length; i++)] in [createSeaVfs]: the instance
    as the loop leaves it, and whether it ran through or threw. *)
Fixpoint createSeaVfsLoop (vfs : VirtualFileSystem) (keys : list string)
  : VirtualFileSystem * Outcome unit :=
  match keys with
  | [] => (vfs, Return tt)
  | key :: rest =>
      (* Get asset content as ArrayBuffer and convert to Buffer *)
      match getAsset key with
      | Throw e => (vfs, Throw e)
      | Return content =>
          let buffer := content in
          let path := assetPath key in
          match addFile vfs path (FixedBytes buffer) with
          | (vfs, Throw e) => (vfs, Throw e)
          | (vfs, Return _) => createSeaVfsLoop vfs rest
          end
      end
  end.

(** [createSeaVfs(options)].  [vfs] is the reference of the object that
    [new VirtualFileSystem] creates.  The constructor is given
    [{ moduleHooks }], in which it finds no [fallthrough]. *)
Definition createSeaVfs (options : SeaOptions) (vfs : ObjId) (w : World)
  : World * Outcome (option ObjId) :=
  if negb isSea then (w, Return None)
  else
    let prefix := match sea_prefix options with
                  | Some prefix => prefix
                  | None => "/sea"
                  end in
    let moduleHooks := match sea_moduleHooks options with
                       | Some false => false
                       | _ => true
                       end in
    let w := setObject w vfs (newVirtualFileSystem None) in
    (* Get all asset keys and populate VFS *)
    let keys := getAssetKeys in
    match createSeaVfsLoop (heap w vfs) keys with
    | (fields, Throw e) => (setObject w vfs fields, Throw e)
    | (fields, Return _) =>
        let w := setObject w vfs fields in
        (* Mount at the specified prefix *)
        match mount vfs prefix w with
        | (w, Throw e) => (w, Throw e)
        | (w, Return _) => (w, Return (Some vfs))
        end
    end.

(** [getSeaVfs(options)]; [vfs] is the reference a new instance gets if one
    is created. *)
Definition getSeaVfs (options : SeaOptions) (vfs : ObjId) (st : SeaState)
  : SeaState * Outcome (option ObjId) :=
  match cachedSeaVfs st with
  | None =>
      match createSeaVfs options vfs (sea_world st) with
      | (w, Return created) => (mkSeaState w created, Return created)
      | (w, Throw e) => (mkSeaState w (cachedSeaVfs st), Throw e)
      end
  | Some cached => (st, Return (Some cached))
  end.

Definition hasSeaAssets : bool :=
  if negb isSea then false
  else
    let keys := getAssetKeys in
    (0 <? List.length keys)%nat.

End Sea.

(* ================================================================== *)
(** ** Notions used to state the further properties *)
(* ================================================================== *)

(** No name occurs twice in the list. *)
Fixpoint namesUnique (names : list string) : bool :=
  match names with
  | [] => true
  | name :: rest => negb (existsb (String.eqb name) rest) && namesUnique rest
  end.

(** Every directory of the tree has each child name once, as a map has. *)
Fixpoint wellFormed (entry : VirtualEntry) : bool :=
  match entry with
  | VirtualFile _ _ => true
  | VirtualDirectory _ entries =>
      namesUnique (SafeMap.keys entries)
      && (fix children (l : list (string * VirtualEntry)) : bool :=
            match l with
            | [] => true
            | (_, child) :: l' => wellFormed child && children l'
            end) entries
  end.

Definition isReturn {A : Type} (o : Outcome A) : bool :=
  match o with
  | Return _ => true
  | Throw _ => false
  end.

(** The registry and the instances fit together: the list has no instance
    twice, it holds exactly the instances that are mounted or in overlay
    mode, and the hooks are installed once it has held an instance. *)
Definition registryInvariant (w : World) : Prop :=
  NoDup (activeVFSList w)
  /\ (forall i, In i (activeVFSList w)
                <-> kMounted (heap w i) || kOverlay (heap w i) = true)
  /\ (activeVFSList w <> [] -> hooksInstalled w = true).

(** The first instance of the list that claims the path and has it. *)
Definition firstClaim {process : Process} (objs : ObjId -> VirtualFileSystem)
           (list : list ObjId) (normalized : string) : option ObjId :=
  find (fun vfs => shouldHandle (objs vfs) normalized
                   && existsSync (objs vfs) normalized) list.

(** The instance with another value of the [fallthrough] option, and the
    state in which every instance [i] has the value [option i]. *)
Definition setFallthrough (this : VirtualFileSystem) (option : bool)
  : VirtualFileSystem :=
  {| kRoot := kRoot this;
     kMountPoint := kMountPoint this;
     kMounted := kMounted this;
     kOverlay := kOverlay this;
     kFallthrough := option |}.

Definition withFallthrough (w : World) (option : ObjId -> bool) : World :=
  {| heap := fun i => setFallthrough (heap w i) (option i);
     activeVFSList := activeVFSList w;
     hooksInstalled := hooksInstalled w |}.

(** The segments of the path at which the adapter puts the asset [key]. *)
Definition assetSegments {process : Process} (key : string) : list string :=
  splitPath (normalizePath (assetPath key)).

(** No path of the list is the root, and none is an initial part of
    another or equal to it. *)
Fixpoint independentPaths (paths : list (list string)) : bool :=
  match paths with
  | [] => true
  | p :: rest =>
      negb (List.length p =? 0)%nat
      && forallb (fun q => negb (isPrefixOf p q) && negb (isPrefixOf q p)) rest
      && independentPaths rest
  end.

(** *** More sample states *)

(** Two instances in overlay mode that both hold [/docs/lazy.bin]: the one
    registered first serves it from an asynchronous provider, the other
    from a buffer. *)
Definition sampleTwoOverlays : World :=
  run (process := hostProcess)
      [ (1, CallAddFile "/docs/lazy.bin" (FixedBytes "second"));
        (0, CallOverlay);
        (1, CallOverlay) ]
      sampleUnmounted.

(** Two instances mounted at [/sea]; only the one registered second holds
    [/only.js]. *)
Definition sampleShadowed : World :=
  run (process := hostProcess)
      [ (1, CallAddFile "/only.js" (FixedBytes "module.exports = 1"));
        (0, CallMount "/sea");
        (1, CallMount "/sea") ]
      sampleUnmounted.

(* ================================================================== *)
(** * Properties *)
(* ================================================================== *)

(** ** The definitions at work *)

Example normalizePath_relative :
  normalizePath (process := hostProcess) "a/../b//c/" = "/home/user/b/c".
Proof. reflexivity. Qed.

Example normalizePath_above_root :
  normalizePath (process := hostProcess) "/x/./y/../../.." = "/".
Proof. reflexivity. Qed.

Example splitPath_segments : splitPath "/a/b/c.txt" = ["a"; "b"; "c.txt"].
Proof. reflexivity. Qed.

Example getParentPath_nested : getParentPath "/a/b/c.txt" = Some "/a/b".
Proof. reflexivity. Qed.

Example getBaseName_nested : getBaseName "/a/b/c.txt" = "c.txt".
Proof. reflexivity. Qed.

Example getRelativePath_under : getRelativePath "/sea/a/b" "/sea" = "/a/b".
Proof. reflexivity. Qed.

Example sampleUnmounted_tree :
  kRoot (heap sampleUnmounted 0)
  = VirtualDirectory "/"
      [ ("a.txt", VirtualFile "/a.txt" (FixedBytes "hi"));
        ("docs",
         VirtualDirectory "/docs"
           [ ("readme.md", VirtualFile "/docs/readme.md" (FixedBytes "read me"));
             ("lazy.bin",
              VirtualFile "/docs/lazy.bin" (AsyncProvider (Return "later"))) ]) ].
Proof. reflexivity. Qed.

Example sampleTwoMounts_registry :
  activeVFSList sampleTwoMounts = [0; 1; 2]
  /\ hooksInstalled sampleTwoMounts = true
  /\ mountPoint (heap sampleTwoMounts 1) = Some "/sea"
  /\ isOverlay (heap sampleTwoMounts 2) = true.
Proof. repeat split; reflexivity. Qed.

Example readFileSync_mounted :
  readFileSync (process := hostProcess) (heap sampleMounted 0)
               "/sea/docs/readme.md" (OptString "utf8")
  = Return (Decoded "read me" "utf8").
Proof. reflexivity. Qed.

Example remove_existing :
  snd (remove (process := hostProcess) (heap sampleUnmounted 0) "/docs/readme.md") = true
  /\ existsSync (process := hostProcess)
       (fst (remove (process := hostProcess) (heap sampleUnmounted 0) "/docs/readme.md"))
       "/docs/readme.md" = false
  /\ existsSync (process := hostProcess)
       (fst (remove (process := hostProcess) (heap sampleUnmounted 0) "/docs/readme.md"))
       "/docs/lazy.bin" = true.
Proof. repeat split; reflexivity. Qed.

Example remove_root_or_missing :
  snd (remove (process := hostProcess) (heap sampleUnmounted 0) "/") = false
  /\ snd (remove (process := hostProcess) (heap sampleUnmounted 0) "/nope") = false
  /\ snd (remove (process := hostProcess) (heap sampleUnmounted 0) "/a.txt/x") = false.
Proof. repeat split; reflexivity. Qed.

Example remove_mounted :
  snd (remove (process := hostProcess) (heap sampleMounted 0) "/a.txt") = false
  /\ snd (remove (process := hostProcess) (heap sampleMounted 0) "/sea/a.txt") = true.
Proof. repeat split; reflexivity. Qed.

Example vfsStat_falls_through :
  vfsStat (process := hostProcess) (fun _ => 7%Z) sampleTwoMounts "/usr/lib" = 7%Z
  /\ vfsStat (process := hostProcess) (fun _ => 7%Z) sampleTwoMounts "/sea/nope" = (-2)%Z
  /\ vfsStat (process := hostProcess) (fun _ => 7%Z) sampleTwoMounts "/etc" = 1%Z.
Proof. repeat split; reflexivity. Qed.

(** ** Strings *)

Lemma append_empty_r (s : string) : s +++ EmptyString = s.
Proof. induction s as [|c s IH]; simpl; [reflexivity | now rewrite IH]. Qed.

Lemma append_assoc (a b c : string) : (a +++ b) +++ c = a +++ (b +++ c).
Proof. induction a as [|x a IH]; simpl; [reflexivity | now rewrite IH]. Qed.

Lemma append_length (a b : string) :
  String.length (a +++ b) = String.length a + String.length b.
Proof. induction a as [|x a IH]; simpl; [reflexivity | now rewrite IH]. Qed.

Lemma startsWith_append (pre rest : string) :
  JSString.startsWith (pre +++ rest) pre = true.
Proof.
  induction pre as [|c pre IH]; simpl; [reflexivity|].
  now rewrite Ascii.eqb_refl, IH.
Qed.

Lemma startsWith_iff (s pre : string) :
  JSString.startsWith s pre = true <-> exists rest, s = pre +++ rest.
Proof.
  split.
  - revert s. induction pre as [|c pre IH]; intros s H.
    + exists s. reflexivity.
    + destruct s as [|d s]; simpl in H; [discriminate|].
      apply andb_true_iff in H as [Hc Hs].
      apply Ascii.eqb_eq in Hc. subst d.
      destruct (IH _ Hs) as [rest ->]. exists rest. reflexivity.
  - intros [rest ->]. apply startsWith_append.
Qed.

Lemma take_length (s : string) : JSString.take (String.length s) s = s.
Proof. induction s as [|c s IH]; simpl; [reflexivity | now rewrite IH]. Qed.

Lemma drop_append (a b : string) : JSString.drop (String.length a) (a +++ b) = b.
Proof. induction a as [|c a IH]; simpl; [reflexivity | exact IH]. Qed.

Lemma drop_length (n : nat) (s : string) :
  String.length (JSString.drop n s) = String.length s - n.
Proof.
  revert s. induction n as [|n IH]; intros s; simpl; [lia|].
  destruct s as [|c s]; simpl; [reflexivity | apply IH].
Qed.

(** [s.slice(n)] drops the first [n] characters. *)
Lemma slice_from (s : string) (n : nat) :
  n <= String.length s ->
  StringPrototypeSlice s (Z.of_nat n) None = JSString.drop n s.
Proof.
  intros Hn. unfold StringPrototypeSlice, JSString.slice, JSString.relativeIndex.
  destruct (Z.ltb_spec (Z.of_nat n) 0) as [H|_]; [lia|].
  rewrite Nat2Z.id, Nat.min_l by exact Hn.
  rewrite <- (drop_length n s). apply take_length.
Qed.

Lemma endsWith_noSlash (s : string) :
  noSlash s = true -> JSString.endsWith s "/" = false.
Proof.
  induction s as [|c s IH]; intros H; [reflexivity|].
  simpl in H. apply andb_true_iff in H as [Hc Hs].
  cbn [JSString.endsWith]. rewrite (IH Hs), orb_false_r.
  apply String.eqb_neq. intros E. inversion E; subst.
  now rewrite Ascii.eqb_refl in Hc.
Qed.

Lemma endsWith_cons (c : ascii) (s t : string) :
  s <> EmptyString -> String.length t = 1 ->
  JSString.endsWith (String c s) t = JSString.endsWith s t.
Proof.
  intros Hs Ht. cbn [JSString.endsWith].
  replace (String.eqb (String c s) t) with false; [reflexivity|].
  symmetry. apply String.eqb_neq. intros <-.
  destruct s; [congruence | discriminate].
Qed.

Lemma append_nonempty_r (a b : string) :
  b <> EmptyString -> a +++ b <> EmptyString.
Proof. destruct a; simpl; [auto | discriminate]. Qed.

Lemma endsWith_append (a b t : string) :
  b <> EmptyString -> String.length t = 1 ->
  JSString.endsWith (a +++ b) t = JSString.endsWith b t.
Proof.
  intros Hb Ht. induction a as [|c a IH]; simpl; [reflexivity|].
  change (JSString.endsWith (String c (a +++ b)) t = JSString.endsWith b t).
  rewrite endsWith_cons by (auto using append_nonempty_r). exact IH.
Qed.

(** ** Splitting and joining *)

Lemma split_noSlash (a : string) :
  noSlash a = true -> JSString.split a "/" = [a].
Proof.
  induction a as [|c a IH]; intros H; [reflexivity|].
  simpl in H. apply andb_true_iff in H as [Hc Ha].
  apply negb_true_iff in Hc. simpl. rewrite Hc, (IH Ha). reflexivity.
Qed.

Lemma split_append (a b : string) :
  noSlash a = true ->
  JSString.split (a +++ String "/" b) "/" = a :: JSString.split b "/".
Proof.
  induction a as [|c a IH]; intros H; [reflexivity|].
  simpl in H. apply andb_true_iff in H as [Hc Ha].
  apply negb_true_iff in Hc. simpl. rewrite Hc, (IH Ha). reflexivity.
Qed.

Lemma split_segments_noSlash (s : string) :
  Forall (fun seg => noSlash seg = true) (JSString.split s "/").
Proof.
  induction s as [|c s IH]; simpl.
  - constructor; [reflexivity | constructor].
  - destruct (Ascii.eqb c "/") eqn:Hc.
    + constructor; [reflexivity | exact IH].
    + destruct (JSString.split s "/") as [|seg segs].
      * constructor; [simpl; now rewrite Hc | constructor].
      * inversion IH; subst. constructor; [simpl; now rewrite Hc | assumption].
Qed.

Lemma split_nonempty (s : string) : JSString.split s "/" <> [].
Proof.
  destruct s as [|c s]; simpl; [discriminate|].
  destruct (Ascii.eqb c "/"); [discriminate|].
  destruct (JSString.split s "/"); discriminate.
Qed.

Lemma cleanSegment_noSlash (seg : string) :
  cleanSegment seg = true -> noSlash seg = true.
Proof. unfold cleanSegment. intros H. now apply andb_true_iff in H as [_ H]. Qed.

Lemma cleanSegment_nonempty (seg : string) :
  cleanSegment seg = true -> seg <> EmptyString.
Proof. intros H ->. discriminate. Qed.

Lemma Forall_clean_noSlash (xs : list string) :
  Forall (fun seg => cleanSegment seg = true) xs ->
  Forall (fun seg => noSlash seg = true) xs.
Proof. apply Forall_impl. exact cleanSegment_noSlash. Qed.

Lemma join_cons (x y : string) (rest : list string) (sep : string) :
  JSString.join (x :: y :: rest) sep = x +++ sep +++ JSString.join (y :: rest) sep.
Proof. reflexivity. Qed.

Lemma split_join_append (xs : list string) (t : string) :
  Forall (fun seg => noSlash seg = true) xs -> xs <> [] ->
  JSString.split (JSString.join xs "/" +++ String "/" t) "/"
  = xs ++ JSString.split t "/".
Proof.
  induction xs as [|x xs IH]; intros H Hne; [congruence|].
  inversion H as [|? ? Hx Hxs]; subst.
  destruct xs as [|y rest].
  - simpl JSString.join. now rewrite split_append.
  - rewrite join_cons, !append_assoc.
    change ("/" +++ JSString.join (y :: rest) "/" +++ String "/" t)
      with (String "/" (JSString.join (y :: rest) "/" +++ String "/" t)).
    rewrite split_append by exact Hx.
    rewrite IH by (auto; discriminate). reflexivity.
Qed.

Lemma split_join (xs : list string) :
  Forall (fun seg => noSlash seg = true) xs -> xs <> [] ->
  JSString.split (JSString.join xs "/") "/" = xs.
Proof.
  induction xs as [|x xs IH]; intros H Hne; [congruence|].
  inversion H as [|? ? Hx Hxs]; subst.
  destruct xs as [|y rest].
  - simpl. now apply split_noSlash.
  - rewrite join_cons.
    change ("/" +++ JSString.join (y :: rest) "/")
      with (String "/" (JSString.join (y :: rest) "/")).
    rewrite split_append by exact Hx.
    rewrite IH by (auto; discriminate). reflexivity.
Qed.

Lemma join_nonempty (xs : list string) :
  Forall (fun seg => cleanSegment seg = true) xs -> xs <> [] ->
  JSString.join xs "/" <> EmptyString.
Proof.
  intros H Hne. destruct xs as [|x xs]; [congruence|].
  inversion H as [|? ? Hx _]; subst.
  destruct xs as [|y rest]; [now apply cleanSegment_nonempty|].
  rewrite join_cons. destruct x; [discriminate Hx | discriminate].
Qed.

Lemma join_append (xs ys : list string) :
  xs <> [] -> ys <> [] ->
  JSString.join (xs ++ ys) "/"
  = JSString.join xs "/" +++ "/" +++ JSString.join ys "/".
Proof.
  induction xs as [|x xs IH]; intros Hx Hy; [congruence|].
  destruct xs as [|x' xs].
  - destruct ys; [congruence | reflexivity].
  - change ((x :: x' :: xs) ++ ys) with (x :: (x' :: xs) ++ ys).
    change (x :: (x' :: xs) ++ ys) with (x :: x' :: (xs ++ ys)).
    rewrite join_cons.
    change (x' :: xs ++ ys) with ((x' :: xs) ++ ys).
    rewrite IH by (auto; discriminate).
    rewrite join_cons, !append_assoc. reflexivity.
Qed.

Lemma endsWith_join (xs : list string) :
  Forall (fun seg => cleanSegment seg = true) xs -> xs <> [] ->
  JSString.endsWith (JSString.join xs "/") "/" = false.
Proof.
  induction xs as [|x xs IH]; intros H Hne; [congruence|].
  inversion H as [|? ? Hx Hxs]; subst.
  destruct xs as [|y rest].
  - simpl. apply endsWith_noSlash. now apply cleanSegment_noSlash.
  - rewrite join_cons.
    assert (Hj : JSString.join (y :: rest) "/" <> EmptyString)
      by (apply join_nonempty; [assumption | discriminate]).
    rewrite endsWith_append;
      [| now apply append_nonempty_r | reflexivity].
    rewrite endsWith_append by (auto). apply IH; [assumption | discriminate].
Qed.

(** ** [path.resolve] yields clean segments *)

Lemma normalizeSegment_clean (kept : list string) (seg : string) :
  Forall (fun s => cleanSegment s = true) kept ->
  noSlash seg = true ->
  Forall (fun s => cleanSegment s = true) (path.normalizeSegment false kept seg).
Proof.
  intros Hk Hs. unfold path.normalizeSegment.
  destruct (String.eqb seg EmptyString) eqn:E1; [exact Hk|].
  destruct (String.eqb seg ".") eqn:E2; [exact Hk|].
  destruct (String.eqb seg "..") eqn:E3.
  - destruct kept as [|top below]; [constructor|].
    destruct (String.eqb top ".."); [exact Hk|].
    now inversion Hk.
  - constructor; [|exact Hk].
    unfold cleanSegment. now rewrite E1, E2, E3, Hs.
Qed.

Lemma normalizeSegments_clean (segs kept : list string) :
  Forall (fun s => cleanSegment s = true) kept ->
  Forall (fun s => noSlash s = true) segs ->
  Forall (fun s => cleanSegment s = true)
         (fold_left (path.normalizeSegment false) segs kept).
Proof.
  revert kept. induction segs as [|seg segs IH]; intros kept Hk Hs; [exact Hk|].
  inversion Hs; subst. simpl. apply IH; [|assumption].
  now apply normalizeSegment_clean.
Qed.

Lemma normalizeSegment_keeps (kept : list string) (seg : string) :
  cleanSegment seg = true ->
  path.normalizeSegment false kept seg = seg :: kept.
Proof.
  unfold cleanSegment, path.normalizeSegment. intros H.
  apply andb_true_iff in H as [H _].
  apply andb_true_iff in H as [H H3].
  apply andb_true_iff in H as [H1 H2].
  apply negb_true_iff in H1, H2, H3. now rewrite H1, H2, H3.
Qed.

Lemma normalizeSegments_keeps (segs kept : list string) :
  Forall (fun s => cleanSegment s = true) segs ->
  fold_left (path.normalizeSegment false) segs kept = rev segs ++ kept.
Proof.
  revert kept. induction segs as [|seg segs IH]; intros kept H; [reflexivity|].
  inversion H; subst. simpl.
  rewrite normalizeSegment_keeps by assumption.
  rewrite IH by assumption. now rewrite <- app_assoc.
Qed.

Lemma normalizeString_clean (p : string) :
  exists segments,
    Forall (fun s => cleanSegment s = true) segments
    /\ path.normalizeString p false = JSString.join segments "/".
Proof.
  unfold path.normalizeString.
  eexists. split; [|reflexivity].
  apply Forall_rev. apply normalizeSegments_clean; [constructor|].
  apply split_segments_noSlash.
Qed.

(** Normalizing the path of clean segments, with a separator after it, gives
    the segments back. *)
Lemma normalizeString_pathOf (segments : list string) :
  Forall (fun s => cleanSegment s = true) segments ->
  path.normalizeString (pathOf segments +++ "/" +++ EmptyString) false
  = JSString.join segments "/".
Proof.
  intros H. unfold path.normalizeString, pathOf.
  change ("/" +++ EmptyString) with "/".
  destruct segments as [|x xs]; [reflexivity|].
  change (("/" +++ JSString.join (x :: xs) "/") +++ "/")
    with (String "/" (JSString.join (x :: xs) "/" +++ String "/" EmptyString)).
  cbn [JSString.split]. rewrite Ascii.eqb_refl.
  rewrite split_join_append
    by (auto using Forall_clean_noSlash; discriminate).
  change (JSString.split EmptyString "/") with [EmptyString].
  change (fold_left (path.normalizeSegment false)
            (EmptyString :: (x :: xs) ++ [EmptyString]) [])
    with (fold_left (path.normalizeSegment false)
            ((x :: xs) ++ [EmptyString]) []).
  rewrite fold_left_app, (normalizeSegments_keeps (x :: xs) []) by exact H.
  change (fold_left (path.normalizeSegment false) [EmptyString]
            (rev (x :: xs) ++ []))
    with (rev (x :: xs) ++ []).
  now rewrite app_nil_r, rev_involutive.
Qed.

Lemma isAbsolute_nonempty (p : string) :
  path.isAbsolute p = true -> (String.length p =? 0)%nat = false.
Proof. destruct p; [discriminate | reflexivity]. Qed.

(** The trailing-slash step of [normalizePath] leaves a path of clean
    segments alone. *)
Lemma trailing_slash_pathOf (segments : list string) :
  Forall (fun s => cleanSegment s = true) segments ->
  (1 <? String.length (pathOf segments))%nat
  && StringPrototypeEndsWith (pathOf segments) "/" = false.
Proof.
  intros H. destruct segments as [|x xs]; [reflexivity|].
  apply andb_false_iff. right.
  unfold StringPrototypeEndsWith, pathOf.
  rewrite endsWith_append; [| | reflexivity].
  - apply endsWith_join; [exact H | discriminate].
  - apply join_nonempty; [exact H | discriminate].
Qed.

(** The path of clean segments is its own normal form (whatever the working
    directory, as the path is absolute). *)
Lemma normalizePath_pathOf {process : Process} (segments : list string) :
  Forall (fun s => cleanSegment s = true) segments ->
  normalizePath (pathOf segments) = pathOf segments.
Proof.
  intros H. unfold normalizePath.
  assert (E : path.resolve [pathOf segments] = pathOf segments).
  { unfold path.resolve. cbn [rev app path.resolveLoop].
    change (String.length (pathOf segments) =? 0)%nat with false.
    change (path.isAbsolute (pathOf segments)) with true.
    cbv iota. cbn [negb].
    now rewrite normalizeString_pathOf. }
  rewrite E.
  change (String.eqb path.sep (String backslash EmptyString)) with false.
  cbv iota. now rewrite trailing_slash_pathOf.
Qed.

Section RouterFacts.

Context {process : Process}.
Hypothesis cwd_absolute : path.isAbsolute cwd = true.

Lemma resolve_clean (p : string) :
  exists segments,
    Forall (fun s => cleanSegment s = true) segments
    /\ path.resolve [p] = pathOf segments.
Proof.
  unfold path.resolve. cbn [rev app path.resolveLoop].
  pose proof (isAbsolute_nonempty _ cwd_absolute) as Hc.
  destruct (String.length p =? 0)%nat.
  - rewrite Hc, cwd_absolute.
    destruct (normalizeString_clean (cwd +++ "/" +++ EmptyString))
      as (segs & Hs & E).
    exists segs. split; [exact Hs|]. cbn [negb]. now rewrite E.
  - destruct (path.isAbsolute p).
    + destruct (normalizeString_clean (p +++ "/" +++ EmptyString))
        as (segs & Hs & E).
      exists segs. split; [exact Hs|]. cbn [negb]. now rewrite E.
    + rewrite Hc, cwd_absolute.
      destruct (normalizeString_clean
                  (cwd +++ "/" +++ p +++ "/" +++ EmptyString))
        as (segs & Hs & E).
      exists segs. split; [exact Hs|]. cbn [negb]. now rewrite E.
Qed.

(** A normalized path is the path of some clean segments. *)
Lemma normalizePath_clean (p : string) :
  exists segments,
    Forall (fun s => cleanSegment s = true) segments
    /\ normalizePath p = pathOf segments.
Proof.
  destruct (resolve_clean p) as (segs & Hs & E).
  exists segs. split; [exact Hs|].
  unfold normalizePath. rewrite E.
  change (String.eqb path.sep (String backslash EmptyString)) with false.
  cbv iota. now rewrite trailing_slash_pathOf.
Qed.

(** Normalizing what [normalizePath] returned changes nothing. *)
Lemma normalizePath_normalized (p : string) :
  normalizePath (normalizePath p) = normalizePath p.
Proof.
  destruct (normalizePath_clean p) as (segs & Hs & ->).
  now apply normalizePath_pathOf.
Qed.

End RouterFacts.

(** The boundary check of [isUnderMountPoint]. *)
Lemma isUnderMountPoint_iff (p m : string) :
  isUnderMountPoint p m = true
  <-> p = m \/ exists rest, p = m +++ "/" +++ rest.
Proof.
  unfold isUnderMountPoint, StringPrototypeStartsWith.
  destruct (String.eqb_spec p m) as [->|Hne].
  - split; [now left | reflexivity].
  - rewrite startsWith_iff. split.
    + intros [rest ->]. right. exists rest. now rewrite append_assoc.
    + intros [E | [rest ->]]; [contradiction|].
      exists rest. now rewrite append_assoc.
Qed.

(** C7: for every path [p] and mount prefix [m], [isUnderMountPoint p m]
    holds iff [p] equals [m] or [p] starts with [m] followed by a separator;
    in particular the mount prefix [/sea] does not match [/seaside]. *)
Theorem isUnderMountPoint_boundary :
  (forall p m : string,
      isUnderMountPoint p m = true
      <-> p = m \/ exists rest, p = m +++ "/" +++ rest)
  /\ isUnderMountPoint "/seaside" "/sea" = false.
Proof. split; [exact isUnderMountPoint_iff | reflexivity]. Qed.

(** C8: [normalizePath] is idempotent: normalizing a normalized path returns
    it unchanged (on a host whose working directory is an absolute path, as
    [process.cwd()] is). *)
Theorem normalizePath_idempotent {process : Process} (p : string) :
  path.isAbsolute cwd = true ->
  normalizePath (normalizePath p) = normalizePath p.
Proof.
  intros Habs. now apply normalizePath_normalized.
Qed.

Lemma normalizePath_idempotent_witness :
  normalizePath (process := hostProcess)
                (normalizePath (process := hostProcess) "a/../b//c/")
  = normalizePath (process := hostProcess) "a/../b//c/".
Proof.
  apply (normalizePath_idempotent (process := hostProcess) "a/../b//c/").
  reflexivity.
Defined.

(** ** The entry tree *)

Lemma SafeMap_get_set_same {A : Type} (m : list (string * A)) (k : string) (a : A) :
  SafeMap.get (SafeMap.set m k a) k = Some a.
Proof.
  induction m as [|[k' a'] m IH]; simpl.
  - now rewrite String.eqb_refl.
  - destruct (String.eqb k' k) eqn:E; simpl.
    + now rewrite String.eqb_refl.
    + now rewrite E.
Qed.

(** Storing back what a name already maps to changes nothing. *)
Lemma SafeMap_set_same {A : Type} (m : list (string * A)) (k : string) (a : A) :
  SafeMap.get m k = Some a -> SafeMap.set m k a = m.
Proof.
  induction m as [|[k' a'] m IH]; simpl; [discriminate|].
  destruct (String.eqb_spec k' k) as [->|Hne].
  - now intros [= ->].
  - intros H. now rewrite IH.
Qed.

Lemma isDirectory_addEntry (dir : VirtualEntry) (name : string) (entry : VirtualEntry) :
  isDirectory (addEntry dir name entry) = isDirectory dir.
Proof. now destruct dir. Qed.

Lemma getEntry_addEntry (dir : VirtualEntry) (name : string) (entry : VirtualEntry) :
  isDirectory dir = true -> getEntry (addEntry dir name entry) name = Some entry.
Proof.
  destruct dir; [discriminate|]. intros _. simpl. apply SafeMap_get_set_same.
Qed.

Lemma addEntry_same (dir : VirtualEntry) (name : string) (entry : VirtualEntry) :
  getEntry dir name = Some entry -> addEntry dir name entry = dir.
Proof.
  destruct dir; [discriminate|]. simpl. intros H.
  now rewrite SafeMap_set_same.
Qed.

(** One round of the loop of [addFile], with a segment still to come. *)
Lemma addFileLoop_step (current : VirtualEntry) (done : list string)
      (segment : string) (rest : list string) (file : VirtualEntry) :
  rest <> [] ->
  addFileLoop current done (segment :: rest) file
  = if negb (isDirectory current)
    then (current, Throw (TypeError "current.getEntry is not a function"))
    else
      match getEntry current segment with
      | None =>
          let entry :=
            VirtualDirectory ("/" +++ JSString.join (done ++ [segment]) "/") [] in
          (addEntry (addEntry current segment entry) segment
                    (fst (addFileLoop entry (done ++ [segment]) rest file)),
           snd (addFileLoop entry (done ++ [segment]) rest file))
      | Some entry =>
          if negb (isDirectory entry) then
            (current,
             Throw (Error ("Cannot create file: "
                           +++ JSString.join (done ++ [segment]) "/"
                           +++ " is not a directory")))
          else
            (addEntry current segment
                      (fst (addFileLoop entry (done ++ [segment]) rest file)),
             snd (addFileLoop entry (done ++ [segment]) rest file))
      end.
Proof.
  intros Hne. destruct rest as [|segment' rest']; [congruence|].
  set (rest := segment' :: rest').
  change (addFileLoop current done (segment :: rest) file)
    with (if negb (isDirectory current)
          then (current, Throw (TypeError "current.getEntry is not a function"))
          else
            match getEntry current segment with
            | None =>
                let dirPath := "/" +++ JSString.join (done ++ [segment]) "/" in
                let entry := VirtualDirectory dirPath [] in
                let current := addEntry current segment entry in
                let '(entry', r) :=
                  addFileLoop entry (done ++ [segment]) rest file in
                (addEntry current segment entry', r)
            | Some entry =>
                if negb (isDirectory entry) then
                  (current,
                   Throw (Error ("Cannot create file: "
                                 +++ JSString.join (done ++ [segment]) "/"
                                 +++ " is not a directory")))
                else
                  let '(entry', r) :=
                    addFileLoop entry (done ++ [segment]) rest file in
                  (addEntry current segment entry', r)
            end).
  destruct (negb (isDirectory current)); [reflexivity|].
  destruct (getEntry current segment) as [entry|].
  - destruct (negb (isDirectory entry)); [reflexivity|].
    now destruct (addFileLoop entry (done ++ [segment]) rest file).
  - cbv zeta. now destruct (addFileLoop _ (done ++ [segment]) rest file).
Qed.

Lemma addFileLoop_last (current : VirtualEntry) (done : list string)
      (segment : string) (file : VirtualEntry) :
  addFileLoop current done [segment] file
  = if isDirectory current
    then (addEntry current segment file, Return tt)
    else (current, Throw (TypeError "current.addEntry is not a function")).
Proof. reflexivity. Qed.

(** In a directory without entries the loop of [addFile] cannot throw. *)
Lemma addFileLoop_fresh (segments done : list string) (p : string) (file : VirtualEntry) :
  snd (addFileLoop (VirtualDirectory p []) done segments file) = Return tt.
Proof.
  revert done p. induction segments as [|segment rest IH]; intros done p.
  - reflexivity.
  - destruct rest as [|segment' rest']; [reflexivity|].
    rewrite addFileLoop_step by discriminate.
    cbn [isDirectory negb getEntry SafeMap.get snd]. apply IH.
Qed.

(** The loop of [addFile] leaves the tree as it was when it throws. *)
Lemma addFileLoop_throw (segments done : list string)
      (current file : VirtualEntry) (e : JsError) :
  snd (addFileLoop current done segments file) = Throw e ->
  fst (addFileLoop current done segments file) = current.
Proof.
  revert done current.
  induction segments as [|segment rest IH]; intros done current H.
  - reflexivity.
  - destruct rest as [|segment' rest'].
    + rewrite addFileLoop_last in *.
      destruct (isDirectory current); [discriminate H | reflexivity].
    + rewrite addFileLoop_step in * by discriminate.
      destruct (isDirectory current) eqn:Hd; cbn [negb] in *; [|reflexivity].
      destruct (getEntry current segment) as [entry|] eqn:Hg.
      * destruct (isDirectory entry) eqn:He; cbn [negb] in *; [|reflexivity].
        cbn [fst snd] in *. rewrite (IH _ _ H). now apply addEntry_same.
      * cbn [fst snd] in *. rewrite addFileLoop_fresh in H. discriminate H.
Qed.

(** After the loop of [addFile] has returned, walking the same segments
    finds the file. *)
Lemma addFileLoop_found (segments done : list string)
      (current file : VirtualEntry) :
  segments <> [] ->
  snd (addFileLoop current done segments file) = Return tt ->
  resolveSegments (fst (addFileLoop current done segments file)) segments
  = Some file.
Proof.
  revert done current.
  induction segments as [|segment rest IH]; intros done current Hne H;
    [congruence|].
  destruct rest as [|segment' rest'].
  - rewrite addFileLoop_last in *.
    destruct (isDirectory current) eqn:Hd; [|discriminate H].
    cbn [fst resolveSegments].
    now rewrite isDirectory_addEntry, Hd, getEntry_addEntry.
  - rewrite addFileLoop_step in * by discriminate.
    destruct (isDirectory current) eqn:Hd; cbn [negb] in *; [|discriminate H].
    destruct (getEntry current segment) as [entry|] eqn:Hg.
    + destruct (isDirectory entry) eqn:He; cbn [negb] in *; [|discriminate H].
      cbn [fst snd] in *.
      remember (segment' :: rest') as rest eqn:Hrest.
      cbn [resolveSegments].
      rewrite isDirectory_addEntry, Hd, getEntry_addEntry by exact Hd.
      cbn [negb]. apply IH; [subst; discriminate | exact H].
    + cbn [fst snd] in *.
      remember (segment' :: rest') as rest eqn:Hrest.
      cbn [resolveSegments].
      rewrite !isDirectory_addEntry, Hd, getEntry_addEntry
        by now rewrite isDirectory_addEntry.
      cbn [negb]. apply IH; [subst; discriminate | exact H].
Qed.

Lemma SafeMap_get_set_other {A : Type} (m : list (string * A))
      (k k' : string) (a : A) :
  k <> k' -> SafeMap.get (SafeMap.set m k a) k' = SafeMap.get m k'.
Proof.
  intros Hne. induction m as [|[k0 a0] m IH]; simpl.
  - destruct (String.eqb_spec k k'); [contradiction | reflexivity].
  - destruct (String.eqb_spec k0 k) as [->|H0]; simpl.
    + destruct (String.eqb_spec k k'); [contradiction | reflexivity].
    + now rewrite IH.
Qed.

Lemma SafeMap_get_delete_other {A : Type} (m : list (string * A))
      (k k' : string) :
  k <> k' -> SafeMap.get (fst (SafeMap.delete m k)) k' = SafeMap.get m k'.
Proof.
  intros Hne. induction m as [|[k0 a0] m IH]; simpl; [reflexivity|].
  destruct (String.eqb_spec k0 k) as [->|H0].
  - simpl. destruct (String.eqb_spec k k'); [contradiction | reflexivity].
  - destruct (SafeMap.delete m k) as [m' found]. simpl in *. now rewrite IH.
Qed.

Lemma getEntry_addEntry_other (dir : VirtualEntry) (name name' : string)
      (entry : VirtualEntry) :
  name <> name' -> getEntry (addEntry dir name entry) name' = getEntry dir name'.
Proof.
  intros Hne. destruct dir; [reflexivity|]. simpl.
  now apply SafeMap_get_set_other.
Qed.

Lemma getEntry_removeEntry_other (dir : VirtualEntry) (name name' : string) :
  name <> name' -> getEntry (fst (removeEntry dir name)) name' = getEntry dir name'.
Proof.
  intros Hne. destruct dir as [|p entries]; [reflexivity|]. simpl.
  pose proof (SafeMap_get_delete_other entries name name' Hne) as H.
  destruct (SafeMap.delete entries name) as [entries' found]. exact H.
Qed.

Lemma isDirectory_removeEntry (dir : VirtualEntry) (name : string) :
  isDirectory (fst (removeEntry dir name)) = isDirectory dir.
Proof.
  destruct dir as [|p entries]; [reflexivity|]. simpl.
  now destruct (SafeMap.delete entries name).
Qed.

(** A walk that starts with a name other than the one written to does not
    see the write. *)
Lemma resolveSegments_addEntry_other (dir : VirtualEntry) (name s : string)
      (entry : VirtualEntry) (rest : list string) :
  name <> s ->
  resolveSegments (addEntry dir name entry) (s :: rest)
  = resolveSegments dir (s :: rest).
Proof.
  intros Hne. cbn [resolveSegments].
  now rewrite isDirectory_addEntry, getEntry_addEntry_other.
Qed.

(** The loop of [addFile] for a path that is neither the path of a file nor
    above it leaves the file where it is. *)
Lemma addFileLoop_frame (place done : list string) (current file : VirtualEntry)
      (segments : list string) (fp : string) (fc : ContentSource) :
  isPrefixOf place segments = false ->
  resolveSegments current segments = Some (VirtualFile fp fc) ->
  resolveSegments (fst (addFileLoop current done place file)) segments
  = Some (VirtualFile fp fc).
Proof.
  revert done current segments.
  induction place as [|name rest IH]; intros done current segments Hpre Hfound;
    [discriminate Hpre|].
  destruct (isDirectory current) eqn:Hd.
  2:{ destruct rest.
      - rewrite addFileLoop_last, Hd. exact Hfound.
      - rewrite addFileLoop_step, Hd by discriminate. exact Hfound. }
  destruct segments as [|s segments'].
  { cbn [resolveSegments] in Hfound. injection Hfound as ->. discriminate Hd. }
  cbn [isPrefixOf] in Hpre.
  destruct (String.eqb_spec name s) as [<-|Hne].
  - (* the walk goes through the same name *)
    cbn [andb] in Hpre.
    destruct rest as [|name' rest']; [discriminate Hpre|].
    rewrite addFileLoop_step, Hd by discriminate. cbn [negb].
    cbn [resolveSegments] in Hfound. rewrite Hd in Hfound. cbn [negb] in Hfound.
    destruct (getEntry current name) as [entry|] eqn:Hg; [|discriminate Hfound].
    destruct (isDirectory entry) eqn:He; cbn [negb fst].
    + cbn [resolveSegments].
      rewrite isDirectory_addEntry, Hd, getEntry_addEntry by exact Hd.
      cbn [negb]. now apply IH.
    + cbn [resolveSegments]. now rewrite Hd, Hg.
  - (* the walk leaves the way of the call here *)
    destruct rest as [|name' rest'].
    + rewrite addFileLoop_last, Hd. cbn [fst].
      now rewrite resolveSegments_addEntry_other.
    + rewrite addFileLoop_step, Hd by discriminate. cbn [negb].
      destruct (getEntry current name) as [entry|] eqn:Hg.
      * destruct (isDirectory entry); cbn [negb fst]; [|exact Hfound].
        now rewrite resolveSegments_addEntry_other.
      * cbn [fst]. now rewrite !resolveSegments_addEntry_other.
Qed.

(** Deleting a name in the directory at [place] leaves alone a file that is
    not at that name or below it. *)
Lemma storeAt_frame (place : list string) (root parent : VirtualEntry)
      (name : string) (segments : list string) (fp : string) (fc : ContentSource) :
  resolveSegments root place = Some parent ->
  isDirectory parent = true ->
  isPrefixOf (place ++ [name]) segments = false ->
  resolveSegments root segments = Some (VirtualFile fp fc) ->
  resolveSegments (storeAt root place (fst (removeEntry parent name))) segments
  = Some (VirtualFile fp fc).
Proof.
  revert root segments.
  induction place as [|l place IH]; intros root segments Hparent Hd Hpre Hfound.
  - cbn [resolveSegments] in Hparent. injection Hparent as ->.
    cbn [storeAt app] in *.
    destruct segments as [|s segments'].
    { cbn [resolveSegments] in Hfound. injection Hfound as ->. discriminate Hd. }
    cbn [isPrefixOf] in Hpre. rewrite andb_true_r in Hpre.
    apply String.eqb_neq in Hpre.
    cbn [resolveSegments] in *.
    now rewrite isDirectory_removeEntry, getEntry_removeEntry_other.
  - cbn [resolveSegments] in Hparent.
    destruct (isDirectory root) eqn:Hr; cbn [negb] in Hparent;
      [|discriminate Hparent].
    destruct (getEntry root l) as [child|] eqn:Hg; [|discriminate Hparent].
    cbn [storeAt]. rewrite Hg.
    destruct segments as [|s segments'].
    { cbn [resolveSegments] in Hfound. injection Hfound as ->. discriminate Hr. }
    cbn [app isPrefixOf] in Hpre.
    destruct (String.eqb_spec l s) as [<-|Hne].
    + cbn [andb] in Hpre.
      cbn [resolveSegments] in Hfound. rewrite Hr, Hg in Hfound.
      cbn [negb] in Hfound.
      cbn [resolveSegments].
      rewrite isDirectory_addEntry, Hr, getEntry_addEntry by exact Hr.
      cbn [negb]. now apply IH.
    + now rewrite resolveSegments_addEntry_other.
Qed.

(** ** Path resolution inside an instance *)

Section ResolveFacts.

Context {process : Process}.

Lemma _resolveEntry_unmounted (this : VirtualFileSystem) (p : string) :
  kMounted this = false ->
  _resolveEntry this p = treeLookup (kRoot this) (normalizePath p).
Proof.
  intros Hm. unfold _resolveEntry, vfsPathOf, treeLookup. rewrite Hm.
  now destruct (kMountPoint this).
Qed.

Lemma _resolveEntry_mounted (this : VirtualFileSystem) (p m : string) :
  kMounted this = true -> kMountPoint this = Some m ->
  JSString.truthy m = true ->
  _resolveEntry this p
  = if isUnderMountPoint (normalizePath p) m
    then treeLookup (kRoot this) (getRelativePath (normalizePath p) m)
    else None.
Proof.
  intros Hm Hp Ht. unfold _resolveEntry, vfsPathOf, treeLookup. rewrite Hm, Hp, Ht.
  cbn [andb]. now destruct (isUnderMountPoint (normalizePath p) m).
Qed.

Hypothesis cwd_absolute : path.isAbsolute cwd = true.

(** [_resolveEntry] normalizes its argument, so it does not matter whether
    the caller has. *)
Lemma _resolveEntry_normalized (this : VirtualFileSystem) (p : string) :
  _resolveEntry this (normalizePath p) = _resolveEntry this p.
Proof.
  unfold _resolveEntry. now rewrite normalizePath_normalized.
Qed.

Lemma normalizePath_truthy (p : string) : JSString.truthy (normalizePath p) = true.
Proof.
  destruct (normalizePath_clean cwd_absolute p) as (segs & _ & ->).
  reflexivity.
Qed.

End ResolveFacts.

Lemma modeInvariant_overlay (this : VirtualFileSystem) :
  modeInvariant this = true -> kOverlay this = true -> kMounted this = false.
Proof.
  unfold modeInvariant. intros H Ho. rewrite Ho in H.
  now destruct (kMounted this).
Qed.

Lemma modeInvariant_mounted (this : VirtualFileSystem) :
  modeInvariant this = true -> kMounted this = true ->
  kOverlay this = false
  /\ exists m, kMountPoint this = Some m /\ JSString.truthy m = true.
Proof.
  unfold modeInvariant. intros H Hm. rewrite Hm in H.
  destruct (kOverlay this); [discriminate|]. split; [reflexivity|].
  destruct (kMountPoint this) as [m|]; [|discriminate].
  exists m. split; [reflexivity | exact H].
Qed.

(** C2: [shouldHandle] by mode.  It is false when the instance is neither
    mounted nor in overlay mode; in overlay mode it holds iff the path
    resolves to an entry of the tree; in mounted mode it holds iff the path
    lies under the mount point, whether or not an entry is there. *)
Theorem shouldHandle_by_mode {process : Process}
        (this : VirtualFileSystem) (p : string) :
  path.isAbsolute cwd = true ->
  modeInvariant this = true ->
  (isMounted this = false -> isOverlay this = false ->
   shouldHandle this p = false)
  /\ (isOverlay this = true ->
      (shouldHandle this p = true
       <-> treeLookup (kRoot this) (normalizePath p) <> None))
  /\ (isMounted this = true ->
      exists m, mountPoint this = Some m
                /\ (shouldHandle this p = true
                    <-> isUnderMountPoint (normalizePath p) m = true)).
Proof.
  intros Habs Hinv. unfold isMounted, isOverlay, mountPoint.
  split; [|split].
  - intros Hm Ho. unfold shouldHandle. now rewrite Hm, Ho.
  - intros Ho. pose proof (modeInvariant_overlay _ Hinv Ho) as Hm.
    unfold shouldHandle. rewrite Hm, Ho. cbn [negb andb].
    rewrite (_resolveEntry_normalized Habs), (_resolveEntry_unmounted _ _ Hm).
    destruct (treeLookup (kRoot this) (normalizePath p)); split;
      congruence.
  - intros Hm. destruct (modeInvariant_mounted _ Hinv Hm) as (Ho & m & Hp & Ht).
    exists m. split; [exact Hp|].
    unfold shouldHandle. rewrite Hm, Ho, Hp, Ht. cbn [negb andb]. reflexivity.
Qed.

Lemma shouldHandle_by_mode_witness :
  (shouldHandle (process := hostProcess) (heap sampleOverlay 0) "/docs/../a.txt" = true
   <-> treeLookup (kRoot (heap sampleOverlay 0))
                  (normalizePath (process := hostProcess) "/docs/../a.txt") <> None).
Proof.
  apply (shouldHandle_by_mode (process := hostProcess)
           (heap sampleOverlay 0) "/docs/../a.txt" eq_refl eq_refl).
  reflexivity.
Defined.

(** C3, as the claim states it, fails: with one and the same tree, [has]
    finds [/a.txt] while the instance is unmounted and does not find it once
    the instance is mounted at [/sea]. *)
Lemma has_independent_of_mount_counterexample :
  kRoot (heap sampleMounted 0) = kRoot (heap sampleUnmounted 0)
  /\ has (process := hostProcess) (heap sampleUnmounted 0) "/a.txt" = true
  /\ has (process := hostProcess) (heap sampleMounted 0) "/a.txt" = false.
Proof. repeat split; reflexivity. Qed.

(** C3, amended: [has] resolves its path as [existsSync] does, through
    [_resolveEntry].  While the instance is not mounted (unmounted or
    overlay) the path is looked up in the tree as it is, so the answer
    depends on the tree alone; while it is mounted at [m], the path has to
    lie under [m] and what follows [m] is looked up. *)
Theorem has_by_mount_state {process : Process}
        (this : VirtualFileSystem) (p : string) :
  path.isAbsolute cwd = true ->
  has this p = existsSync this p
  /\ (isMounted this = false ->
      has this p = isSome (treeLookup (kRoot this) (normalizePath p)))
  /\ (forall m, isMounted this = true -> mountPoint this = Some m ->
                m <> EmptyString ->
                has this p
                = isUnderMountPoint (normalizePath p) m
                  && isSome (treeLookup (kRoot this)
                                        (getRelativePath (normalizePath p) m))).
Proof.
  intros Habs. unfold has, existsSync, isMounted, mountPoint.
  rewrite (_resolveEntry_normalized Habs).
  split; [reflexivity | split].
  - intros Hm. now rewrite (_resolveEntry_unmounted _ _ Hm).
  - intros m Hm Hp Hne.
    rewrite (_resolveEntry_mounted _ _ m Hm Hp).
    + now destruct (isUnderMountPoint (normalizePath p) m).
    + unfold JSString.truthy. apply negb_true_iff. now apply String.eqb_neq.
Qed.

Lemma has_by_mount_state_witness :
  has (process := hostProcess) (heap sampleMounted 0) "/sea/docs/readme.md"
  = existsSync (process := hostProcess) (heap sampleMounted 0) "/sea/docs/readme.md".
Proof.
  apply (has_by_mount_state (process := hostProcess)
           (heap sampleMounted 0) "/sea/docs/readme.md" eq_refl).
Defined.

(** C4, as the claim states it, fails: for a file served by an asynchronous
    provider [readFileSync] throws, while both asynchronous reads deliver
    the provider's content. *)
Lemma readFile_same_as_sync_counterexample :
  readFileSync (process := hostProcess) (heap sampleUnmounted 0)
               "/docs/lazy.bin" OptUndefined
  = Throw (ERR_INVALID_STATE "cannot use sync API with async content provider")
  /\ readFile (process := hostProcess) (heap sampleUnmounted 0)
              "/docs/lazy.bin" OptUndefined
     = Return (Raw "later")
  /\ promises_readFile (process := hostProcess) (heap sampleUnmounted 0)
                       "/docs/lazy.bin" OptUndefined
     = Return (Raw "later").
Proof. repeat split; reflexivity. Qed.

Lemma handleEncoding_callback (options : ReadOptions) (content : Buffer) :
  handleEncoding match options with
                 | OptFunction => OptUndefined
                 | _ => options
                 end content
  = handleEncoding options content.
Proof. now destruct options. Qed.

(** C4, amended: the callback and the promise form of [readFile] always
    agree with each other; they agree with [readFileSync], in the value and
    in the error, whenever the path does not resolve to a file served by an
    asynchronous provider.  For such a file [readFileSync] throws and the
    asynchronous forms deliver what the provider settles with. *)
Theorem readFile_agrees_with_sync {process : Process}
        (this : VirtualFileSystem) (p : string) (options : ReadOptions) :
  readFile this p options = promises_readFile this p options
  /\ (match _resolveEntry this p with
      | Some entry => asyncOnly entry
      | None => false
      end = false ->
      readFile this p options = readFileSync this p options
      /\ promises_readFile this p options = readFileSync this p options)
  /\ (forall entryPath result,
         _resolveEntry this p = Some (VirtualFile entryPath (AsyncProvider result)) ->
         readFileSync this p options
         = Throw (ERR_INVALID_STATE "cannot use sync API with async content provider")
         /\ readFile this p options
            = match result with
              | Return content => Return (handleEncoding options content)
              | Throw e => Throw e
              end).
Proof.
  unfold readFile, promises_readFile, readFileSync.
  destruct (_resolveEntry this p) as [entry|].
  - destruct entry as [entryPath content | entryPath entries].
    + cbn [isDirectory getContent getContentSync asyncOnly].
      split; [|split].
      * destruct content as [b | [b|e] | [b|e]];
          now rewrite ?handleEncoding_callback.
      * intros Hs.
        destruct content as [b | [b|e] | r]; try discriminate Hs;
          now rewrite ?handleEncoding_callback.
      * intros entryPath' result [= -> ->].
        split; [reflexivity|].
        destruct result; now rewrite ?handleEncoding_callback.
    + cbn [isDirectory].
      split; [reflexivity | split; [intros _; split; reflexivity |]].
      intros ? ? [=].
  - split; [reflexivity | split; [intros _; split; reflexivity |]].
    intros ? ? [=].
Qed.

Lemma readFile_agrees_with_sync_witness :
  readFile (process := hostProcess) (heap sampleUnmounted 0) "/a.txt" (OptString "utf8")
  = readFileSync (process := hostProcess) (heap sampleUnmounted 0) "/a.txt" (OptString "utf8")
  /\ promises_readFile (process := hostProcess) (heap sampleUnmounted 0) "/a.txt" (OptString "utf8")
     = readFileSync (process := hostProcess) (heap sampleUnmounted 0) "/a.txt" (OptString "utf8").
Proof.
  apply (readFile_agrees_with_sync (process := hostProcess)
           (heap sampleUnmounted 0) "/a.txt" (OptString "utf8")).
  reflexivity.
Defined.

(** ** [addFile] *)

Section AddFileFacts.

Context {process : Process}.

(** What a successful [addFile] leaves in the tree. *)
Lemma addFile_lookup (this this' : VirtualFileSystem) (p : string)
      (c : ContentSource) :
  addFile this p c = (this', Return tt) ->
  normalizePath p <> "/"
  /\ treeLookup (kRoot this') (normalizePath p)
     = Some (VirtualFile (normalizePath p) c).
Proof.
  unfold addFile, treeLookup.
  destruct (List.length (splitPath (normalizePath p)) =? 0)%nat eqn:Hlen;
    [discriminate|].
  assert (Hne : splitPath (normalizePath p) <> []).
  { intros E. rewrite E in Hlen. discriminate. }
  assert (Hroot : String.eqb (normalizePath p) "/" = false).
  { destruct (String.eqb (normalizePath p) "/") eqn:E; [|reflexivity].
    unfold splitPath in Hne. rewrite E in Hne. congruence. }
  pose proof (addFileLoop_found (splitPath (normalizePath p)) []
                (kRoot this) (VirtualFile (normalizePath p) c) Hne) as Hf.
  destruct (addFileLoop (kRoot this) [] (splitPath (normalizePath p))
              (VirtualFile (normalizePath p) c)) as [root r].
  intros [= <- ->]. cbn [fst snd kRoot setRoot] in *.
  rewrite Hroot. split; [now apply String.eqb_neq | now apply Hf].
Qed.

Lemma read_found (later : VirtualFileSystem) (q entryPath : string)
      (c : ContentSource) (options : ReadOptions) :
  _resolveEntry later q = Some (VirtualFile entryPath c) ->
  existsSync later q = true /\ readFileSync later q options = syncRead c options.
Proof.
  intros H. unfold existsSync, readFileSync. rewrite H. split; [reflexivity|].
  cbn [isDirectory getContentSync syncRead].
  now destruct c as [b | [b|e] | r].
Qed.

Hypothesis cwd_absolute : path.isAbsolute cwd = true.

(** A normalized path behind a normalized mount point other than the root
    is normalized, lies under the mount point, and what follows the mount
    point is the path. *)
Lemma mounted_path (prefix p : string) :
  normalizePath prefix <> "/" -> normalizePath p <> "/" ->
  let m := normalizePath prefix in
  let q := m +++ normalizePath p in
  normalizePath q = q
  /\ isUnderMountPoint q m = true
  /\ getRelativePath q m = normalizePath p.
Proof.
  intros Hm Hp.
  destruct (normalizePath_clean cwd_absolute prefix) as (ms & Hms & Em).
  destruct (normalizePath_clean cwd_absolute p) as (ns & Hns & En).
  rewrite Em, En in *. cbv zeta.
  assert (ms <> []) by (intros ->; now apply Hm).
  assert (ns <> []) by (intros ->; now apply Hp).
  assert (Eq : pathOf ms +++ pathOf ns = pathOf (ms ++ ns)).
  { unfold pathOf. rewrite join_append by assumption.
    now rewrite !append_assoc. }
  split; [|split].
  - rewrite Eq. apply normalizePath_pathOf. now apply Forall_app.
  - apply isUnderMountPoint_iff. right.
    exists (JSString.join ns "/"). reflexivity.
  - unfold getRelativePath.
    replace (String.eqb (pathOf ms +++ pathOf ns) (pathOf ms)) with false.
    + rewrite slice_from by (rewrite append_length; lia).
      apply drop_append.
    + symmetry. apply String.eqb_neq. intros E.
      apply (f_equal String.length) in E. rewrite append_length in E.
      unfold pathOf at 2 in E. simpl in E. lia.
Qed.

End AddFileFacts.

(** C10: [addFile] is atomic on failure: whenever the call throws (the path
    is the root, or a component on the way is a file), the instance, and
    with it the entry tree, is exactly as it was before the call; no
    directory created on the way is left behind. *)
Theorem addFile_atomic {process : Process}
        (this : VirtualFileSystem) (p : string) (c : ContentSource) (e : JsError) :
  snd (addFile this p c) = Throw e ->
  fst (addFile this p c) = this.
Proof.
  unfold addFile.
  destruct (List.length (splitPath (normalizePath p)) =? 0)%nat;
    [reflexivity|].
  pose proof (addFileLoop_throw (splitPath (normalizePath p)) []
                (kRoot this) (VirtualFile (normalizePath p) c) e) as H.
  destruct (addFileLoop (kRoot this) [] (splitPath (normalizePath p))
              (VirtualFile (normalizePath p) c)) as [root r].
  cbn [fst snd] in *. intros Hr. rewrite (H Hr). now destruct this.
Qed.

Lemma addFile_atomic_witness :
  fst (addFile (process := hostProcess) (heap sampleUnmounted 0)
               "/docs/readme.md/notes/x.txt" (FixedBytes "x"))
  = heap sampleUnmounted 0.
Proof.
  apply (addFile_atomic (process := hostProcess) (heap sampleUnmounted 0)
           "/docs/readme.md/notes/x.txt" (FixedBytes "x")
           (Error "Cannot create file: docs/readme.md is not a directory")).
  reflexivity.
Defined.

(** ** Dispatch over the active instances *)

Section DispatchFacts.

Context {process : Process}.
Variable objs : ObjId -> VirtualFileSystem.
Variable normalized : string.

(** Instances that do not claim the path are passed over: the same
    argument for each of the four loops. *)
Ltac pass_over :=
  induction 1 as [|i pre Hi _ IH]; [reflexivity|];
  cbn [app findVFSForStatLoop findVFSForReadLoop
       findVFSForRealpathLoop findVFSForFsStatLoop];
  now rewrite Hi.

Lemma findVFSForStatLoop_skip (pre rest : list ObjId) :
  Forall (fun i => shouldHandle (objs i) normalized = false) pre ->
  findVFSForStatLoop objs (pre ++ rest) normalized
  = findVFSForStatLoop objs rest normalized.
Proof. pass_over. Qed.

Lemma findVFSForReadLoop_skip (pre rest : list ObjId) (filename : string)
      (options : ReadOptions) :
  Forall (fun i => shouldHandle (objs i) normalized = false) pre ->
  findVFSForReadLoop objs (pre ++ rest) filename normalized options
  = findVFSForReadLoop objs rest filename normalized options.
Proof. pass_over. Qed.

Lemma findVFSForRealpathLoop_skip (pre rest : list ObjId) (filename : string) :
  Forall (fun i => shouldHandle (objs i) normalized = false) pre ->
  findVFSForRealpathLoop objs (pre ++ rest) filename normalized
  = findVFSForRealpathLoop objs rest filename normalized.
Proof. pass_over. Qed.

Lemma findVFSForFsStatLoop_skip (pre rest : list ObjId) (filename : string) :
  Forall (fun i => shouldHandle (objs i) normalized = false) pre ->
  findVFSForFsStatLoop objs (pre ++ rest) filename normalized
  = findVFSForFsStatLoop objs rest filename normalized.
Proof. pass_over. Qed.

End DispatchFacts.

(** An instance that claims a path without being mounted is in overlay mode
    and has an entry for it. *)
Lemma shouldHandle_unmounted {process : Process}
      (this : VirtualFileSystem) (q : string) :
  path.isAbsolute cwd = true ->
  shouldHandle this q = true -> isMounted this = false ->
  exists entry, _resolveEntry this q = Some entry.
Proof.
  unfold shouldHandle, isMounted. intros Habs H Hm. rewrite Hm in H.
  cbn [negb andb] in H. rewrite (_resolveEntry_normalized Habs) in H.
  destruct (kOverlay this); cbn [negb] in H; [|discriminate H].
  destruct (_resolveEntry this q) as [entry|]; [|discriminate H].
  now exists entry.
Qed.

(** C1: a miss is final or not by the mode.  Let the instances before [vfs]
    in the active list not claim the path, and let [vfs] have no entry for
    it.  If [vfs] is mounted and claims the path, the read, stat and
    realpath dispatch throw ENOENT (the module stat answers -2), whatever
    instances follow and whatever the original implementation would do.  If
    [vfs] is not mounted, the dispatch goes on as if the list began after
    [vfs]; with nothing after it, the original implementation answers. *)
Theorem dispatch_miss_by_mode {process : Process}
        (w : World) (pre post : list ObjId) (vfs : ObjId) (filename : string) :
  activeVFSList w = pre ++ vfs :: post ->
  Forall (fun i => shouldHandle (heap w i) (normalizePath filename) = false) pre ->
  existsSync (heap w vfs) (normalizePath filename) = false ->
  (isMounted (heap w vfs) = true ->
   shouldHandle (heap w vfs) (normalizePath filename) = true ->
   (forall options original,
       findVFSForRead w filename options = Throw (createENOENT "open" filename)
       /\ vfsReadFileSync original w (PathString filename) options
          = Throw (createENOENT "open" filename))
   /\ (forall original,
          findVFSForFsStat w filename = Throw (createENOENT "stat" filename)
          /\ vfsStatSync original w (PathString filename)
             = Throw (createENOENT "stat" filename)
          /\ vfsLstatSync original w (PathString filename)
             = Throw (createENOENT "stat" filename))
   /\ (forall original,
          findVFSForRealpath w filename = Throw (createENOENT "realpath" filename)
          /\ vfsRealpathSync original w (PathString filename)
             = Throw (createENOENT "realpath" filename))
   /\ (forall original,
          findVFSForStat w filename = Some (vfs, (-2)%Z)
          /\ vfsStat original w filename = (-2)%Z))
  /\ (isMounted (heap w vfs) = false ->
      (forall options,
          findVFSForRead w filename options
          = findVFSForRead (setActiveVFSList w post) filename options)
      /\ findVFSForFsStat w filename
         = findVFSForFsStat (setActiveVFSList w post) filename
      /\ findVFSForRealpath w filename
         = findVFSForRealpath (setActiveVFSList w post) filename
      /\ findVFSForStat w filename
         = findVFSForStat (setActiveVFSList w post) filename
      /\ (post = [] ->
          (forall options original,
              vfsReadFileSync original w (PathString filename) options
              = original (PathString filename) options)
          /\ (forall original,
                 vfsStatSync original w (PathString filename)
                 = original (PathString filename))
          /\ (forall original,
                 vfsLstatSync original w (PathString filename)
                 = original (PathString filename))
          /\ (forall original,
                 vfsRealpathSync original w (PathString filename)
                 = original (PathString filename))
          /\ (forall original,
                 vfsStat original w filename = original filename))).
Proof.
  intros Hlist Hpre Hex.
  assert (Hread : forall options,
             findVFSForRead w filename options
             = findVFSForReadLoop (heap w) (vfs :: post) filename
                                  (normalizePath filename) options).
  { intros. unfold findVFSForRead. rewrite Hlist.
    now apply findVFSForReadLoop_skip. }
  assert (Hstat : findVFSForFsStat w filename
                  = findVFSForFsStatLoop (heap w) (vfs :: post) filename
                                         (normalizePath filename)).
  { unfold findVFSForFsStat. rewrite Hlist.
    now apply findVFSForFsStatLoop_skip. }
  assert (Hreal : findVFSForRealpath w filename
                  = findVFSForRealpathLoop (heap w) (vfs :: post) filename
                                           (normalizePath filename)).
  { unfold findVFSForRealpath. rewrite Hlist.
    now apply findVFSForRealpathLoop_skip. }
  assert (Hmod : findVFSForStat w filename
                 = findVFSForStatLoop (heap w) (vfs :: post)
                                      (normalizePath filename)).
  { unfold findVFSForStat. rewrite Hlist.
    now apply findVFSForStatLoop_skip. }
  assert (Hcode : internalModuleStat (heap w vfs) (normalizePath filename)
                  = (-2)%Z).
  { unfold existsSync, internalModuleStat in *.
    now destruct (_resolveEntry (heap w vfs) (normalizePath filename)). }
  split.
  - intros Hm Hclaim.
    assert (R : forall options,
               findVFSForRead w filename options
               = Throw (createENOENT "open" filename)).
    { intros. rewrite Hread. cbn [findVFSForReadLoop].
      now rewrite Hclaim, Hex, Hm. }
    assert (S : findVFSForFsStat w filename = Throw (createENOENT "stat" filename)).
    { rewrite Hstat. cbn [findVFSForFsStatLoop]. now rewrite Hclaim, Hex, Hm. }
    assert (P : findVFSForRealpath w filename
                = Throw (createENOENT "realpath" filename)).
    { rewrite Hreal. cbn [findVFSForRealpathLoop]. now rewrite Hclaim, Hex, Hm. }
    assert (M : findVFSForStat w filename = Some (vfs, (-2)%Z)).
    { rewrite Hmod. cbn [findVFSForStatLoop]. now rewrite Hclaim, Hcode, Hm. }
    split; [|split; [|split]].
    + intros options original. split; [apply R|].
      unfold vfsReadFileSync. cbn [pathStr]. now rewrite R.
    + intros original. split; [exact S|].
      unfold vfsStatSync, vfsLstatSync. cbn [pathStr]. now rewrite S.
    + intros original. split; [exact P|].
      unfold vfsRealpathSync. cbn [pathStr]. now rewrite P.
    + intros original. split; [exact M|].
      unfold vfsStat. now rewrite M.
  - intros Hm.
    assert (R : forall options,
               findVFSForRead w filename options
               = findVFSForRead (setActiveVFSList w post) filename options).
    { intros. rewrite Hread. cbn [findVFSForReadLoop].
      rewrite Hex, Hm.
      now destruct (shouldHandle (heap w vfs) (normalizePath filename)). }
    assert (S : findVFSForFsStat w filename
                = findVFSForFsStat (setActiveVFSList w post) filename).
    { rewrite Hstat. cbn [findVFSForFsStatLoop]. rewrite Hex, Hm.
      now destruct (shouldHandle (heap w vfs) (normalizePath filename)). }
    assert (P : findVFSForRealpath w filename
                = findVFSForRealpath (setActiveVFSList w post) filename).
    { rewrite Hreal. cbn [findVFSForRealpathLoop]. rewrite Hex, Hm.
      now destruct (shouldHandle (heap w vfs) (normalizePath filename)). }
    assert (M : findVFSForStat w filename
                = findVFSForStat (setActiveVFSList w post) filename).
    { rewrite Hmod. cbn [findVFSForStatLoop]. rewrite Hcode, Hm.
      now destruct (shouldHandle (heap w vfs) (normalizePath filename)). }
    split; [exact R | split; [exact S | split; [exact P | split; [exact M|]]]].
    intros ->. split; [|split; [|split; [|split]]].
    + intros. unfold vfsReadFileSync. cbn [pathStr]. now rewrite R.
    + intros. unfold vfsStatSync. cbn [pathStr]. now rewrite S.
    + intros. unfold vfsLstatSync. cbn [pathStr]. now rewrite S.
    + intros. unfold vfsRealpathSync. cbn [pathStr]. now rewrite P.
    + intros. unfold vfsStat. now rewrite M.
Qed.

Lemma dispatch_miss_by_mode_witness :
  findVFSForRead (process := hostProcess) sampleTwoMounts
                 "/sea/missing.txt" OptUndefined
  = Throw (createENOENT "open" "/sea/missing.txt")
  /\ vfsReadFileSync (process := hostProcess)
                     (fun _ _ => Return (Raw "from the real file system"))
                     sampleTwoMounts (PathString "/sea/missing.txt") OptUndefined
     = Throw (createENOENT "open" "/sea/missing.txt").
Proof.
  apply (dispatch_miss_by_mode (process := hostProcess)
           sampleTwoMounts [] [1; 2] 0 "/sea/missing.txt"
           eq_refl (Forall_nil _) eq_refl);
    reflexivity.
Defined.

(** [registerVFS] appends: the active list is in registration order. *)
Lemma registerVFS_appends (vfs : ObjId) (w : World) :
  ArrayPrototypeIndexOf (activeVFSList w) vfs = (-1)%Z ->
  activeVFSList (registerVFS vfs w) = activeVFSList w ++ [vfs].
Proof.
  intros H. unfold registerVFS. rewrite H. cbn [Z.eqb].
  unfold installHooks, setActiveVFSList, ArrayPrototypePush.
  cbn [hooksInstalled]. now destruct (hooksInstalled w).
Qed.

Lemma registerVFS_again (vfs : ObjId) (w : World) :
  ArrayPrototypeIndexOf (activeVFSList w) vfs <> (-1)%Z ->
  registerVFS vfs w = w.
Proof.
  intros H. unfold registerVFS.
  destruct (Z.eqb_spec (ArrayPrototypeIndexOf (activeVFSList w) vfs) (-1));
    [contradiction | reflexivity].
Qed.

(** ** Activation *)

Lemma heap_registerVFS (vfs : ObjId) (w : World) :
  heap (registerVFS vfs w) = heap w.
Proof.
  unfold registerVFS, installHooks, setActiveVFSList.
  destruct (ArrayPrototypeIndexOf (activeVFSList w) vfs =? -1)%Z; [|reflexivity].
  cbn [hooksInstalled]. now destruct (hooksInstalled w).
Qed.

Lemma heap_unregisterVFS (vfs : ObjId) (w : World) :
  heap (unregisterVFS vfs w) = heap w.
Proof.
  unfold unregisterVFS, setActiveVFSList.
  now destruct (negb (ArrayPrototypeIndexOf (activeVFSList w) vfs =? -1)%Z).
Qed.

(** The loop of [addDirectory] *)

Lemma addDirectoryLoop_step (current : VirtualEntry) (done : list string)
      (segment : string) (rest : list string) (dir : VirtualEntry) :
  rest <> [] ->
  addDirectoryLoop current done (segment :: rest) dir
  = if negb (isDirectory current)
    then (current, Throw (TypeError "current.getEntry is not a function"))
    else
      match getEntry current segment with
      | None =>
          let entry :=
            VirtualDirectory ("/" +++ JSString.join (done ++ [segment]) "/") [] in
          (addEntry (addEntry current segment entry) segment
                    (fst (addDirectoryLoop entry (done ++ [segment]) rest dir)),
           snd (addDirectoryLoop entry (done ++ [segment]) rest dir))
      | Some entry =>
          if negb (isDirectory entry) then
            (current,
             Throw (Error ("Cannot create directory: "
                           +++ JSString.join (done ++ [segment]) "/"
                           +++ " is not a directory")))
          else
            (addEntry current segment
                      (fst (addDirectoryLoop entry (done ++ [segment]) rest dir)),
             snd (addDirectoryLoop entry (done ++ [segment]) rest dir))
      end.
Proof.
  intros Hne. destruct rest as [|segment' rest']; [congruence|].
  set (rest := segment' :: rest').
  change (addDirectoryLoop current done (segment :: rest) dir)
    with (if negb (isDirectory current)
          then (current, Throw (TypeError "current.getEntry is not a function"))
          else
            match getEntry current segment with
            | None =>
                let parentPath := "/" +++ JSString.join (done ++ [segment]) "/" in
                let entry := VirtualDirectory parentPath [] in
                let current := addEntry current segment entry in
                let '(entry', r) :=
                  addDirectoryLoop entry (done ++ [segment]) rest dir in
                (addEntry current segment entry', r)
            | Some entry =>
                if negb (isDirectory entry) then
                  (current,
                   Throw (Error ("Cannot create directory: "
                                 +++ JSString.join (done ++ [segment]) "/"
                                 +++ " is not a directory")))
                else
                  let '(entry', r) :=
                    addDirectoryLoop entry (done ++ [segment]) rest dir in
                  (addEntry current segment entry', r)
            end).
  destruct (negb (isDirectory current)); [reflexivity|].
  destruct (getEntry current segment) as [entry|].
  - destruct (negb (isDirectory entry)); [reflexivity|].
    now destruct (addDirectoryLoop entry (done ++ [segment]) rest dir).
  - cbv zeta. now destruct (addDirectoryLoop _ (done ++ [segment]) rest dir).
Qed.

(** The loops of [addDirectory] and [addFile] leave the same tree and fail
    in the same cases. *)
Lemma addDirectoryLoop_addFileLoop (segments done : list string)
      (current entry : VirtualEntry) :
  fst (addDirectoryLoop current done segments entry)
  = fst (addFileLoop current done segments entry)
  /\ isReturn (snd (addDirectoryLoop current done segments entry))
     = isReturn (snd (addFileLoop current done segments entry)).
Proof.
  revert done current.
  induction segments as [|segment rest IH]; intros done current;
    [now split|].
  destruct rest as [|segment' rest']; [now split|].
  rewrite addDirectoryLoop_step, addFileLoop_step by discriminate.
  destruct (negb (isDirectory current)); [now split|].
  destruct (getEntry current segment) as [child|].
  - destruct (negb (isDirectory child)); [now split|]. cbn [fst snd].
    destruct (IH (done ++ [segment]) child) as [-> ->]. now split.
  - cbv zeta. cbn [fst snd].
    destruct (IH (done ++ [segment])
                 (VirtualDirectory ("/" +++ JSString.join (done ++ [segment]) "/") []))
      as [-> ->].
    now split.
Qed.

Section ActivationFacts.

Context {process : Process}.

Lemma mount_active (this : ObjId) (prefix : string) (w : World) :
  kMounted (heap w this) || kOverlay (heap w this) = true ->
  mount this prefix w
  = (w, Throw (Error "VFS is already mounted or in overlay mode")).
Proof. intros H. unfold mount. now rewrite H. Qed.

Lemma overlay_active (this : ObjId) (w : World) :
  kMounted (heap w this) || kOverlay (heap w this) = true ->
  overlay this w
  = (w, Throw (Error "VFS is already mounted or in overlay mode")).
Proof. intros H. unfold overlay. now rewrite H. Qed.

Lemma mount_inactive (this : ObjId) (prefix : string) (w : World) (i : ObjId) :
  kMounted (heap w this) || kOverlay (heap w this) = false ->
  heap (fst (mount this prefix w)) i
  = if (i =? this)%nat
    then setMode (heap w this) (Some (normalizePath prefix)) true false
    else heap w i.
Proof.
  intros H. unfold mount. rewrite H. cbn [fst].
  rewrite heap_registerVFS. cbn [heap setObject].
  rewrite Nat.eqb_refl. apply orb_false_iff in H as [_ Ho].
  destruct (i =? this)%nat; [|reflexivity].
  unfold setMode. cbn [kRoot kMountPoint kMounted kOverlay kFallthrough].
  now rewrite Ho.
Qed.

Lemma overlay_inactive (this : ObjId) (w : World) (i : ObjId) :
  kMounted (heap w this) || kOverlay (heap w this) = false ->
  heap (fst (overlay this w)) i
  = if (i =? this)%nat
    then setMode (heap w this) (kMountPoint (heap w this)) false true
    else heap w i.
Proof.
  intros H. unfold overlay. rewrite H. cbn [fst].
  rewrite heap_registerVFS. cbn [heap setObject].
  apply orb_false_iff in H as [Hm _].
  destruct (i =? this)%nat; [|reflexivity]. now rewrite Hm.
Qed.

Lemma unmount_heap (this : ObjId) (w : World) (i : ObjId) :
  heap (unmount this w) i
  = if (i =? this)%nat
    then setMode (heap w this) None false false
    else heap w i.
Proof.
  unfold unmount. cbn [heap setObject]. now rewrite heap_unregisterVFS.
Qed.

(** [addFile] leaves the mode fields alone, whether it returns or throws. *)
Lemma addFile_mode (this : VirtualFileSystem) (p : string) (c : ContentSource) :
  let this' := fst (addFile this p c) in
  kMountPoint this' = kMountPoint this
  /\ kMounted this' = kMounted this
  /\ kOverlay this' = kOverlay this.
Proof.
  unfold addFile.
  destruct (List.length (splitPath (normalizePath p)) =? 0)%nat;
    [now repeat split|].
  now destruct (addFileLoop (kRoot this) [] (splitPath (normalizePath p))
                  (VirtualFile (normalizePath p) c)).
Qed.

Lemma addDirectory_mode (this : VirtualFileSystem) (p : string) :
  let this' := fst (addDirectory this p) in
  kMountPoint this' = kMountPoint this
  /\ kMounted this' = kMounted this
  /\ kOverlay this' = kOverlay this.
Proof.
  unfold addDirectory.
  destruct (List.length (splitPath (normalizePath p)) =? 0)%nat;
    [now repeat split|].
  now destruct (addDirectoryLoop (kRoot this) [] (splitPath (normalizePath p))
                  (VirtualDirectory (normalizePath p) [])).
Qed.

Lemma remove_mode (this : VirtualFileSystem) (p : string) :
  let this' := fst (remove this p) in
  kMountPoint this' = kMountPoint this
  /\ kMounted this' = kMounted this
  /\ kOverlay this' = kOverlay this.
Proof.
  unfold remove.
  destruct (getParentPath (normalizePath p)) as [parentPath|];
    [|now repeat split].
  destruct (_resolveEntry this parentPath) as [parent|]; [|now repeat split].
  destruct (negb (isDirectory parent)); [now repeat split|].
  now destruct (removeEntry parent (getBaseName (normalizePath p))).
Qed.

(** What a call does to the mode fields of an instance. *)
Lemma call_mode (w : World) (that : ObjId) (c : Call) (this : ObjId) :
  let before := heap w this in
  let after := heap (call w (that, c)) this in
  (kMountPoint after = kMountPoint before
   /\ kMounted after = kMounted before
   /\ kOverlay after = kOverlay before)
  \/ (that = this
      /\ ((exists prefix,
              c = CallMount prefix
              /\ kMounted before = false /\ kOverlay before = false
              /\ kMountPoint after = Some (normalizePath prefix)
              /\ kMounted after = true /\ kOverlay after = false)
          \/ (c = CallOverlay
              /\ kMounted before = false /\ kOverlay before = false
              /\ kMountPoint after = kMountPoint before
              /\ kMounted after = false /\ kOverlay after = true)
          \/ (c = CallUnmount
              /\ kMountPoint after = None
              /\ kMounted after = false /\ kOverlay after = false))).
Proof.
  cbv zeta. unfold call.
  destruct (Nat.eqb_spec this that) as [->|Hne].
  - destruct c as [prefix | | | filePath content | dirPath | entryPath].
    + destruct (kMounted (heap w that) || kOverlay (heap w that)) eqn:H.
      * rewrite (mount_active _ _ _ H). now left.
      * rewrite (mount_inactive _ _ _ that H), Nat.eqb_refl.
        apply orb_false_iff in H as [Hm Ho].
        right. split; [reflexivity|]. left. exists prefix. now repeat split.
    + destruct (kMounted (heap w that) || kOverlay (heap w that)) eqn:H.
      * rewrite (overlay_active _ _ H). now left.
      * rewrite (overlay_inactive _ _ that H), Nat.eqb_refl.
        apply orb_false_iff in H as [Hm Ho].
        right. split; [reflexivity|]. right. left. now repeat split.
    + rewrite unmount_heap, Nat.eqb_refl.
      right. split; [reflexivity|]. right. right. now repeat split.
    + cbn [heap setObject]. rewrite Nat.eqb_refl. left.
      apply addFile_mode.
    + cbn [heap setObject]. rewrite Nat.eqb_refl. left.
      apply addDirectory_mode.
    + cbn [heap setObject]. rewrite Nat.eqb_refl. left.
      apply remove_mode.
  - left. apply Nat.eqb_neq in Hne.
    destruct c as [prefix | | | filePath content | dirPath | entryPath].
    + destruct (kMounted (heap w that) || kOverlay (heap w that)) eqn:H.
      * rewrite (mount_active _ _ _ H). now repeat split.
      * rewrite (mount_inactive _ _ _ this H), Hne. now repeat split.
    + destruct (kMounted (heap w that) || kOverlay (heap w that)) eqn:H.
      * rewrite (overlay_active _ _ H). now repeat split.
      * rewrite (overlay_inactive _ _ this H), Hne. now repeat split.
    + rewrite unmount_heap, Hne. now repeat split.
    + cbn [heap setObject]. rewrite Hne. now repeat split.
    + cbn [heap setObject]. rewrite Hne. now repeat split.
    + cbn [heap setObject]. rewrite Hne. now repeat split.
Qed.

Lemma call_exclusive (w : World) (c : ObjId * Call) :
  (forall i, kMounted (heap w i) && kOverlay (heap w i) = false) ->
  forall i, kMounted (heap (call w c) i) && kOverlay (heap (call w c) i) = false.
Proof.
  intros H i. destruct c as [that c]. specialize (H i).
  destruct (call_mode w that c i)
    as [(_ & -> & ->) | (_ & [(prefix & _ & _ & _ & _ & -> & ->)
                              | [(_ & _ & _ & _ & -> & ->)
                                | (_ & _ & -> & ->)]])];
    [exact H | reflexivity..].
Qed.

Lemma run_exclusive (calls : list (ObjId * Call)) (w : World) :
  (forall i, kMounted (heap w i) && kOverlay (heap w i) = false) ->
  forall i, kMounted (heap (run calls w) i) && kOverlay (heap (run calls w) i) = false.
Proof.
  revert w. induction calls as [|c calls IH]; intros w H; [exact H|].
  apply IH. now apply call_exclusive.
Qed.

Hypothesis cwd_absolute : path.isAbsolute cwd = true.

Lemma call_modeInvariant (w : World) (c : ObjId * Call) :
  (forall i, modeInvariant (heap w i) = true) ->
  forall i, modeInvariant (heap (call w c) i) = true.
Proof.
  intros H i. destruct c as [that c]. specialize (H i).
  unfold modeInvariant in *.
  destruct (call_mode w that c i)
    as [(-> & -> & ->) | (_ & [(prefix & _ & _ & _ & -> & -> & ->)
                               | [(_ & Hm & _ & -> & -> & ->)
                                 | (_ & -> & -> & ->)]])];
    [exact H | | | reflexivity].
  - cbn [negb andb]. now apply normalizePath_truthy.
  - rewrite Hm in H. cbn [negb andb] in *.
    now destruct (kMountPoint (heap w i)).
Qed.

(** Every state that calls lead to from the initial one satisfies the mode
    invariant. *)
Lemma run_modeInvariant (calls : list (ObjId * Call)) (w : World) :
  (forall i, modeInvariant (heap w i) = true) ->
  forall i, modeInvariant (heap (run calls w) i) = true.
Proof.
  revert w. induction calls as [|c calls IH]; intros w H; [exact H|].
  apply IH. now apply call_modeInvariant.
Qed.

Lemma reachable_modeInvariant (calls : list (ObjId * Call)) (i : ObjId) :
  modeInvariant (heap (run calls initialWorld) i) = true.
Proof. now apply run_modeInvariant. Qed.

End ActivationFacts.

(** C9: mounted and overlay mode exclude each other and are entered only by
    the call that activates them.  An instance starts unmounted; whatever
    calls ([mount], [overlay], [unmount], [addFile], [remove]) are made, no
    instance is ever mounted and overlay at once; [mount]
    and [overlay] on an instance that is mounted or overlay throw and leave
    the whole state as it was; and a call turns an instance mounted
    (overlay) only if it is [mount] ([overlay]) on that very instance. *)
Theorem mode_exclusive {process : Process} :
  (forall this,
      isMounted (heap initialWorld this) = false
      /\ isOverlay (heap initialWorld this) = false
      /\ ArrayPrototypeIndexOf (activeVFSList initialWorld) this = (-1)%Z)
  /\ (forall calls this,
         isMounted (heap (run calls initialWorld) this)
         && isOverlay (heap (run calls initialWorld) this) = false)
  /\ (forall w this prefix,
         isMounted (heap w this) = true \/ isOverlay (heap w this) = true ->
         mount this prefix w
         = (w, Throw (Error "VFS is already mounted or in overlay mode"))
         /\ overlay this w
            = (w, Throw (Error "VFS is already mounted or in overlay mode")))
  /\ (forall w that c this,
         isMounted (heap w this) = false ->
         isMounted (heap (call w (that, c)) this) = true ->
         that = this /\ exists prefix, c = CallMount prefix)
  /\ (forall w that c this,
         isOverlay (heap w this) = false ->
         isOverlay (heap (call w (that, c)) this) = true ->
         that = this /\ c = CallOverlay).
Proof.
  unfold isMounted, isOverlay. split; [|split; [|split; [|split]]].
  - intros this. now repeat split.
  - intros calls this. now apply run_exclusive.
  - intros w this prefix H.
    assert (Ha : kMounted (heap w this) || kOverlay (heap w this) = true).
    { destruct H as [-> | ->]; [reflexivity | apply orb_true_r]. }
    split; [now apply mount_active | now apply overlay_active].
  - intros w that c this Hb Ha.
    destruct (call_mode w that c this)
      as [(_ & E & _) | (-> & [(prefix & -> & _)
                               | [(_ & _ & _ & _ & E & _)
                                 | (_ & _ & E & _)]])];
      try congruence.
    split; [reflexivity | now exists prefix].
  - intros w that c this Hb Ha.
    destruct (call_mode w that c this)
      as [(_ & _ & E) | (-> & [(prefix & _ & _ & _ & _ & _ & E)
                               | [(-> & _)
                                 | (_ & _ & _ & E)]])];
      try congruence.
    now split.
Qed.

Lemma mode_exclusive_witness :
  mount (process := hostProcess) 0 "/elsewhere" sampleOverlay
  = (sampleOverlay, Throw (Error "VFS is already mounted or in overlay mode"))
  /\ overlay 0 sampleOverlay
     = (sampleOverlay, Throw (Error "VFS is already mounted or in overlay mode")).
Proof.
  apply (proj1 (proj2 (proj2 (mode_exclusive (process := hostProcess))))).
  right. reflexivity.
Defined.

(** ** What [addFile] has put in the tree stays there *)

(** A later [addDirectory] above a file ends what [addFile] has
    established: the directory it puts in the place is a new one. *)
Example addDirectory_above_a_file :
  existsSync (process := hostProcess) (heap sampleUnmounted 0) "/docs/readme.md"
  = true
  /\ leavesAlone (process := hostProcess) 0 ["docs"; "readme.md"] sampleUnmounted
                 [(0, CallAddDirectory "/docs")] = false
  /\ existsSync (process := hostProcess)
                (heap (run (process := hostProcess)
                           [(0, CallAddDirectory "/docs")] sampleUnmounted) 0)
                "/docs/readme.md" = false
  /\ leavesAlone (process := hostProcess) 0 ["docs"; "readme.md"] sampleUnmounted
                 [(0, CallAddDirectory "/docs/more")] = true
  /\ existsSync (process := hostProcess)
                (heap (run (process := hostProcess)
                           [(0, CallAddDirectory "/docs/more")] sampleUnmounted) 0)
                "/docs/readme.md" = true.
Proof. repeat split. Qed.

(** C5, as the claim states it, fails: on an instance mounted at [/sea],
    [addFile('/b.txt', ...)] returns and [existsSync('/b.txt')] is false
    right after it. *)
Lemma addFile_then_exists_counterexample :
  snd (addFile (process := hostProcess) (heap sampleMounted 0)
               "/b.txt" (FixedBytes "hi")) = Return tt
  /\ existsSync (process := hostProcess)
       (fst (addFile (process := hostProcess) (heap sampleMounted 0)
                     "/b.txt" (FixedBytes "hi")))
       "/b.txt" = false.
Proof. split; reflexivity. Qed.

Section PersistenceFacts.

Context {process : Process}.

Lemma addFile_frame (this : VirtualFileSystem) (q : string) (c' : ContentSource)
      (segments : list string) (fp : string) (fc : ContentSource) :
  isPrefixOf (splitPath (normalizePath q)) segments = false ->
  resolveSegments (kRoot this) segments = Some (VirtualFile fp fc) ->
  resolveSegments (kRoot (fst (addFile this q c'))) segments
  = Some (VirtualFile fp fc).
Proof.
  intros Hpre Hfound. unfold addFile.
  destruct (List.length (splitPath (normalizePath q)) =? 0)%nat; [exact Hfound|].
  pose proof (addFileLoop_frame (splitPath (normalizePath q)) [] (kRoot this)
                (VirtualFile (normalizePath q) c') segments fp fc Hpre Hfound) as H.
  now destruct (addFileLoop (kRoot this) [] (splitPath (normalizePath q))
                  (VirtualFile (normalizePath q) c')).
Qed.

Lemma addDirectory_frame (this : VirtualFileSystem) (q : string)
      (segments : list string) (fp : string) (fc : ContentSource) :
  isPrefixOf (splitPath (normalizePath q)) segments = false ->
  resolveSegments (kRoot this) segments = Some (VirtualFile fp fc) ->
  resolveSegments (kRoot (fst (addDirectory this q))) segments
  = Some (VirtualFile fp fc).
Proof.
  intros Hpre Hfound. unfold addDirectory.
  destruct (List.length (splitPath (normalizePath q)) =? 0)%nat; [exact Hfound|].
  pose proof (addFileLoop_frame (splitPath (normalizePath q)) [] (kRoot this)
                (VirtualDirectory (normalizePath q) []) segments fp fc
                Hpre Hfound) as H.
  pose proof (addDirectoryLoop_addFileLoop (splitPath (normalizePath q)) []
                (kRoot this) (VirtualDirectory (normalizePath q) [])) as [Hf _].
  destruct (addDirectoryLoop (kRoot this) [] (splitPath (normalizePath q))
              (VirtualDirectory (normalizePath q) [])) as [root r].
  cbn [fst kRoot setRoot] in *. now rewrite Hf.
Qed.

Lemma remove_frame (this : VirtualFileSystem) (q : string)
      (segments : list string) (fp : string) (fc : ContentSource) :
  match writesAt this (CallRemove q) with
  | Some place => negb (isPrefixOf place segments)
  | None => true
  end = true ->
  resolveSegments (kRoot this) segments = Some (VirtualFile fp fc) ->
  resolveSegments (kRoot (fst (remove this q))) segments
  = Some (VirtualFile fp fc).
Proof.
  unfold writesAt, remove. intros Hpre Hfound.
  destruct (getParentPath (normalizePath q)) as [parentPath|]; [|exact Hfound].
  unfold _resolveEntry, entryLocation in *.
  destruct (vfsPathOf this (normalizePath parentPath)) as [vfsPath|];
    [|exact Hfound].
  apply negb_true_iff in Hpre.
  assert (Hloc : forall parent,
             (if String.eqb vfsPath "/" then Some (kRoot this)
              else resolveSegments (kRoot this) (splitPath vfsPath))
             = Some parent ->
             resolveSegments (kRoot this)
               (if String.eqb vfsPath "/" then [] else splitPath vfsPath)
             = Some parent).
  { intros parent. now destruct (String.eqb vfsPath "/"). }
  destruct (if String.eqb vfsPath "/" then Some (kRoot this)
            else resolveSegments (kRoot this) (splitPath vfsPath))
    as [parent|]; [|exact Hfound].
  specialize (Hloc parent eq_refl).
  destruct (isDirectory parent) eqn:Hd; cbn [negb]; [|exact Hfound].
  pose proof (storeAt_frame _ _ _ (getBaseName (normalizePath q)) _ fp fc
                Hloc Hd Hpre Hfound) as H.
  now destruct (removeEntry parent (getBaseName (normalizePath q))).
Qed.

(** [mount], [overlay] and [unmount] leave every tree alone. *)
Lemma call_mode_root (w : World) (that : ObjId) (c : Call) (this : ObjId) :
  match c with
  | CallAddFile _ _ | CallAddDirectory _ | CallRemove _ => False
  | _ => True
  end ->
  kRoot (heap (call w (that, c)) this) = kRoot (heap w this).
Proof.
  intros Hc. unfold call.
  destruct c as [prefix | | | | |]; try contradiction.
  - destruct (kMounted (heap w that) || kOverlay (heap w that)) eqn:H.
    + now rewrite (mount_active _ _ _ H).
    + rewrite (mount_inactive _ _ _ this H).
      now destruct (Nat.eqb_spec this that) as [->|].
  - destruct (kMounted (heap w that) || kOverlay (heap w that)) eqn:H.
    + now rewrite (overlay_active _ _ H).
    + rewrite (overlay_inactive _ _ this H).
      now destruct (Nat.eqb_spec this that) as [->|].
  - rewrite unmount_heap. now destruct (Nat.eqb_spec this that) as [->|].
Qed.

Lemma call_frame (w : World) (that : ObjId) (c : Call) (this : ObjId)
      (segments : list string) (fp : string) (fc : ContentSource) :
  negb (that =? this)%nat
  || match writesAt (heap w this) c with
     | Some place => negb (isPrefixOf place segments)
     | None => true
     end = true ->
  resolveSegments (kRoot (heap w this)) segments = Some (VirtualFile fp fc) ->
  resolveSegments (kRoot (heap (call w (that, c)) this)) segments
  = Some (VirtualFile fp fc).
Proof.
  intros Hc Hfound.
  destruct c as [prefix | | | filePath content | dirPath | entryPath];
    try (now rewrite call_mode_root).
  - unfold call. cbn [heap setObject].
    destruct (Nat.eqb_spec this that) as [->|Hne]; [|exact Hfound].
    rewrite Nat.eqb_refl in Hc. cbn [negb orb writesAt] in Hc.
    apply negb_true_iff in Hc. now apply addFile_frame.
  - unfold call. cbn [heap setObject].
    destruct (Nat.eqb_spec this that) as [->|Hne]; [|exact Hfound].
    rewrite Nat.eqb_refl in Hc. cbn [negb orb writesAt] in Hc.
    apply negb_true_iff in Hc. now apply addDirectory_frame.
  - unfold call. cbn [heap setObject].
    destruct (Nat.eqb_spec this that) as [->|Hne]; [|exact Hfound].
    rewrite Nat.eqb_refl in Hc. cbn [negb orb] in Hc.
    now apply remove_frame.
Qed.

Lemma run_frame (calls : list (ObjId * Call)) (w : World) (this : ObjId)
      (segments : list string) (fp : string) (fc : ContentSource) :
  leavesAlone this segments w calls = true ->
  resolveSegments (kRoot (heap w this)) segments = Some (VirtualFile fp fc) ->
  resolveSegments (kRoot (heap (run calls w) this)) segments
  = Some (VirtualFile fp fc).
Proof.
  revert w. induction calls as [|[that c] calls IH]; intros w Hl Hfound;
    [exact Hfound|].
  cbn [leavesAlone] in Hl. apply andb_true_iff in Hl as [Hc Hl].
  apply IH; [exact Hl|]. now apply call_frame.
Qed.

End PersistenceFacts.

(** C5, amended: after [addFile(p, c)] has returned, and until a later
    [addFile], [addDirectory] or [remove] on the instance writes at [p] or
    above it (other [addFile], [addDirectory] and [remove] calls, and
    [mount], [overlay] and [unmount], may come in between), an instance
    that is not mounted answers
    [existsSync(p)] with true and [readFileSync(p)] with the content of [c]
    (with the error of [getContentSync] when [c] is an asynchronous
    provider); an instance mounted at a prefix other than the root does so
    for the path [p] behind the mount point. *)
Theorem addFile_then_read {process : Process}
        (w : World) (this : ObjId) (p : string) (c : ContentSource)
        (calls : list (ObjId * Call)) (options : ReadOptions) :
  path.isAbsolute cwd = true ->
  snd (addFile (heap w this) p c) = Return tt ->
  leavesAlone this (splitPath (normalizePath p))
              (call w (this, CallAddFile p c)) calls = true ->
  let later := heap (run calls (call w (this, CallAddFile p c))) this in
  (isMounted later = false ->
   existsSync later p = true
   /\ readFileSync later p options = syncRead c options)
  /\ (forall prefix,
         isMounted later = true ->
         mountPoint later = Some (normalizePath prefix) ->
         normalizePath prefix <> "/" ->
         existsSync later (normalizePath prefix +++ normalizePath p) = true
         /\ readFileSync later (normalizePath prefix +++ normalizePath p) options
            = syncRead c options).
Proof.
  intros Habs Hadd Hcalls later. unfold isMounted, mountPoint.
  destruct (addFile (heap w this) p c) as [this' r] eqn:E.
  cbn [snd] in Hadd. subst r.
  destruct (addFile_lookup _ _ _ _ E) as [Hne Hlook].
  assert (Hroot : String.eqb (normalizePath p) "/" = false)
    by now apply String.eqb_neq.
  assert (Hlater : treeLookup (kRoot later) (normalizePath p)
                   = Some (VirtualFile (normalizePath p) c)).
  { unfold treeLookup in *. rewrite Hroot in *.
    apply run_frame; [exact Hcalls|].
    unfold call. cbn [heap setObject]. rewrite Nat.eqb_refl, E. exact Hlook. }
  split.
  - intros Hm. apply read_found with (entryPath := normalizePath p).
    now rewrite (_resolveEntry_unmounted _ _ Hm).
  - intros prefix Hm Hp Hprefix.
    destruct (mounted_path Habs prefix p Hprefix Hne) as (Hq & Hunder & Hrel).
    apply read_found with (entryPath := normalizePath p).
    rewrite (_resolveEntry_mounted _ _ _ Hm Hp (normalizePath_truthy Habs prefix)).
    now rewrite Hq, Hunder, Hrel.
Qed.

Lemma addFile_then_read_witness :
  existsSync (process := hostProcess)
             (heap (run (process := hostProcess)
                        [ (0, CallAddFile "/docs/readme.md" (FixedBytes "read me"));
                          (0, CallAddDirectory "/docs/more");
                          (0, CallRemove "/docs/readme.md");
                          (0, CallOverlay) ]
                        (call (process := hostProcess) initialWorld
                              (0, CallAddFile "/a.txt" (FixedBytes "hi")))) 0)
             "/a.txt" = true
  /\ readFileSync (process := hostProcess)
                  (heap (run (process := hostProcess)
                             [ (0, CallAddFile "/docs/readme.md" (FixedBytes "read me"));
                               (0, CallAddDirectory "/docs/more");
                               (0, CallRemove "/docs/readme.md");
                               (0, CallOverlay) ]
                             (call (process := hostProcess) initialWorld
                                   (0, CallAddFile "/a.txt" (FixedBytes "hi")))) 0)
                  "/a.txt" OptUndefined
     = syncRead (FixedBytes "hi") OptUndefined.
Proof.
  apply (addFile_then_read (process := hostProcess)
           initialWorld 0 "/a.txt" (FixedBytes "hi")
           [ (0, CallAddFile "/docs/readme.md" (FixedBytes "read me"));
             (0, CallAddDirectory "/docs/more");
             (0, CallRemove "/docs/readme.md");
             (0, CallOverlay) ]
           OptUndefined eq_refl eq_refl eq_refl).
  reflexivity.
Defined.

(* ================================================================== *)
(** * Further properties of the sources *)
(* ================================================================== *)

(** ** router.js: splitting, parents and mount points *)

Lemma join_split (s : string) :
  JSString.join (JSString.split s "/") "/" = s.
Proof.
  induction s as [|c s IH]; [reflexivity|].
  cbn [JSString.split]. pose proof (split_nonempty s) as Hne.
  destruct (Ascii.eqb_spec c "/") as [->|Hc].
  - destruct (JSString.split s "/") as [|y r]; [congruence|].
    rewrite join_cons, IH. reflexivity.
  - destruct (JSString.split s "/") as [|seg segs]; [congruence|].
    destruct segs as [|seg' segs']; rewrite <- IH; reflexivity.
Qed.

Lemma slice_tail (c : ascii) (s : string) :
  StringPrototypeSlice (String c s) 1 None = s.
Proof.
  change 1%Z with (Z.of_nat 1).
  rewrite slice_from by (simpl; lia). reflexivity.
Qed.

Lemma splitPath_pathOf (segments : list string) :
  Forall (fun s => cleanSegment s = true) segments ->
  splitPath (pathOf segments) = segments.
Proof.
  intros H. destruct segments as [|x xs]; [reflexivity|].
  unfold splitPath.
  assert (Hj : JSString.join (x :: xs) "/" <> EmptyString)
    by (apply join_nonempty; [exact H | discriminate]).
  replace (String.eqb (pathOf (x :: xs)) "/") with false.
  - unfold pathOf. cbn [String.append]. rewrite slice_tail.
    apply split_join; [now apply Forall_clean_noSlash | discriminate].
  - symmetry. apply String.eqb_neq. unfold pathOf. cbn [String.append].
    intros [= E]. now apply Hj.
Qed.

(** X1: splitting an absolute path and joining the segments with the
    separator gives the path back, and no segment holds a separator. *)
Theorem splitPath_join (p : string) :
  path.isAbsolute p = true ->
  "/" +++ JSString.join (splitPath p) "/" = p
  /\ Forall (fun seg => noSlash seg = true) (splitPath p).
Proof.
  intros Habs. destruct p as [|c s]; [discriminate|].
  cbn [path.isAbsolute] in Habs. apply Ascii.eqb_eq in Habs. subst c.
  unfold splitPath. destruct (String.eqb_spec (String "/" s) "/") as [E|_].
  - split; [now rewrite E | constructor].
  - rewrite slice_tail. split; [|apply split_segments_noSlash].
    now rewrite join_split.
Qed.

Lemma splitPath_join_witness :
  "/" +++ JSString.join (splitPath "/a//b/./c/") "/" = "/a//b/./c/"
  /\ Forall (fun seg => noSlash seg = true) (splitPath "/a//b/./c/").
Proof. apply (splitPath_join "/a//b/./c/"). reflexivity. Defined.

(** X2: the segments of a normalized path are never empty, ["."] or
    [".."]; there are none exactly for the root; and they spell the path. *)
Theorem splitPath_normalized {process : Process} (q : string) :
  path.isAbsolute cwd = true ->
  Forall (fun seg => cleanSegment seg = true) (splitPath (normalizePath q))
  /\ (splitPath (normalizePath q) = [] <-> normalizePath q = "/")
  /\ normalizePath q = "/" +++ JSString.join (splitPath (normalizePath q)) "/".
Proof.
  intros Habs. destruct (normalizePath_clean Habs q) as (segs & Hs & ->).
  rewrite (splitPath_pathOf _ Hs). split; [exact Hs | split; [|reflexivity]].
  split; [now intros -> |].
  destruct segs as [|x xs]; [reflexivity|]. intros E. exfalso.
  unfold pathOf in E. cbn [String.append] in E. injection E as E.
  change (JSString.join (x :: xs) "/" = EmptyString) in E.
  exact (join_nonempty _ Hs ltac:(discriminate) E).
Qed.

Lemma splitPath_normalized_witness :
  Forall (fun seg => cleanSegment seg = true)
         (splitPath (normalizePath (process := hostProcess) "x/../../lib//vfs/."))
  /\ (splitPath (normalizePath (process := hostProcess) "x/../../lib//vfs/.") = []
      <-> normalizePath (process := hostProcess) "x/../../lib//vfs/." = "/")
  /\ normalizePath (process := hostProcess) "x/../../lib//vfs/."
     = "/" +++ JSString.join
                 (splitPath (normalizePath (process := hostProcess)
                                           "x/../../lib//vfs/.")) "/".
Proof.
  apply (splitPath_normalized (process := hostProcess) "x/../../lib//vfs/.").
  reflexivity.
Defined.

Lemma lastIndexOfFrom_noSlash (x : string) (i found : Z) :
  noSlash x = true -> JSString.lastIndexOfFrom x "/" i found = found.
Proof.
  revert i found. induction x as [|c x IH]; intros i found H; [reflexivity|].
  simpl in H. apply andb_true_iff in H as [Hc Hx].
  apply negb_true_iff in Hc. cbn [JSString.lastIndexOfFrom].
  rewrite Hc. now apply IH.
Qed.

Lemma lastIndexOfFrom_append (a x : string) (i found : Z) :
  noSlash x = true ->
  JSString.lastIndexOfFrom (a +++ String "/" x) "/" i found
  = (i + Z.of_nat (String.length a))%Z.
Proof.
  intros Hx. revert i found. induction a as [|c a IH]; intros i found.
  - cbn [String.append JSString.lastIndexOfFrom String.length].
    rewrite Ascii.eqb_refl, lastIndexOfFrom_noSlash by exact Hx. simpl. lia.
  - cbn [String.append JSString.lastIndexOfFrom String.length].
    rewrite IH. lia.
Qed.

Lemma take_append (a b : string) : JSString.take (String.length a) (a +++ b) = a.
Proof. induction a as [|c a IH]; simpl; [now destruct b | now rewrite IH]. Qed.

Lemma slice_to (s : string) (n : nat) :
  StringPrototypeSlice s 0 (Some (Z.of_nat n)) = JSString.take n s.
Proof.
  unfold StringPrototypeSlice, JSString.slice, JSString.relativeIndex.
  change (0 <? 0)%Z with false. cbv iota.
  destruct (Z.ltb_spec (Z.of_nat n) 0) as [H|_]; [lia|].
  rewrite Nat2Z.id. change (Z.to_nat 0) with 0. cbn [Nat.min JSString.drop].
  rewrite Nat.sub_0_r.
  destruct (Nat.le_ge_cases n (String.length s)) as [Hle|Hge].
  - now rewrite Nat.min_l.
  - rewrite Nat.min_r by exact Hge.
    clear -Hge. revert n Hge. induction s as [|c s IH]; intros n Hge.
    + now destruct n.
    + destruct n as [|n]; [simpl in Hge; lia|]. simpl in *.
      f_equal. rewrite take_length. symmetry.
      rewrite <- (IH n) by lia. now rewrite take_length.
Qed.

(** The path of [init ++ [x]] is the text of [init], a separator, and [x]. *)
Lemma pathOf_snoc (init : list string) (x : string) :
  pathOf (init ++ [x])
  = match init with [] => EmptyString | _ :: _ => pathOf init end +++ String "/" x.
Proof.
  destruct init as [|y init]; [reflexivity|].
  unfold pathOf. rewrite join_append by discriminate.
  cbn [JSString.join]. now rewrite !append_assoc.
Qed.

Lemma getParentPath_snoc (init : list string) (x : string) :
  Forall (fun s => cleanSegment s = true) init ->
  cleanSegment x = true ->
  getParentPath (pathOf (init ++ [x])) = Some (pathOf init)
  /\ getBaseName (pathOf (init ++ [x])) = x.
Proof.
  intros Hi Hx. pose proof (cleanSegment_noSlash _ Hx) as Hn.
  unfold getParentPath, getBaseName, JSString.lastIndexOf.
  rewrite pathOf_snoc, lastIndexOfFrom_append by exact Hn.
  set (pre := match init with [] => EmptyString | _ :: _ => pathOf init end).
  assert (Hroot : String.eqb (pre +++ String "/" x) "/" = false).
  { apply String.eqb_neq. intros E.
    apply (f_equal String.length) in E. rewrite append_length in E.
    simpl in E. destruct x; [discriminate Hx | simpl in E; lia]. }
  rewrite Hroot. cbn [Z.add]. split.
  - destruct init as [|y init]; [reflexivity|]. subst pre.
    replace (Z.of_nat (String.length (pathOf (y :: init))) =? 0)%Z with false
      by (symmetry; apply Z.eqb_neq; unfold pathOf; simpl; lia).
    now rewrite slice_to, take_append.
  - replace (Z.of_nat (String.length pre) + 1)%Z
      with (Z.of_nat (String.length (pre +++ "/")))
      by (rewrite append_length; simpl; lia).
    rewrite slice_from by (rewrite !append_length; simpl; lia).
    change (String "/" x) with ("/" +++ x).
    rewrite <- append_assoc. apply drop_append.
Qed.

Lemma list_snoc {A : Type} (l : list A) :
  l <> [] -> exists init x, l = init ++ [x].
Proof.
  intros H. destruct (exists_last H) as (init & x & E). now exists init, x.
Qed.

(** X3: parent and base name of a normalized path.  The root has no parent;
    any other normalized path has a parent that is itself normalized, and
    its segments are those of the parent followed by its base name. *)
Theorem getParentPath_getBaseName {process : Process} (q : string) :
  path.isAbsolute cwd = true ->
  (normalizePath q = "/" -> getParentPath (normalizePath q) = None)
  /\ (normalizePath q <> "/" ->
      exists parent,
        getParentPath (normalizePath q) = Some parent
        /\ normalizePath parent = parent
        /\ splitPath (normalizePath q)
           = splitPath parent ++ [getBaseName (normalizePath q)]).
Proof.
  intros Habs. split; [now intros -> |].
  destruct (normalizePath_clean Habs q) as (segs & Hs & ->). intros Hne.
  assert (Hsegs : segs <> []) by (intros ->; now apply Hne).
  destruct (list_snoc _ Hsegs) as (init & x & ->).
  apply Forall_app in Hs as Hs'. destruct Hs' as [Hi Hx].
  inversion Hx as [|? ? Hx' _]; subst.
  destruct (getParentPath_snoc init x Hi Hx') as [Hp Hb].
  exists (pathOf init). split; [exact Hp | split].
  - now apply normalizePath_pathOf.
  - now rewrite Hb, !splitPath_pathOf.
Qed.

Lemma getParentPath_getBaseName_witness :
  exists parent,
    getParentPath (normalizePath (process := hostProcess) "/a/b/../c/d.txt")
    = Some parent
    /\ normalizePath (process := hostProcess) parent = parent
    /\ splitPath (normalizePath (process := hostProcess) "/a/b/../c/d.txt")
       = splitPath parent
         ++ [getBaseName (normalizePath (process := hostProcess) "/a/b/../c/d.txt")].
Proof.
  apply (getParentPath_getBaseName (process := hostProcess)
           "/a/b/../c/d.txt" eq_refl).
  discriminate.
Defined.

(** X4: joining a mount point with a relative path and taking the path
    relative to the mount point undo each other: the relative path comes
    back whenever it is not empty, and a path under the mount point comes
    back unless it is the mount point with a bare separator after it. *)
Theorem joinMountPath_getRelativePath (m : string) :
  (forall r, r <> EmptyString -> getRelativePath (joinMountPath m r) m = r)
  /\ (forall p, isUnderMountPoint p m = true -> p <> m +++ "/" ->
                path.isAbsolute (getRelativePath p m) = true
                /\ joinMountPath m (getRelativePath p m) = p).
Proof.
  split.
  - intros r Hr. unfold joinMountPath.
    destruct (String.eqb_spec r "/") as [->|Hne].
    + unfold getRelativePath. now rewrite String.eqb_refl.
    + unfold getRelativePath.
      replace (String.eqb (m +++ r) m) with false.
      * rewrite slice_from by (rewrite append_length; lia). apply drop_append.
      * symmetry. apply String.eqb_neq. intros E.
        apply (f_equal String.length) in E. rewrite append_length in E.
        destruct r; [congruence | simpl in E; lia].
  - intros p Hu Hp. unfold getRelativePath, joinMountPath.
    destruct (String.eqb_spec p m) as [->|Hne]; [now split|].
    apply isUnderMountPoint_iff in Hu as [E | [rest ->]]; [contradiction|].
    rewrite slice_from by (rewrite append_length; lia).
    rewrite drop_append. split; [reflexivity|].
    destruct (String.eqb_spec ("/" +++ rest) "/") as [E|_]; [|reflexivity].
    cbn [String.append] in E. injection E as ->. now destruct Hp.
Qed.

Lemma joinMountPath_getRelativePath_witness :
  getRelativePath (joinMountPath "/sea" "/assets/logo.png") "/sea"
  = "/assets/logo.png".
Proof.
  apply (proj1 (joinMountPath_getRelativePath "/sea") "/assets/logo.png").
  discriminate.
Defined.

Lemma isPrefixOf_app (ms rs : list string) : isPrefixOf ms (ms ++ rs) = true.
Proof.
  induction ms as [|m ms IH]; [reflexivity|].
  cbn [app isPrefixOf]. now rewrite String.eqb_refl, IH.
Qed.

Lemma isPrefixOf_inv (ms segs : list string) :
  isPrefixOf ms segs = true -> exists rs, segs = ms ++ rs.
Proof.
  revert segs. induction ms as [|m ms IH]; intros segs H.
  - now exists segs.
  - destruct segs as [|s segs]; [discriminate H|].
    cbn [isPrefixOf] in H. apply andb_true_iff in H as [E H].
    apply String.eqb_eq in E. subst s.
    destruct (IH _ H) as [rs ->]. now exists rs.
Qed.

Lemma append_inj_l (a b c : string) : a +++ b = a +++ c -> b = c.
Proof.
  induction a as [|x a IH]; simpl; [auto|]. intros [= E]. now apply IH.
Qed.

(** Under a mount point, by segments. *)
Lemma isUnderMountPoint_pathOf (segs ms : list string) :
  Forall (fun s => cleanSegment s = true) segs ->
  Forall (fun s => cleanSegment s = true) ms ->
  isUnderMountPoint (pathOf segs) (pathOf ms) = true
  <-> match ms with
      | [] => segs = []
      | _ :: _ => isPrefixOf ms segs = true
      end.
Proof.
  intros Hs Hm. rewrite isUnderMountPoint_iff. split.
  - intros [E | [rest E]].
    + apply (f_equal splitPath) in E. rewrite !splitPath_pathOf in E by assumption.
      subst ms. destruct segs as [|x xs]; [reflexivity|].
      pose proof (isPrefixOf_app (x :: xs) []) as H.
      now rewrite app_nil_r in H.
    + destruct ms as [|m ms].
      * destruct segs as [|x xs]; [reflexivity|]. exfalso.
        inversion Hs as [|? ? Hx _]; subst.
        unfold pathOf in E. cbn [JSString.join String.append] in E.
        injection E as E.
        destruct x as [|c x]; [discriminate Hx|].
        assert (Hc : c = "/"%char) by (destruct xs; now injection E).
        subst c. apply cleanSegment_noSlash in Hx. discriminate Hx.
      * assert (Hsegs : segs <> []).
        { intros ->. apply (f_equal String.length) in E.
          unfold pathOf in E. rewrite !append_length in E. simpl in E. lia. }
        unfold pathOf in E. rewrite append_assoc in E.
        apply append_inj_l in E.
        apply (f_equal (fun s => JSString.split s "/")) in E.
        rewrite split_join in E by (auto using Forall_clean_noSlash).
        change (JSString.join (m :: ms) "/" +++ "/" +++ rest)
          with (JSString.join (m :: ms) "/" +++ String "/" rest) in E.
        rewrite split_join_append in E
          by (auto using Forall_clean_noSlash; discriminate).
        rewrite E. apply isPrefixOf_app.
  - destruct ms as [|m ms].
    + intros ->. now left.
    + intros H. destruct (isPrefixOf_inv _ _ H) as [rs ->].
      destruct rs as [|r rs]; [left; now rewrite app_nil_r|].
      right. exists (JSString.join (r :: rs) "/").
      unfold pathOf. rewrite join_append by discriminate.
      now rewrite !append_assoc.
Qed.

(** X5: for normalized paths, lying under a mount point is a matter of
    whole segments: under a mount point other than the root are exactly the
    paths whose segments begin with those of the mount point, and under the
    root mount point is the root alone. *)
Theorem isUnderMountPoint_segments {process : Process} (q prefix : string) :
  path.isAbsolute cwd = true ->
  (normalizePath prefix = "/" ->
   (isUnderMountPoint (normalizePath q) (normalizePath prefix) = true
    <-> normalizePath q = "/"))
  /\ (normalizePath prefix <> "/" ->
      (isUnderMountPoint (normalizePath q) (normalizePath prefix) = true
       <-> isPrefixOf (splitPath (normalizePath prefix))
                      (splitPath (normalizePath q)) = true)).
Proof.
  intros Habs.
  destruct (normalizePath_clean Habs q) as (segs & Hs & ->).
  destruct (normalizePath_clean Habs prefix) as (ms & Hm & ->).
  rewrite (isUnderMountPoint_pathOf _ _ Hs Hm), !splitPath_pathOf by assumption.
  split.
  - intros E. apply (f_equal splitPath) in E.
    rewrite splitPath_pathOf in E by assumption. cbn in E. subst ms.
    split; [now intros -> |]. intros E. apply (f_equal splitPath) in E.
    now rewrite splitPath_pathOf in E.
  - intros Hne. destruct ms as [|m ms]; [now destruct Hne | reflexivity].
Qed.

Lemma isUnderMountPoint_segments_witness :
  isUnderMountPoint (normalizePath (process := hostProcess) "/sea/a/../b.txt")
                    (normalizePath (process := hostProcess) "/sea/") = true
  <-> isPrefixOf (splitPath (normalizePath (process := hostProcess) "/sea/"))
                 (splitPath (normalizePath (process := hostProcess)
                                           "/sea/a/../b.txt")) = true.
Proof.
  apply (isUnderMountPoint_segments (process := hostProcess)
           "/sea/a/../b.txt" "/sea/" eq_refl).
  discriminate.
Defined.

(** ** virtual_fs.js: a mount at the root *)

Lemma isUnderMountPoint_root {process : Process} (p : string) :
  path.isAbsolute cwd = true ->
  isUnderMountPoint (normalizePath p) "/" = true <-> normalizePath p = "/".
Proof.
  intros Habs. destruct (normalizePath_clean Habs p) as (segs & Hs & ->).
  change "/" with (pathOf []) at 1.
  rewrite (isUnderMountPoint_pathOf segs [] Hs (Forall_nil _)).
  split; [now intros -> |]. intros E. apply (f_equal splitPath) in E.
  now rewrite splitPath_pathOf in E.
Qed.

(** X6: an instance mounted at the root claims the root and nothing else:
    after [mount(prefix)] with a prefix that normalizes to [/],
    [shouldHandle(p)] holds only for paths that normalize to [/], and no
    other path exists in the instance, whatever its tree holds. *)
Theorem mount_at_root {process : Process}
        (w : World) (this : ObjId) (prefix p : string) :
  path.isAbsolute cwd = true ->
  kMounted (heap w this) || kOverlay (heap w this) = false ->
  normalizePath prefix = "/" ->
  let this' := heap (fst (mount this prefix w)) this in
  (shouldHandle this' p = true <-> normalizePath p = "/")
  /\ (normalizePath p <> "/" ->
      existsSync this' p = false /\ internalModuleStat this' p = (-2)%Z).
Proof.
  intros Habs Hin Hroot this'. subst this'.
  rewrite (mount_inactive this prefix w this Hin), Nat.eqb_refl, Hroot.
  set (v := setMode (heap w this) (Some "/") true false).
  split.
  - unfold shouldHandle. cbn [v setMode kMounted kOverlay kMountPoint negb andb].
    change (JSString.truthy "/") with true. cbv iota.
    now apply isUnderMountPoint_root.
  - intros Hne. unfold existsSync, internalModuleStat.
    rewrite (_resolveEntry_mounted v p "/" eq_refl eq_refl eq_refl).
    destruct (isUnderMountPoint (normalizePath p) "/") eqn:E; [|now split].
    apply (isUnderMountPoint_root p Habs) in E. contradiction.
Qed.

Lemma mount_at_root_witness :
  existsSync (process := hostProcess)
             (heap (fst (mount (process := hostProcess) 0 "/" sampleUnmounted)) 0)
             "/a.txt" = false
  /\ internalModuleStat (process := hostProcess)
       (heap (fst (mount (process := hostProcess) 0 "/" sampleUnmounted)) 0)
       "/a.txt" = (-2)%Z.
Proof.
  apply (mount_at_root (process := hostProcess) sampleUnmounted 0 "/" "/a.txt"
           eq_refl eq_refl eq_refl).
  discriminate.
Defined.

(** ** The entry tree: one entry per name *)

Lemma namesUnique_NoDup (names : list string) :
  namesUnique names = true <-> NoDup names.
Proof.
  induction names as [|n rest IH]; [split; [constructor | reflexivity]|].
  cbn [namesUnique]. rewrite andb_true_iff, negb_true_iff, IH. split.
  - intros [Hn Hr]. constructor; [|exact Hr]. intros Hin.
    assert (existsb (String.eqb n) rest = true)
      by (apply existsb_exists; exists n; split; [exact Hin | apply String.eqb_refl]).
    congruence.
  - intros H. inversion H as [|? ? Hn Hr]; subst. split; [|exact Hr].
    destruct (existsb (String.eqb n) rest) eqn:E; [|reflexivity].
    apply existsb_exists in E as (m & Hin & E). apply String.eqb_eq in E.
    now subst m.
Qed.

Lemma wellFormed_directory (p : string) (entries : list (string * VirtualEntry)) :
  wellFormed (VirtualDirectory p entries) = true
  <-> NoDup (SafeMap.keys entries)
      /\ Forall (fun kv => wellFormed (snd kv) = true) entries.
Proof.
  cbn [wellFormed]. rewrite andb_true_iff, namesUnique_NoDup.
  apply and_iff_compat_l.
  induction entries as [|[k child] entries IH].
  - split; [constructor | reflexivity].
  - rewrite andb_true_iff, IH. split.
    + intros [Hc Ha]. now constructor.
    + intros H. now inversion H.
Qed.

Lemma SafeMap_get_In {A : Type} (m : list (string * A)) (k : string) (a : A) :
  SafeMap.get m k = Some a -> In (k, a) m.
Proof.
  induction m as [|[k' a'] m IH]; simpl; [discriminate|].
  destruct (String.eqb_spec k' k) as [->|_].
  - intros [= ->]. now left.
  - intros H. right. now apply IH.
Qed.

Lemma SafeMap_get_keys {A : Type} (m : list (string * A)) (k : string) :
  In k (SafeMap.keys m) <-> exists a, SafeMap.get m k = Some a.
Proof.
  induction m as [|[k' a'] m IH]; simpl.
  - split; [contradiction | intros [a H]; discriminate].
  - destruct (String.eqb_spec k' k) as [->|Hne].
    + split; [intros _; now exists a' | now left].
    + rewrite <- IH. split; [intros [E|H]; [contradiction | exact H] | now right].
Qed.

Lemma SafeMap_keys_set {A : Type} (m : list (string * A)) (k : string) (a : A) :
  SafeMap.keys (SafeMap.set m k a)
  = match SafeMap.get m k with
    | Some _ => SafeMap.keys m
    | None => SafeMap.keys m ++ [k]
    end.
Proof.
  induction m as [|[k' a'] m IH]; simpl; [reflexivity|].
  destruct (String.eqb_spec k' k) as [->|Hne]; simpl; [reflexivity|].
  rewrite IH. now destruct (SafeMap.get m k).
Qed.

Lemma SafeMap_set_In {A : Type} (m : list (string * A)) (k : string) (a : A)
      (kv : string * A) :
  In kv (SafeMap.set m k a) -> kv = (k, a) \/ In kv m.
Proof.
  induction m as [|[k' a'] m IH]; simpl.
  - intros [<-|[]]. now left.
  - destruct (String.eqb k' k); simpl.
    + intros [<-|H]; [now left | right; now right].
    + intros [<-|H]; [right; now left|].
      destruct (IH H) as [E|H']; [now left | right; now right].
Qed.

Lemma SafeMap_delete_In {A : Type} (m : list (string * A)) (k : string)
      (kv : string * A) :
  In kv (fst (SafeMap.delete m k)) -> In kv m.
Proof.
  induction m as [|[k' a'] m IH]; simpl; [auto|].
  destruct (String.eqb k' k); simpl; [now right|].
  destruct (SafeMap.delete m k) as [m' found]. simpl in *.
  intros [<-|H]; [now left | right; now apply IH].
Qed.

Lemma SafeMap_delete_keys {A : Type} (m : list (string * A)) (k : string) :
  NoDup (SafeMap.keys m) ->
  NoDup (SafeMap.keys (fst (SafeMap.delete m k)))
  /\ ~ In k (SafeMap.keys (fst (SafeMap.delete m k))).
Proof.
  induction m as [|[k' a'] m IH]; simpl; intros H;
    [split; [constructor | auto]|].
  inversion H as [|? ? Hk Hm]; subst.
  destruct (String.eqb_spec k' k) as [->|Hne]; simpl; [now split|].
  destruct (IH Hm) as [Hn Hnot].
  destruct (SafeMap.delete m k) as [m' found] eqn:E. simpl in *.
  split.
  - constructor; [|exact Hn]. intros Hin. apply Hk.
    apply in_map_iff in Hin as ([k0 a0] & <- & Hin).
    apply in_map_iff. exists (k0, a0). split; [reflexivity|].
    apply (SafeMap_delete_In m k). now rewrite E.
  - intros [E'|Hin]; [contradiction | now apply Hnot].
Qed.

(** [delete] answers whether the key was there, and changes nothing when it
    was not. *)
Lemma SafeMap_delete_found {A : Type} (m : list (string * A)) (k : string) :
  snd (SafeMap.delete m k) = isSome (SafeMap.get m k)
  /\ (snd (SafeMap.delete m k) = false -> fst (SafeMap.delete m k) = m).
Proof.
  induction m as [|[k' a'] m IH]; simpl; [now split|].
  destruct (String.eqb k' k); simpl; [split; [reflexivity | discriminate]|].
  destruct (SafeMap.delete m k) as [m' found]. simpl in *.
  destruct IH as [E Hsame]. split; [exact E|].
  intros Hf. now rewrite Hsame.
Qed.

Lemma wellFormed_getEntry (dir child : VirtualEntry) (name : string) :
  wellFormed dir = true -> getEntry dir name = Some child ->
  wellFormed child = true.
Proof.
  destruct dir as [|p entries]; [discriminate 2|].
  intros H Hg. apply wellFormed_directory in H as [_ Hall].
  cbn [getEntry] in Hg. apply SafeMap_get_In in Hg.
  rewrite Forall_forall in Hall. exact (Hall _ Hg).
Qed.

Lemma wellFormed_addEntry (dir entry : VirtualEntry) (name : string) :
  wellFormed dir = true -> wellFormed entry = true ->
  wellFormed (addEntry dir name entry) = true.
Proof.
  destruct dir as [|p entries]; [auto|]. intros H He.
  apply wellFormed_directory in H as [Hn Hall]. cbn [addEntry].
  apply wellFormed_directory. split.
  - rewrite SafeMap_keys_set.
    destruct (SafeMap.get entries name) eqn:E; [exact Hn|].
    apply NoDup_app; [exact Hn | repeat constructor; auto |].
    intros x Hx [<-|[]]. apply SafeMap_get_keys in Hx as [a Ha]. congruence.
  - apply Forall_forall. intros kv Hin.
    destruct (SafeMap_set_In _ _ _ _ Hin) as [->|Hin']; [exact He|].
    rewrite Forall_forall in Hall. now apply Hall.
Qed.

Lemma wellFormed_removeEntry (dir : VirtualEntry) (name : string) :
  wellFormed dir = true -> wellFormed (fst (removeEntry dir name)) = true.
Proof.
  destruct dir as [|p entries]; [auto|]. intros H.
  apply wellFormed_directory in H as [Hn Hall]. cbn [removeEntry].
  pose proof (SafeMap_delete_keys entries name Hn) as [Hn' _].
  pose proof (SafeMap_delete_In entries name) as Hin.
  destruct (SafeMap.delete entries name) as [entries' found]. cbn [fst] in *.
  apply wellFormed_directory. split; [exact Hn'|].
  apply Forall_forall. intros kv Hkv.
  rewrite Forall_forall in Hall. apply Hall. now apply Hin.
Qed.

Lemma wellFormed_resolveSegments (segments : list string)
      (root entry : VirtualEntry) :
  wellFormed root = true -> resolveSegments root segments = Some entry ->
  wellFormed entry = true.
Proof.
  revert root. induction segments as [|s segments IH]; intros root H Hr.
  - cbn in Hr. now injection Hr as <-.
  - cbn [resolveSegments] in Hr.
    destruct (negb (isDirectory root)); [discriminate Hr|].
    destruct (getEntry root s) as [child|] eqn:Hg; [|discriminate Hr].
    apply (IH child); [|exact Hr]. exact (wellFormed_getEntry _ _ _ H Hg).
Qed.

Lemma wellFormed_storeAt (place : list string) (root entry : VirtualEntry) :
  wellFormed root = true -> wellFormed entry = true ->
  wellFormed (storeAt root place entry) = true.
Proof.
  revert root. induction place as [|s place IH]; intros root H He; [exact He|].
  cbn [storeAt]. destruct (getEntry root s) as [child|] eqn:Hg; [|exact H].
  apply wellFormed_addEntry; [exact H|].
  apply IH; [|exact He]. exact (wellFormed_getEntry _ _ _ H Hg).
Qed.

Lemma wellFormed_addFileLoop (segments done : list string)
      (current file : VirtualEntry) :
  wellFormed current = true -> wellFormed file = true ->
  wellFormed (fst (addFileLoop current done segments file)) = true.
Proof.
  revert done current.
  induction segments as [|segment rest IH]; intros done current H Hf; [exact H|].
  destruct rest as [|segment' rest'].
  - rewrite addFileLoop_last. destruct (isDirectory current); [|exact H].
    now apply wellFormed_addEntry.
  - rewrite addFileLoop_step by discriminate.
    destruct (negb (isDirectory current)); [exact H|].
    destruct (getEntry current segment) as [entry|] eqn:Hg.
    + destruct (negb (isDirectory entry)); [exact H|]. cbn [fst].
      apply wellFormed_addEntry; [exact H|].
      apply IH; [|exact Hf]. exact (wellFormed_getEntry _ _ _ H Hg).
    + cbn [fst]. apply wellFormed_addEntry.
      * now apply wellFormed_addEntry.
      * now apply IH.
Qed.

Lemma pathOf_root (segments : list string) :
  Forall (fun s => cleanSegment s = true) segments ->
  pathOf segments = "/" <-> segments = [].
Proof.
  intros Hs. split; [|now intros ->].
  destruct segments as [|x xs]; [reflexivity|]. intros E. exfalso.
  unfold pathOf in E. cbn [String.append] in E. injection E as E.
  change (JSString.join (x :: xs) "/" = EmptyString) in E.
  exact (join_nonempty _ Hs ltac:(discriminate) E).
Qed.

Lemma treeLookup_pathOf (root : VirtualEntry) (segments : list string) :
  Forall (fun s => cleanSegment s = true) segments ->
  treeLookup root (pathOf segments) = resolveSegments root segments.
Proof.
  intros Hs. unfold treeLookup.
  destruct (String.eqb_spec (pathOf segments) "/") as [E|_].
  - apply (pathOf_root _ Hs) in E. now subst.
  - now rewrite (splitPath_pathOf _ Hs).
Qed.

Lemma resolveSegments_app (init : list string) (x : string) (root : VirtualEntry) :
  resolveSegments root (init ++ [x])
  = match resolveSegments root init with
    | None => None
    | Some parent =>
        if negb (isDirectory parent) then None else getEntry parent x
    end.
Proof.
  revert root. induction init as [|s init IH]; intros root.
  - cbn [app resolveSegments]. destruct (negb (isDirectory root)); [reflexivity|].
    now destruct (getEntry root x).
  - cbn [app resolveSegments]. destruct (negb (isDirectory root)); [reflexivity|].
    destruct (getEntry root s); [apply IH | reflexivity].
Qed.

Lemma resolveSegments_storeAt (place : list string)
      (root old entry : VirtualEntry) :
  resolveSegments root place = Some old ->
  resolveSegments (storeAt root place entry) place = Some entry.
Proof.
  revert root. induction place as [|s place IH]; intros root H; [reflexivity|].
  cbn [resolveSegments] in H. cbn [storeAt].
  destruct (isDirectory root) eqn:Hd; [|discriminate H]. cbn [negb] in H.
  destruct (getEntry root s) as [child|] eqn:Hg; [|discriminate H].
  cbn [resolveSegments]. rewrite isDirectory_addEntry, Hd. cbn [negb].
  rewrite (getEntry_addEntry _ _ _ Hd). now apply IH.
Qed.

Lemma getEntry_removeEntry_same (dir : VirtualEntry) (name : string) :
  wellFormed dir = true -> getEntry (fst (removeEntry dir name)) name = None.
Proof.
  destruct dir as [|p entries]; [reflexivity|]. intros H.
  apply wellFormed_directory in H as [Hn _]. cbn [removeEntry].
  pose proof (SafeMap_delete_keys entries name Hn) as [_ Hnot].
  destruct (SafeMap.delete entries name) as [entries' found]. cbn [fst getEntry] in *.
  destruct (SafeMap.get entries' name) eqn:E; [|reflexivity].
  exfalso. apply Hnot. apply SafeMap_get_keys. eauto.
Qed.

Lemma removeEntry_found (dir : VirtualEntry) (name : string) :
  snd (removeEntry dir name) = isSome (getEntry dir name)
  /\ (snd (removeEntry dir name) = false -> fst (removeEntry dir name) = dir).
Proof.
  destruct dir as [|p entries]; [now split|]. cbn [removeEntry getEntry].
  pose proof (SafeMap_delete_found entries name) as [E Hsame].
  destruct (SafeMap.delete entries name) as [entries' found]. cbn [fst snd] in *.
  split; [exact E|]. intros Hf. now rewrite (Hsame Hf).
Qed.

Lemma storeAt_same (place : list string) (root entry : VirtualEntry) :
  resolveSegments root place = Some entry -> storeAt root place entry = root.
Proof.
  revert root. induction place as [|s place IH]; intros root H.
  - cbn in H. now injection H as ->.
  - cbn [resolveSegments] in H. cbn [storeAt].
    destruct (negb (isDirectory root)); [discriminate H|].
    destruct (getEntry root s) as [child|] eqn:Hg; [|reflexivity].
    rewrite (IH _ H). now apply addEntry_same.
Qed.

Lemma setRoot_same (this : VirtualFileSystem) : setRoot this (kRoot this) = this.
Proof. now destruct this. Qed.

Section TreeFacts.

Context {process : Process}.
Hypothesis cwd_absolute : path.isAbsolute cwd = true.

(** Resolution in an instance that is not mounted walks the segments of the
    normalized path from the root. *)
Lemma _resolveEntry_segments (this : VirtualFileSystem) (p : string) :
  kMounted this = false ->
  _resolveEntry this p = resolveSegments (kRoot this) (splitPath (normalizePath p))
  /\ entryLocation this p = splitPath (normalizePath p).
Proof.
  intros Hm. destruct (normalizePath_clean cwd_absolute p) as (segs & Hs & E).
  split.
  - rewrite (_resolveEntry_unmounted _ _ Hm), E, (splitPath_pathOf _ Hs).
    now apply treeLookup_pathOf.
  - unfold entryLocation, vfsPathOf. rewrite Hm.
    assert (Some (normalizePath p)
            = match kMountPoint this with
              | Some mountPoint =>
                  if false && JSString.truthy mountPoint
                  then if negb (isUnderMountPoint (normalizePath p) mountPoint)
                       then None
                       else Some (getRelativePath (normalizePath p) mountPoint)
                  else Some (normalizePath p)
              | None => Some (normalizePath p)
              end) as <- by now destruct (kMountPoint this).
    rewrite E. destruct (String.eqb_spec (pathOf segs) "/") as [E'|_];
      [|reflexivity].
    apply (pathOf_root _ Hs) in E'. now subst.
Qed.

(** A path other than the root is its parent and its base name. *)
Lemma normalizePath_parent (p : string) :
  normalizePath p <> "/" ->
  exists init x,
    Forall (fun s => cleanSegment s = true) init /\ cleanSegment x = true
    /\ normalizePath p = pathOf (init ++ [x])
    /\ splitPath (normalizePath p) = init ++ [x]
    /\ getParentPath (normalizePath p) = Some (pathOf init)
    /\ getBaseName (normalizePath p) = x
    /\ normalizePath (pathOf init) = pathOf init
    /\ splitPath (pathOf init) = init.
Proof.
  intros Hne. destruct (normalizePath_clean cwd_absolute p) as (segs & Hs & E).
  destruct (list_snoc segs) as (init & x & ->).
  { intros ->. now apply Hne. }
  apply Forall_app in Hs as Hs'. destruct Hs' as [Hi Hx].
  inversion Hx as [|? ? Hx' _]; subst.
  destruct (getParentPath_snoc init x Hi Hx') as [Hp Hb].
  exists init, x. rewrite E, Hp, Hb, (splitPath_pathOf _ Hs),
    (splitPath_pathOf _ Hi), (normalizePath_pathOf _ Hi).
  repeat split; assumption.
Qed.

End TreeFacts.

(** ** virtual_fs.js: remove *)

Lemma entryLocation_resolve {process : Process}
      (this : VirtualFileSystem) (p : string) (entry : VirtualEntry) :
  _resolveEntry this p = Some entry ->
  resolveSegments (kRoot this) (entryLocation this p) = Some entry.
Proof.
  unfold _resolveEntry, entryLocation.
  destruct (vfsPathOf this (normalizePath p)) as [vfsPath|]; [|discriminate].
  now destruct (String.eqb vfsPath "/").
Qed.

Lemma remove_root {process : Process} (this : VirtualFileSystem) (p : string) :
  normalizePath p = "/" -> remove this p = (this, false).
Proof. intros E. unfold remove. now rewrite E. Qed.

Lemma remove_unchanged {process : Process} (this : VirtualFileSystem) (p : string) :
  snd (remove this p) = false -> fst (remove this p) = this.
Proof.
  unfold remove.
  destruct (getParentPath (normalizePath p)) as [parentPath|]; [|reflexivity].
  destruct (_resolveEntry this parentPath) as [parent|] eqn:Hr; [|reflexivity].
  destruct (negb (isDirectory parent)); [reflexivity|].
  pose proof (removeEntry_found parent (getBaseName (normalizePath p)))
    as [_ Hsame].
  destruct (removeEntry parent (getBaseName (normalizePath p)))
    as [parent' removed]. cbn [fst snd] in *.
  intros ->. rewrite (Hsame eq_refl).
  rewrite (storeAt_same _ _ _ (entryLocation_resolve _ _ _ Hr)).
  apply setRoot_same.
Qed.

(** X7: [remove] that returns false has changed nothing, in whatever mode
    the instance is; and the root is never removed: for a path that
    normalizes to ["/"] the call returns false. *)
Theorem remove_false_unchanged {process : Process}
        (this : VirtualFileSystem) (p : string) :
  (snd (remove this p) = false -> fst (remove this p) = this)
  /\ (normalizePath p = "/" -> remove this p = (this, false)).
Proof. split; [apply remove_unchanged | apply remove_root]. Qed.

Lemma remove_false_unchanged_witness :
  fst (remove (process := hostProcess) (heap sampleUnmounted 0) "/docs/missing.md")
  = heap sampleUnmounted 0.
Proof.
  apply (remove_false_unchanged (process := hostProcess)
                                (heap sampleUnmounted 0) "/docs/missing.md").
  reflexivity.
Defined.

Lemma remove_unmounted {process : Process}
      (this : VirtualFileSystem) (p : string) :
  path.isAbsolute cwd = true ->
  kMounted this = false ->
  wellFormed (kRoot this) = true ->
  normalizePath p <> "/" ->
  snd (remove this p) = existsSync this p
  /\ existsSync (fst (remove this p)) p = false
  /\ wellFormed (kRoot (fst (remove this p))) = true.
Proof.
  intros Habs Hm Hwf Hne.
  destruct (normalizePath_parent Habs p Hne)
    as (init & x & Hi & Hx & E & Es & Hp & Hb & En & Esp).
  assert (forall that, kMounted that = false ->
            existsSync that p = isSome (resolveSegments (kRoot that) (init ++ [x])))
    as Hex.
  { intros that Hthat. unfold existsSync.
    destruct (_resolveEntry_segments Habs that p Hthat) as [-> _].
    rewrite Es. now destruct (resolveSegments (kRoot that) (init ++ [x])). }
  unfold remove. rewrite Hp, Hb.
  destruct (_resolveEntry_segments Habs this (pathOf init) Hm) as [Hr Hl].
  rewrite En, Esp in Hr, Hl. rewrite Hr, Hl.
  rewrite (Hex this Hm), resolveSegments_app.
  destruct (resolveSegments (kRoot this) init) as [parent|] eqn:Hpar.
  2:{ cbn [fst snd]. rewrite (Hex this Hm), resolveSegments_app, Hpar.
      now repeat split. }
  destruct (isDirectory parent) eqn:Hd; cbn [negb].
  2:{ cbn [fst snd]. rewrite (Hex this Hm), resolveSegments_app, Hpar, Hd.
      now repeat split. }
  pose proof (wellFormed_resolveSegments _ _ _ Hwf Hpar) as Hwp.
  pose proof (removeEntry_found parent x) as [Hfound _].
  pose proof (getEntry_removeEntry_same parent x Hwp) as Hgone.
  pose proof (isDirectory_removeEntry parent x) as Hd'.
  pose proof (wellFormed_removeEntry parent x Hwp) as Hwp'.
  destruct (removeEntry parent x) as [parent' removed]. cbn [fst snd] in *.
  split; [exact Hfound|]. split.
  - rewrite Hex by exact Hm. cbn [kRoot setRoot].
    rewrite resolveSegments_app, (resolveSegments_storeAt _ _ _ parent' Hpar).
    now rewrite Hd', Hd, Hgone.
  - cbn [kRoot setRoot]. now apply wellFormed_storeAt.
Qed.

(** X8: in an instance that is not mounted, [remove] of a path other than
    the root returns whether the path existed, and afterwards the path does
    not exist. *)
Theorem remove_then_absent {process : Process}
        (this : VirtualFileSystem) (p : string) :
  path.isAbsolute cwd = true ->
  isMounted this = false ->
  wellFormed (kRoot this) = true ->
  normalizePath p <> "/" ->
  snd (remove this p) = existsSync this p
  /\ existsSync (fst (remove this p)) p = false.
Proof.
  intros Habs Hm Hwf Hne.
  destruct (remove_unmounted this p Habs Hm Hwf Hne) as (H1 & H2 & _).
  now split.
Qed.

Lemma remove_then_absent_witness :
  snd (remove (process := hostProcess) (heap sampleUnmounted 0) "/docs/")
  = existsSync (process := hostProcess) (heap sampleUnmounted 0) "/docs/"
  /\ existsSync (process := hostProcess)
                (fst (remove (process := hostProcess) (heap sampleUnmounted 0) "/docs/"))
                "/docs/" = false.
Proof.
  apply (remove_then_absent (process := hostProcess) (heap sampleUnmounted 0) "/docs/");
    [reflexivity | reflexivity | reflexivity | discriminate].
Defined.

(** ** virtual_fs.js: addDirectory *)

Lemma isReturn_unit (o : Outcome unit) :
  (isReturn o = true <-> o = Return tt)
  /\ (isReturn o = false <-> exists e, o = Throw e).
Proof.
  destruct o as [[]|e]; cbn; repeat split; try congruence; eauto.
  intros [e' H]. discriminate H.
Qed.

Lemma splitPath_root_length (p : string) :
  (List.length (splitPath p) =? 0)%nat = true -> splitPath p = [].
Proof. destruct (splitPath p); [reflexivity | discriminate]. Qed.

Lemma addDirectory_throw {process : Process}
      (this : VirtualFileSystem) (p : string) (e : JsError) :
  snd (addDirectory this p) = Throw e -> fst (addDirectory this p) = this.
Proof.
  unfold addDirectory.
  destruct (List.length (splitPath (normalizePath p)) =? 0)%nat; [reflexivity|].
  pose proof (addDirectoryLoop_addFileLoop (splitPath (normalizePath p)) []
                (kRoot this) (VirtualDirectory (normalizePath p) [])) as [Hf Hr].
  pose proof (addFileLoop_throw (splitPath (normalizePath p)) []
                (kRoot this) (VirtualDirectory (normalizePath p) [])) as Ht.
  destruct (addDirectoryLoop (kRoot this) [] (splitPath (normalizePath p))
              (VirtualDirectory (normalizePath p) [])) as [root r].
  cbn [fst snd] in *. intros ->. cbn [isReturn] in Hr. symmetry in Hr.
  apply isReturn_unit in Hr as [e' He']. rewrite Hf, (Ht _ He').
  apply setRoot_same.
Qed.

Lemma addDirectory_lookup {process : Process}
      (this : VirtualFileSystem) (p : string) :
  normalizePath p <> "/" ->
  snd (addDirectory this p) = Return tt ->
  resolveSegments (kRoot (fst (addDirectory this p))) (splitPath (normalizePath p))
  = Some (VirtualDirectory (normalizePath p) []).
Proof.
  intros Hne. unfold addDirectory.
  assert (Hs : splitPath (normalizePath p) <> []).
  { unfold splitPath. destruct (String.eqb_spec (normalizePath p) "/") as [E|_];
      [contradiction|].
    apply split_nonempty. }
  destruct (List.length (splitPath (normalizePath p)) =? 0)%nat eqn:Hlen.
  { apply splitPath_root_length in Hlen. contradiction. }
  pose proof (addDirectoryLoop_addFileLoop (splitPath (normalizePath p)) []
                (kRoot this) (VirtualDirectory (normalizePath p) [])) as [Hf Hr].
  pose proof (addFileLoop_found (splitPath (normalizePath p)) []
                (kRoot this) (VirtualDirectory (normalizePath p) []) Hs) as Hfound.
  destruct (addDirectoryLoop (kRoot this) [] (splitPath (normalizePath p))
              (VirtualDirectory (normalizePath p) [])) as [root r].
  cbn [fst snd kRoot setRoot] in *. intros ->. cbn [isReturn] in Hr.
  symmetry in Hr. apply isReturn_unit in Hr. rewrite Hf. now apply Hfound.
Qed.

(** X9: [addDirectory] at the root does nothing and returns; a call that
    throws leaves the instance as it was; and after a call that returns, in
    an instance that is not mounted, the path is a directory without
    entries, also when a directory with entries was there before. *)
Theorem addDirectory_specification {process : Process}
        (this : VirtualFileSystem) (p : string) :
  path.isAbsolute cwd = true ->
  (normalizePath p = "/" -> addDirectory this p = (this, Return tt))
  /\ (forall e, snd (addDirectory this p) = Throw e ->
                fst (addDirectory this p) = this)
  /\ (normalizePath p <> "/" ->
      isMounted this = false ->
      snd (addDirectory this p) = Return tt ->
      existsSync (fst (addDirectory this p)) p = true
      /\ internalModuleStat (fst (addDirectory this p)) p = 1%Z
      /\ forall withFileTypes,
          readdirSync (fst (addDirectory this p)) p withFileTypes
          = Return (if withFileTypes then Dirents [] else Names [])).
Proof.
  intros Habs. split; [|split].
  - intros E. unfold addDirectory. now rewrite E.
  - intros e. apply addDirectory_throw.
  - intros Hne Hm Hret.
    pose proof (addDirectory_lookup this p Hne Hret) as Hl.
    assert (kMounted (fst (addDirectory this p)) = false) as Hm'.
    { unfold addDirectory.
      destruct (List.length (splitPath (normalizePath p)) =? 0)%nat; [exact Hm|].
      now destruct (addDirectoryLoop (kRoot this) [] (splitPath (normalizePath p))
                      (VirtualDirectory (normalizePath p) [])). }
    destruct (_resolveEntry_segments Habs _ p Hm') as [Hr _].
    unfold existsSync, internalModuleStat, readdirSync. rewrite Hr, Hl.
    repeat split. now intros [|].
Qed.

Lemma addDirectory_specification_witness :
  snd (addDirectory (process := hostProcess) (heap sampleUnmounted 0) "/docs")
  = Return tt
  /\ readdirSync (process := hostProcess) (heap sampleUnmounted 0) "/docs" false
     = Return (Names ["readme.md"; "lazy.bin"])
  /\ readdirSync (process := hostProcess)
                 (fst (addDirectory (process := hostProcess)
                                    (heap sampleUnmounted 0) "/docs"))
                 "/docs" false
     = Return (Names []).
Proof.
  split; [reflexivity | split; [reflexivity|]].
  destruct (addDirectory_specification (process := hostProcess)
              (heap sampleUnmounted 0) "/docs" eq_refl) as (_ & _ & H).
  destruct (H ltac:(discriminate) eq_refl eq_refl) as (_ & _ & Hl).
  exact (Hl false).
Defined.

(** ** virtual_fs.js: listings *)

Section ListingFacts.

Context {process : Process}.

Lemma addFile_wellFormed (this : VirtualFileSystem) (p : string) (c : ContentSource) :
  wellFormed (kRoot this) = true ->
  wellFormed (kRoot (fst (addFile this p c))) = true.
Proof.
  intros H. unfold addFile.
  destruct (List.length (splitPath (normalizePath p)) =? 0)%nat; [exact H|].
  pose proof (wellFormed_addFileLoop (splitPath (normalizePath p)) []
                (kRoot this) (VirtualFile (normalizePath p) c) H eq_refl) as Hw.
  now destruct (addFileLoop (kRoot this) [] (splitPath (normalizePath p))
                  (VirtualFile (normalizePath p) c)).
Qed.

Lemma addDirectory_wellFormed (this : VirtualFileSystem) (p : string) :
  wellFormed (kRoot this) = true ->
  wellFormed (kRoot (fst (addDirectory this p))) = true.
Proof.
  intros H. unfold addDirectory.
  destruct (List.length (splitPath (normalizePath p)) =? 0)%nat; [exact H|].
  pose proof (wellFormed_addFileLoop (splitPath (normalizePath p)) []
                (kRoot this) (VirtualDirectory (normalizePath p) []) H eq_refl)
    as Hw.
  pose proof (addDirectoryLoop_addFileLoop (splitPath (normalizePath p)) []
                (kRoot this) (VirtualDirectory (normalizePath p) [])) as [Hf _].
  destruct (addDirectoryLoop (kRoot this) [] (splitPath (normalizePath p))
              (VirtualDirectory (normalizePath p) [])) as [root r].
  cbn [fst kRoot setRoot] in *. now rewrite Hf.
Qed.

Lemma _resolveEntry_wellFormed (this : VirtualFileSystem) (p : string)
      (entry : VirtualEntry) :
  wellFormed (kRoot this) = true -> _resolveEntry this p = Some entry ->
  wellFormed entry = true.
Proof.
  intros H Hr. apply entryLocation_resolve in Hr.
  exact (wellFormed_resolveSegments _ _ _ H Hr).
Qed.

Lemma remove_wellFormed (this : VirtualFileSystem) (p : string) :
  wellFormed (kRoot this) = true ->
  wellFormed (kRoot (fst (remove this p))) = true.
Proof.
  intros H. unfold remove.
  destruct (getParentPath (normalizePath p)) as [parentPath|]; [|exact H].
  destruct (_resolveEntry this parentPath) as [parent|] eqn:Hr; [|exact H].
  destruct (negb (isDirectory parent)); [exact H|].
  pose proof (wellFormed_removeEntry parent (getBaseName (normalizePath p))
                (_resolveEntry_wellFormed _ _ _ H Hr)) as Hw.
  destruct (removeEntry parent (getBaseName (normalizePath p)))
    as [parent' removed].
  cbn [fst kRoot setRoot] in *. now apply wellFormed_storeAt.
Qed.

Lemma treeCall_wellFormed (this : VirtualFileSystem) (c : TreeCall) :
  wellFormed (kRoot this) = true -> wellFormed (kRoot (treeCall this c)) = true.
Proof.
  destruct c; cbn [treeCall];
    [apply addFile_wellFormed | apply addDirectory_wellFormed
     | apply remove_wellFormed].
Qed.

Lemma treeCalls_wellFormed (calls : list TreeCall) (this : VirtualFileSystem) :
  wellFormed (kRoot this) = true ->
  wellFormed (kRoot (fold_left treeCall calls this)) = true.
Proof.
  revert this. induction calls as [|c calls IH]; intros this H; [exact H|].
  cbn [fold_left]. apply IH. now apply treeCall_wellFormed.
Qed.

Lemma treeCall_mode (this : VirtualFileSystem) (c : TreeCall) :
  kMountPoint (treeCall this c) = kMountPoint this
  /\ kMounted (treeCall this c) = kMounted this
  /\ kOverlay (treeCall this c) = kOverlay this
  /\ kFallthrough (treeCall this c) = kFallthrough this.
Proof.
  destruct c as [p c|p|p]; cbn [treeCall].
  - unfold addFile.
    destruct (List.length (splitPath (normalizePath p)) =? 0)%nat;
      [now repeat split|].
    now destruct (addFileLoop (kRoot this) [] (splitPath (normalizePath p))
                    (VirtualFile (normalizePath p) c)).
  - unfold addDirectory.
    destruct (List.length (splitPath (normalizePath p)) =? 0)%nat;
      [now repeat split|].
    now destruct (addDirectoryLoop (kRoot this) [] (splitPath (normalizePath p))
                    (VirtualDirectory (normalizePath p) [])).
  - unfold remove.
    destruct (getParentPath (normalizePath p)) as [parentPath|];
      [|now repeat split].
    destruct (_resolveEntry this parentPath) as [parent|]; [|now repeat split].
    destruct (negb (isDirectory parent)); [now repeat split|].
    now destruct (removeEntry parent (getBaseName (normalizePath p))).
Qed.

Lemma direntsLoop_listed (entry : VirtualEntry) (dirPath : string)
      (names : list string) :
  Forall (fun name => getEntry entry name <> None) names ->
  exists dirents,
    direntsLoop entry names dirPath = Return dirents
    /\ map dirent_name dirents = names
    /\ Forall (fun d =>
                 dirent_path d = dirPath
                 /\ exists child,
                     getEntry entry (dirent_name d) = Some child
                     /\ dirent_type d = if isDirectory child
                                        then UV_DIRENT_DIR else UV_DIRENT_FILE)
              dirents.
Proof.
  induction names as [|name names IH]; intros H.
  - exists []. now repeat split.
  - inversion H as [|? ? Hn Hrest]; subst.
    destruct (IH Hrest) as (dirents & E & Hmap & Hall).
    cbn [direntsLoop]. rewrite E.
    destruct (getEntry entry name) as [child|] eqn:Hg; [|congruence].
    eexists. split; [reflexivity|]. cbn [map dirent_name]. rewrite Hmap.
    split; [reflexivity|]. constructor; [|exact Hall].
    cbn [dirent_path dirent_name dirent_type]. split; [reflexivity|].
    exists child. now split.
Qed.

Lemma getEntryNames_present (entry : VirtualEntry) :
  Forall (fun name => getEntry entry name <> None) (getEntryNames entry).
Proof.
  apply Forall_forall. intros name Hin.
  destruct entry as [|p entries]; [contradiction|].
  cbn [getEntryNames getEntry] in *.
  apply SafeMap_get_keys in Hin as [a ->]. discriminate.
Qed.

End ListingFacts.

(** X10: from a new instance, whatever files and directories are added and
    removed, a listing by [readdirSync] never has a name twice. *)
Theorem readdirSync_distinct_names {process : Process}
        (options : option bool) (calls : list TreeCall)
        (dirPath : string) (names : list string) :
  readdirSync (fold_left treeCall calls (newVirtualFileSystem options))
              dirPath false = Return (Names names) ->
  NoDup names.
Proof.
  pose proof (treeCalls_wellFormed calls (newVirtualFileSystem options) eq_refl)
    as Hwf.
  unfold readdirSync.
  destruct (_resolveEntry _ dirPath) as [entry|] eqn:Hr; [|discriminate].
  destruct (negb (isDirectory entry)); [discriminate|].
  cbn [listEntries]. intros [= <-].
  pose proof (_resolveEntry_wellFormed _ _ _ Hwf Hr) as Hw.
  destruct entry as [|p entries]; [constructor|].
  now apply wellFormed_directory in Hw as [Hn _].
Qed.

Lemma readdirSync_distinct_names_witness :
  NoDup ["a.txt"; "docs"].
Proof.
  apply (readdirSync_distinct_names (process := hostProcess) None
           [ TreeAddFile "/a.txt" (FixedBytes "one");
             TreeAddDirectory "/docs";
             TreeAddFile "/a.txt" (FixedBytes "two");
             TreeAddFile "/docs/b.txt" (FixedBytes "b");
             TreeRemove "/docs/b.txt" ]
           "/" ["a.txt"; "docs"]).
  reflexivity.
Defined.

(** X11: a listing with file types never fails where the listing of names
    succeeds: it has one [Dirent] for each name, in the same order, tagged
    as a directory or a file as the child of that name is, and carrying the
    path that was asked for. *)
Theorem readdirSync_withFileTypes {process : Process}
        (this : VirtualFileSystem) (dirPath : string) (names : list string) :
  readdirSync this dirPath false = Return (Names names) ->
  exists entry dirents,
    _resolveEntry this dirPath = Some entry
    /\ readdirSync this dirPath true = Return (Dirents dirents)
    /\ map dirent_name dirents = names
    /\ Forall (fun d =>
                 dirent_path d = dirPath
                 /\ exists child,
                     getEntry entry (dirent_name d) = Some child
                     /\ dirent_type d = if isDirectory child
                                        then UV_DIRENT_DIR else UV_DIRENT_FILE)
              dirents.
Proof.
  unfold readdirSync.
  destruct (_resolveEntry this dirPath) as [entry|]; [|discriminate].
  destruct (negb (isDirectory entry)); [discriminate|].
  cbn [listEntries]. intros [= <-].
  destruct (direntsLoop_listed entry dirPath _ (getEntryNames_present entry))
    as (dirents & E & Hmap & Hall).
  exists entry, dirents. rewrite E. now repeat split.
Qed.

Lemma readdirSync_withFileTypes_witness :
  exists entry dirents,
    _resolveEntry (process := hostProcess) (heap sampleUnmounted 0) "/" = Some entry
    /\ readdirSync (process := hostProcess) (heap sampleUnmounted 0) "/" true
       = Return (Dirents dirents)
    /\ map dirent_name dirents = ["a.txt"; "docs"]
    /\ Forall (fun d =>
                 dirent_path d = "/"
                 /\ exists child,
                     getEntry entry (dirent_name d) = Some child
                     /\ dirent_type d = if isDirectory child
                                        then UV_DIRENT_DIR else UV_DIRENT_FILE)
              dirents.
Proof.
  apply (readdirSync_withFileTypes (process := hostProcess)
           (heap sampleUnmounted 0) "/" ["a.txt"; "docs"]).
  reflexivity.
Defined.

(** The directory in which the loop of [addFile] puts the entry: the one
    that was at the parent path, or a new one. *)
Lemma addFileLoop_parent (init done : list string) (x : string)
      (current entry : VirtualEntry) :
  snd (addFileLoop current done (init ++ [x]) entry) = Return tt ->
  resolveSegments (fst (addFileLoop current done (init ++ [x]) entry)) init
  = Some (addEntry match resolveSegments current init with
                   | Some dir => dir
                   | None => VirtualDirectory (pathOf (done ++ init)) []
                   end x entry).
Proof.
  revert done current.
  induction init as [|s rest IH]; intros done current H.
  - cbn [app] in *. rewrite addFileLoop_last in *.
    destruct (isDirectory current); [reflexivity | discriminate H].
  - assert (Hne : rest ++ [x] <> []) by (now destruct rest).
    cbn [app] in *. rewrite addFileLoop_step in * by exact Hne.
    destruct (isDirectory current) eqn:Hd; cbn [negb] in *; [|discriminate H].
    cbn [resolveSegments]. rewrite Hd. cbn [negb].
    destruct (getEntry current s) as [child|] eqn:Hg.
    + destruct (isDirectory child) eqn:Hc; cbn [negb] in *; [|discriminate H].
      cbn [fst snd] in *. cbn [resolveSegments].
      rewrite isDirectory_addEntry, Hd, (getEntry_addEntry _ _ _ Hd). cbn [negb].
      rewrite (IH _ _ H), <- app_assoc. reflexivity.
    + cbv zeta in *. cbn [fst snd] in *. cbn [resolveSegments].
      rewrite !isDirectory_addEntry, Hd, getEntry_addEntry
        by now rewrite isDirectory_addEntry.
      cbn [negb]. rewrite (IH _ _ H), <- app_assoc. cbn [app].
      destruct rest as [|r rs]; reflexivity.
Qed.

Lemma SafeMap_keys_set_In {A : Type} (m : list (string * A)) (k : string)
      (a : A) (name : string) :
  In name (SafeMap.keys (SafeMap.set m k a))
  <-> name = k \/ In name (SafeMap.keys m).
Proof.
  rewrite SafeMap_keys_set. destruct (SafeMap.get m k) as [a'|] eqn:E.
  - split; [now right|]. intros [-> | H]; [|exact H].
    apply SafeMap_get_keys. now exists a'.
  - rewrite in_app_iff. cbn [In]. split; [intros [H|[<-|[]]] | intros [->|H]];
      auto.
Qed.

(** The names in the directory in which the loop of [addFile] has put the
    entry: the name of the entry, and the names that were there. *)
Lemma addFileLoop_listing (init : list string) (x : string)
      (root entry : VirtualEntry) :
  snd (addFileLoop root [] (init ++ [x]) entry) = Return tt ->
  exists parent',
    resolveSegments (fst (addFileLoop root [] (init ++ [x]) entry)) init
    = Some parent'
    /\ isDirectory parent' = true
    /\ forall name,
        In name (getEntryNames parent')
        <-> name = x
            \/ match resolveSegments root init with
               | Some parent => In name (getEntryNames parent)
               | None => False
               end.
Proof.
  intros H. pose proof (addFileLoop_parent init [] x root entry H) as Hp.
  pose proof (addFileLoop_found (init ++ [x]) [] root entry
                ltac:(now destruct init) H) as Hf.
  rewrite resolveSegments_app, Hp in Hf.
  eexists. split; [exact Hp|].
  match type of Hf with
  | (if negb (isDirectory ?d) then _ else _) = _ =>
      destruct (isDirectory d) eqn:Hd; cbn [negb] in Hf; [|discriminate Hf]
  end.
  split; [reflexivity|]. rewrite isDirectory_addEntry in Hd. intros name.
  destruct (resolveSegments root init) as [parent|].
  - destruct parent as [|pp entries]; [discriminate Hd|].
    cbn [addEntry getEntryNames]. apply SafeMap_keys_set_In.
  - cbn [addEntry getEntryNames SafeMap.set SafeMap.keys map fst In]. split.
    + intros [<- | []]. now left.
    + intros [-> | []]. now left.
Qed.

Lemma readdirSync_names {process : Process}
      (this : VirtualFileSystem) (dirPath : string) :
  readdirSync this dirPath false
  = match _resolveEntry this dirPath with
    | None => Throw (createENOENT "scandir" dirPath)
    | Some entry =>
        if negb (isDirectory entry) then Throw (createENOTDIR "scandir" dirPath)
        else Return (Names (getEntryNames entry))
    end.
Proof. reflexivity. Qed.

Lemma addFile_mode_kept {process : Process}
      (this : VirtualFileSystem) (p : string) (c : ContentSource) :
  kMounted (fst (addFile this p c)) = kMounted this.
Proof. apply (treeCall_mode this (TreeAddFile p c)). Qed.

Lemma addDirectory_mode_kept {process : Process}
      (this : VirtualFileSystem) (p : string) :
  kMounted (fst (addDirectory this p)) = kMounted this.
Proof. apply (treeCall_mode this (TreeAddDirectory p)). Qed.

Lemma listing_after {process : Process}
      (this this' : VirtualFileSystem) (entry : VirtualEntry)
      (init : list string) (x : string) :
  path.isAbsolute cwd = true ->
  kMounted this = false -> kMounted this' = false ->
  Forall (fun s => cleanSegment s = true) init ->
  kRoot this' = fst (addFileLoop (kRoot this) [] (init ++ [x]) entry) ->
  snd (addFileLoop (kRoot this) [] (init ++ [x]) entry) = Return tt ->
  exists names,
    readdirSync this' (pathOf init) false = Return (Names names)
    /\ forall name,
        In name names
        <-> name = x
            \/ match readdirSync this (pathOf init) false with
               | Return (Names before) => In name before
               | _ => False
               end.
Proof.
  intros Habs Hm Hm' Hi Hroot Hret.
  destruct (addFileLoop_listing init x (kRoot this) entry Hret)
    as (parent' & Hp & Hd & Hnames).
  rewrite !readdirSync_names.
  destruct (_resolveEntry_segments Habs this' (pathOf init) Hm') as [-> _].
  destruct (_resolveEntry_segments Habs this (pathOf init) Hm) as [-> _].
  rewrite (normalizePath_pathOf _ Hi), (splitPath_pathOf _ Hi), Hroot, Hp, Hd.
  cbn [negb]. exists (getEntryNames parent'). split; [reflexivity|].
  intros name. rewrite Hnames.
  destruct (resolveSegments (kRoot this) init) as [parent|]; [|reflexivity].
  destruct parent as [fp fc|pp entries]; cbn [isDirectory negb getEntryNames In];
    reflexivity.
Qed.

Lemma addFile_returns {process : Process}
      (this : VirtualFileSystem) (p : string) (c : ContentSource) :
  snd (addFile this p c) = Return tt ->
  normalizePath p <> "/"
  /\ kRoot (fst (addFile this p c))
     = fst (addFileLoop (kRoot this) [] (splitPath (normalizePath p))
                        (VirtualFile (normalizePath p) c))
  /\ snd (addFileLoop (kRoot this) [] (splitPath (normalizePath p))
                      (VirtualFile (normalizePath p) c)) = Return tt.
Proof.
  unfold addFile.
  destruct (List.length (splitPath (normalizePath p)) =? 0)%nat eqn:Hlen;
    [discriminate|].
  destruct (addFileLoop (kRoot this) [] (splitPath (normalizePath p))
              (VirtualFile (normalizePath p) c)) as [root r].
  cbn [fst snd kRoot setRoot]. intros ->. split; [|now split].
  intros E. unfold splitPath in Hlen. rewrite E in Hlen. discriminate Hlen.
Qed.

Lemma addDirectory_returns {process : Process}
      (this : VirtualFileSystem) (p : string) :
  normalizePath p <> "/" ->
  snd (addDirectory this p) = Return tt ->
  kRoot (fst (addDirectory this p))
  = fst (addFileLoop (kRoot this) [] (splitPath (normalizePath p))
                     (VirtualDirectory (normalizePath p) []))
  /\ snd (addFileLoop (kRoot this) [] (splitPath (normalizePath p))
                      (VirtualDirectory (normalizePath p) [])) = Return tt.
Proof.
  intros Hne. unfold addDirectory.
  destruct (List.length (splitPath (normalizePath p)) =? 0)%nat eqn:Hlen.
  { apply splitPath_root_length in Hlen. unfold splitPath in Hlen.
    destruct (String.eqb_spec (normalizePath p) "/") as [E|_]; [contradiction|].
    now apply split_nonempty in Hlen. }
  pose proof (addDirectoryLoop_addFileLoop (splitPath (normalizePath p)) []
                (kRoot this) (VirtualDirectory (normalizePath p) [])) as [Hf Hr].
  destruct (addDirectoryLoop (kRoot this) [] (splitPath (normalizePath p))
              (VirtualDirectory (normalizePath p) [])) as [root r].
  cbn [fst snd kRoot setRoot] in *. intros ->. cbn [isReturn] in Hr.
  symmetry in Hr. apply isReturn_unit in Hr. now split.
Qed.

(** X12: what a listing holds after an entry is added.  In an instance
    that is not mounted, after [addFile] or [addDirectory] of a path has
    returned, [readdirSync] of the parent path returns names, and a name is
    among them exactly when it is the base name of the path or was listed
    there before the call. *)
Theorem addFile_listing {process : Process}
        (this : VirtualFileSystem) (p parent : string) :
  path.isAbsolute cwd = true ->
  isMounted this = false ->
  getParentPath (normalizePath p) = Some parent ->
  let lists (after : VirtualFileSystem) :=
    exists names,
      readdirSync after parent false = Return (Names names)
      /\ forall name,
          In name names
          <-> name = getBaseName (normalizePath p)
              \/ match readdirSync this parent false with
                 | Return (Names before) => In name before
                 | _ => False
                 end in
  (forall c, snd (addFile this p c) = Return tt -> lists (fst (addFile this p c)))
  /\ (snd (addDirectory this p) = Return tt -> lists (fst (addDirectory this p))).
Proof.
  intros Habs Hm Hpar lists. subst lists.
  assert (Hne : normalizePath p <> "/").
  { intros E. rewrite E in Hpar. discriminate Hpar. }
  destruct (normalizePath_parent Habs p Hne)
    as (init & x & Hi & Hx & E & Es & Hp & Hb & En & Esp).
  rewrite Hp in Hpar. injection Hpar as <-. rewrite Hb. split.
  - intros c Hret. destruct (addFile_returns this p c Hret) as (_ & Hroot & Hloop).
    rewrite Es in Hroot, Hloop.
    apply (listing_after this _ (VirtualFile (normalizePath p) c) init x Habs Hm);
      try assumption.
    now rewrite addFile_mode_kept.
  - intros Hret. destruct (addDirectory_returns this p Hne Hret) as (Hroot & Hloop).
    rewrite Es in Hroot, Hloop.
    apply (listing_after this _ (VirtualDirectory (normalizePath p) []) init x
                         Habs Hm); try assumption.
    now rewrite addDirectory_mode_kept.
Qed.

Lemma addFile_listing_witness :
  exists names,
    readdirSync (process := hostProcess)
                (fst (addFile (process := hostProcess) (heap sampleUnmounted 0)
                              "/docs/new.md" (FixedBytes "new")))
                "/docs" false
    = Return (Names names)
    /\ forall name,
        In name names
        <-> name = "new.md" \/ In name ["readme.md"; "lazy.bin"].
Proof.
  exact (proj1 (addFile_listing (process := hostProcess)
                  (heap sampleUnmounted 0) "/docs/new.md" "/docs"
                  eq_refl eq_refl eq_refl)
               (FixedBytes "new") eq_refl).
Defined.

(** ** virtual_fs.js: paths of a mounted instance *)

Lemma pathOf_app (ms rs : list string) :
  ms <> [] -> rs <> [] -> pathOf (ms ++ rs) = pathOf ms +++ pathOf rs.
Proof.
  intros Hm Hr. unfold pathOf. rewrite join_append by assumption.
  now rewrite !append_assoc.
Qed.

Lemma getRelativePath_pathOf (ms rs : list string) :
  ms <> [] ->
  getRelativePath (pathOf (ms ++ rs)) (pathOf ms) = pathOf rs.
Proof.
  intros Hm. destruct rs as [|r rs].
  - rewrite app_nil_r. unfold getRelativePath. now rewrite String.eqb_refl.
  - rewrite pathOf_app by (assumption || discriminate).
    unfold getRelativePath.
    replace (String.eqb (pathOf ms +++ pathOf (r :: rs)) (pathOf ms)) with false.
    + rewrite slice_from by (rewrite append_length; lia). apply drop_append.
    + symmetry. apply String.eqb_neq. intros E.
      apply (f_equal String.length) in E. rewrite append_length in E.
      unfold pathOf at 2 in E. simpl in E. lia.
Qed.

Section MountedFacts.

Context {process : Process}.
Hypothesis cwd_absolute : path.isAbsolute cwd = true.

Variable this : VirtualFileSystem.
Variable ms : list string.
Hypothesis mounted : kMounted this = true.
Hypothesis mounted_at : kMountPoint this = Some (pathOf ms).
Hypothesis ms_clean : Forall (fun s => cleanSegment s = true) ms.
Hypothesis ms_nonempty : ms <> [].

(** Under the mount point a path resolves by the segments that follow the
    mount point. *)
Lemma mounted_resolve (rs : list string) :
  Forall (fun s => cleanSegment s = true) rs ->
  _resolveEntry this (pathOf (ms ++ rs)) = resolveSegments (kRoot this) rs
  /\ entryLocation this (pathOf (ms ++ rs)) = rs.
Proof.
  intros Hrs.
  assert (Hall : Forall (fun s => cleanSegment s = true) (ms ++ rs))
    by now apply Forall_app.
  assert (Hv : vfsPathOf this (normalizePath (pathOf (ms ++ rs)))
               = Some (pathOf rs)).
  { unfold vfsPathOf. rewrite mounted_at, mounted.
    rewrite (normalizePath_pathOf _ Hall).
    change (JSString.truthy (pathOf ms)) with true. cbn [andb].
    replace (isUnderMountPoint (pathOf (ms ++ rs)) (pathOf ms)) with true.
    - cbn [negb]. now rewrite getRelativePath_pathOf.
    - symmetry. apply (isUnderMountPoint_pathOf _ _ Hall ms_clean).
      destruct ms as [|m ms']; [contradiction | apply isPrefixOf_app]. }
  unfold _resolveEntry, entryLocation. rewrite Hv. split.
  - apply (treeLookup_pathOf (kRoot this) rs Hrs).
  - destruct (String.eqb_spec (pathOf rs) "/") as [E|_].
    + apply (pathOf_root _ Hrs) in E. now subst.
    + apply (splitPath_pathOf _ Hrs).
Qed.

(** Outside the mount point nothing resolves. *)
Lemma mounted_outside (p : string) :
  isUnderMountPoint (normalizePath p) (pathOf ms) = false ->
  _resolveEntry this p = None.
Proof.
  intros Hu. unfold _resolveEntry, vfsPathOf. rewrite mounted_at, mounted.
  change (JSString.truthy (pathOf ms)) with true. cbn [andb].
  now rewrite Hu.
Qed.

End MountedFacts.

(** A normalized path is under the mount point when its segments go on from
    those of the mount point. *)
Lemma mounted_under {process : Process} (ms : list string) (p : string) :
  path.isAbsolute cwd = true ->
  Forall (fun s => cleanSegment s = true) ms -> ms <> [] ->
  isUnderMountPoint (normalizePath p) (pathOf ms) = true ->
  exists rs, Forall (fun s => cleanSegment s = true) rs
             /\ normalizePath p = pathOf (ms ++ rs).
Proof.
  intros Habs Hms Hne Hu. destruct (normalizePath_clean Habs p) as (segs & Hs & E).
  rewrite E in Hu. apply (isUnderMountPoint_pathOf _ _ Hs Hms) in Hu.
  destruct ms as [|m ms']; [contradiction|].
  apply isPrefixOf_inv in Hu as [rs ->].
  exists rs. split; [|exact E]. now apply Forall_app in Hs as [_ Hs].
Qed.

Lemma isPrefixOf_length (xs ys : list string) :
  isPrefixOf xs ys = true -> List.length xs <= List.length ys.
Proof.
  intros H. apply isPrefixOf_inv in H as [rs ->]. rewrite length_app. lia.
Qed.

Lemma isPrefixOf_snoc (xs ys : list string) (y : string) :
  isPrefixOf xs ys = true -> isPrefixOf xs (ys ++ [y]) = true.
Proof.
  intros H. apply isPrefixOf_inv in H as [rs ->]. rewrite <- app_assoc.
  apply isPrefixOf_app.
Qed.

Lemma remove_mode_kept {process : Process} (this : VirtualFileSystem) (p : string) :
  kMounted (fst (remove this p)) = kMounted this
  /\ kMountPoint (fst (remove this p)) = kMountPoint this.
Proof.
  destruct (treeCall_mode this (TreeRemove p)) as (H1 & H2 & _). now split.
Qed.

(** What [remove] does once the parent path is known to lead to the place
    [init] of the tree. *)
Lemma remove_at {process : Process}
      (this : VirtualFileSystem) (p parentPath : string)
      (init : list string) (x : string) :
  getParentPath (normalizePath p) = Some parentPath ->
  getBaseName (normalizePath p) = x ->
  _resolveEntry this parentPath = resolveSegments (kRoot this) init ->
  entryLocation this parentPath = init ->
  wellFormed (kRoot this) = true ->
  snd (remove this p) = isSome (resolveSegments (kRoot this) (init ++ [x]))
  /\ resolveSegments (kRoot (fst (remove this p))) (init ++ [x]) = None.
Proof.
  intros Hp Hb Hr Hl Hwf. unfold remove. rewrite Hp, Hb, Hr, Hl.
  rewrite (resolveSegments_app init x (kRoot this)).
  destruct (resolveSegments (kRoot this) init) as [parent|] eqn:Hpar.
  2:{ cbn [fst snd]. rewrite resolveSegments_app, Hpar. now split. }
  destruct (isDirectory parent) eqn:Hd; cbn [negb].
  2:{ cbn [fst snd]. rewrite resolveSegments_app, Hpar, Hd. now split. }
  pose proof (wellFormed_resolveSegments _ _ _ Hwf Hpar) as Hwp.
  pose proof (removeEntry_found parent x) as [Hfound _].
  pose proof (getEntry_removeEntry_same parent x Hwp) as Hgone.
  pose proof (isDirectory_removeEntry parent x) as Hd'.
  destruct (removeEntry parent x) as [parent' removed]. cbn [fst snd] in *.
  split; [exact Hfound|]. cbn [kRoot setRoot].
  rewrite resolveSegments_app, (resolveSegments_storeAt _ _ _ parent' Hpar).
  now rewrite Hd', Hd, Hgone.
Qed.

Lemma remove_no_parent {process : Process}
      (this : VirtualFileSystem) (p parentPath : string) :
  getParentPath (normalizePath p) = Some parentPath ->
  _resolveEntry this parentPath = None ->
  remove this p = (this, false).
Proof. intros Hp Hr. unfold remove. now rewrite Hp, Hr. Qed.

(** X13: mounting translates paths by the prefix.  After [mount(prefix)]
    with a prefix other than the root, the path made of the mount point and
    a path [p] resolves to what [p] resolved to before the call, so that it
    exists, is a file or a directory, and is read, as [p] was; and the
    instance claims that path. *)
Theorem mount_translates_paths {process : Process}
        (w : World) (this : ObjId) (prefix p : string) :
  path.isAbsolute cwd = true ->
  kMounted (heap w this) || kOverlay (heap w this) = false ->
  normalizePath prefix <> "/" ->
  let this' := heap (fst (mount this prefix w)) this in
  let q := joinMountPath (normalizePath prefix) (normalizePath p) in
  shouldHandle this' q = true
  /\ _resolveEntry this' q = _resolveEntry (heap w this) p
  /\ existsSync this' q = existsSync (heap w this) p
  /\ internalModuleStat this' q = internalModuleStat (heap w this) p
  /\ forall options data,
      readFileSync this' q options = Return data
      <-> readFileSync (heap w this) p options = Return data.
Proof.
  intros Habs Hin Hne this' q.
  assert (Hm : kMounted (heap w this) = false)
    by (now destruct (kMounted (heap w this))).
  destruct (normalizePath_clean Habs prefix) as (ms & Hms & Em).
  destruct (normalizePath_clean Habs p) as (rs & Hrs & Ep).
  assert (Hmne : ms <> []) by (intros ->; now apply Hne).
  assert (Eq : q = pathOf (ms ++ rs)).
  { subst q. rewrite Em, Ep. unfold joinMountPath.
    destruct (String.eqb_spec (pathOf rs) "/") as [E|Hn].
    - apply (pathOf_root _ Hrs) in E. subst rs. now rewrite app_nil_r.
    - symmetry. apply pathOf_app; [exact Hmne|]. now intros ->. }
  assert (Hthis : this' = setMode (heap w this) (Some (pathOf ms)) true false).
  { subst this'. now rewrite (mount_inactive this prefix w this Hin),
      Nat.eqb_refl, Em. }
  assert (Hall : Forall (fun s => cleanSegment s = true) (ms ++ rs))
    by now apply Forall_app.
  assert (Hres : _resolveEntry this' q = _resolveEntry (heap w this) p).
  { rewrite Eq, Hthis.
    destruct (mounted_resolve (setMode (heap w this) (Some (pathOf ms)) true false)
                ms eq_refl eq_refl Hms Hmne rs Hrs) as [-> _].
    destruct (_resolveEntry_segments Habs (heap w this) p Hm) as [-> _].
    now rewrite Ep, (splitPath_pathOf _ Hrs). }
  split; [|split; [exact Hres|]].
  - rewrite Eq, Hthis. unfold shouldHandle.
    cbn [setMode kMounted kOverlay kMountPoint negb andb].
    change (JSString.truthy (pathOf ms)) with true. cbv iota.
    rewrite (normalizePath_pathOf _ Hall).
    apply (isUnderMountPoint_pathOf _ _ Hall Hms).
    destruct ms as [|m ms']; [contradiction | apply isPrefixOf_app].
  - unfold existsSync, internalModuleStat, readFileSync. rewrite Hres.
    split; [reflexivity | split; [reflexivity|]]. intros options data.
    destruct (_resolveEntry (heap w this) p) as [entry|];
      [|split; discriminate].
    destruct (isDirectory entry); [split; discriminate | reflexivity].
Qed.

Lemma mount_translates_paths_witness :
  existsSync (process := hostProcess)
             (heap (fst (mount (process := hostProcess) 0 "/sea/" sampleUnmounted)) 0)
             "/sea/docs"
  = existsSync (process := hostProcess) (heap sampleUnmounted 0) "/docs/.".
Proof.
  apply (mount_translates_paths (process := hostProcess)
           sampleUnmounted 0 "/sea/" "/docs/.");
    [reflexivity | reflexivity | discriminate].
Defined.

(** X14: [remove] takes its path as the read operations do.  In an instance
    mounted at a prefix other than the root, [remove] of the mount point
    itself or of a path outside it returns false and changes nothing; for
    every other path it returns whether the path existed, and afterwards
    the path does not exist. *)
Theorem remove_under_mount {process : Process}
        (this : VirtualFileSystem) (prefix p : string) :
  path.isAbsolute cwd = true ->
  isMounted this = true ->
  mountPoint this = Some (normalizePath prefix) ->
  normalizePath prefix <> "/" ->
  wellFormed (kRoot this) = true ->
  (normalizePath p = normalizePath prefix
   \/ isUnderMountPoint (normalizePath p) (normalizePath prefix) = false ->
   remove this p = (this, false))
  /\ (normalizePath p <> normalizePath prefix ->
      snd (remove this p) = existsSync this p
      /\ existsSync (fst (remove this p)) p = false).
Proof.
  intros Habs Hm Hmp Hne Hwf.
  destruct (normalizePath_clean Habs prefix) as (ms & Hms & Em).
  rewrite Em in *.
  assert (Hmne : ms <> []) by (intros ->; now apply Hne).
  assert (Hout : forall init x,
             Forall (fun s => cleanSegment s = true) (init ++ [x]) ->
             normalizePath p = pathOf (init ++ [x]) ->
             isPrefixOf ms init = false ->
             remove this p = (this, false)).
  { intros init x Hs E Hpre.
    apply Forall_app in Hs as Hs'. destruct Hs' as [Hi Hx].
    inversion Hx as [|? ? Hx' _]; subst.
    destruct (getParentPath_snoc init x Hi Hx') as [Hp _].
    rewrite <- E in Hp. apply (remove_no_parent this p _ Hp).
    apply (mounted_outside this ms Hm Hmp).
    rewrite (normalizePath_pathOf _ Hi).
    destruct (isUnderMountPoint (pathOf init) (pathOf ms)) eqn:Hu; [|reflexivity].
    apply (isUnderMountPoint_pathOf _ _ Hi Hms) in Hu.
    destruct ms as [|m ms']; [contradiction | congruence]. }
  assert (Hfalse : normalizePath p = pathOf ms
                   \/ isUnderMountPoint (normalizePath p) (pathOf ms) = false ->
                   remove this p = (this, false)).
  { intros Hcase.
    destruct (String.eqb_spec (normalizePath p) "/") as [E|Hn];
      [now apply remove_root|].
    destruct (normalizePath_clean Habs p) as (segs & Hs & E).
    destruct (list_snoc segs) as (init & x & ->).
    { intros ->. now apply Hn. }
    apply (Hout init x Hs E).
    destruct (isPrefixOf ms init) eqn:Hpre; [exfalso | reflexivity].
    destruct Hcase as [Eq|Hu].
    - rewrite E in Eq. apply (f_equal splitPath) in Eq.
      rewrite (splitPath_pathOf _ Hs), (splitPath_pathOf _ Hms) in Eq.
      apply isPrefixOf_length in Hpre. rewrite <- Eq, length_app in Hpre.
      cbn [List.length] in Hpre. lia.
    - rewrite E in Hu.
      assert (isUnderMountPoint (pathOf (init ++ [x])) (pathOf ms) = true)
        as Hu'; [|congruence].
      apply (isUnderMountPoint_pathOf _ _ Hs Hms).
      destruct ms as [|m ms']; [contradiction | now apply isPrefixOf_snoc]. }
  split; [exact Hfalse|]. intros Hdiff.
  destruct (isUnderMountPoint (normalizePath p) (pathOf ms)) eqn:Hu.
  - destruct (mounted_under ms p Habs Hms Hmne Hu) as (rs & Hrs & E).
    destruct (list_snoc rs) as (init & x & ->).
    { intros ->. rewrite app_nil_r in E. contradiction. }
    apply Forall_app in Hrs as Hrs'. destruct Hrs' as [Hi Hx].
    inversion Hx as [|? ? Hx' _]; subst.
    rewrite app_assoc in E.
    destruct (getParentPath_snoc (ms ++ init) x
                ltac:(now apply Forall_app) Hx') as [Hp Hb].
    rewrite <- E in Hp, Hb.
    destruct (mounted_resolve this ms Hm Hmp Hms Hmne init Hi) as [Hr Hl].
    destruct (remove_at this p _ init x Hp Hb Hr Hl Hwf) as [Hsnd Hgone].
    assert (forall that, kMounted that = true ->
              kMountPoint that = Some (pathOf ms) ->
              existsSync that p
              = isSome (resolveSegments (kRoot that) (init ++ [x]))) as Hex.
    { intros that H1 H2. unfold existsSync.
      rewrite <- (_resolveEntry_normalized Habs), E, <- app_assoc.
      destruct (mounted_resolve that ms H1 H2 Hms Hmne (init ++ [x]) Hrs)
        as [-> _].
      now destruct (resolveSegments (kRoot that) (init ++ [x])). }
    destruct (remove_mode_kept this p) as [Hk1 Hk2].
    rewrite (Hex this Hm Hmp).
    rewrite (Hex (fst (remove this p)))
      by (rewrite ?Hk1, ?Hk2; assumption).
    rewrite Hgone. now split.
  - rewrite (Hfalse (or_intror eq_refl)). cbn [fst snd].
    unfold existsSync. rewrite (mounted_outside this ms Hm Hmp p Hu).
    now split.
Qed.

Lemma remove_under_mount_witness :
  snd (remove (process := hostProcess) (heap sampleMounted 0) "/sea/a.txt")
  = existsSync (process := hostProcess) (heap sampleMounted 0) "/sea/a.txt"
  /\ existsSync (process := hostProcess)
                (fst (remove (process := hostProcess) (heap sampleMounted 0)
                             "/sea/a.txt"))
                "/sea/a.txt" = false.
Proof.
  apply (remove_under_mount (process := hostProcess) (heap sampleMounted 0)
                        "/sea" "/sea/a.txt");
    [reflexivity | reflexivity | reflexivity | discriminate | reflexivity
     | discriminate].
Defined.

(** ** virtual_fs.js: the read operations on one path *)

(** X15: the synchronous operations agree on what a path is.
    [internalModuleStat] is -2, 0 or 1.  At -2 the path does not exist and
    every operation fails with ENOENT, naming its own system call and the
    path as it was given.  At 0 it is a file: [statSync] says so,
    [readdirSync] fails with ENOTDIR and [readFileSync] gives what the
    content source gives.  At 1 it is a directory: [readFileSync] fails
    with EISDIR and [readdirSync] returns the names.  Where the path
    exists, [realpathSync] returns the normalized path. *)
Theorem sync_operations_agree {process : Process}
        (this : VirtualFileSystem) (p : string) (options : ReadOptions)
        (withFileTypes : bool) :
  path.isAbsolute cwd = true ->
  (internalModuleStat this p = (-2)%Z
   /\ existsSync this p = false
   /\ statSync this p = Throw (ENOENT "stat" p)
   /\ lstatSync this p = Throw (ENOENT "stat" p)
   /\ readFileSync this p options = Throw (ENOENT "open" p)
   /\ readdirSync this p withFileTypes = Throw (ENOENT "scandir" p)
   /\ realpathSync this p = Throw (ENOENT "realpath" p))
  \/ (internalModuleStat this p = 0%Z
      /\ existsSync this p = true
      /\ (exists size, statSync this p = Return (mkStats false size))
      /\ (exists entryPath content,
             _resolveEntry this p = Some (VirtualFile entryPath content)
             /\ readFileSync this p options = syncRead content options)
      /\ readdirSync this p withFileTypes = Throw (ENOTDIR "scandir" p)
      /\ realpathSync this p = Return (normalizePath p))
  \/ (internalModuleStat this p = 1%Z
      /\ existsSync this p = true
      /\ statSync this p = Return (mkStats true None)
      /\ readFileSync this p options = Throw (EISDIR "read" p)
      /\ (exists names, readdirSync this p false = Return (Names names))
      /\ realpathSync this p = Return (normalizePath p)).
Proof.
  intros Habs.
  unfold internalModuleStat, existsSync, lstatSync, statSync, readFileSync,
    readdirSync, realpathSync.
  rewrite (_resolveEntry_normalized Habs).
  destruct (_resolveEntry this p) as [[entryPath content|dirPath entries]|].
  - right. left. cbn [isDirectory negb getStats].
    repeat split.
    + destruct content; eexists; reflexivity.
    + exists entryPath, content. split; [reflexivity|].
      destruct content as [bytes|[bytes|e]|result]; reflexivity.
  - right. right. cbn [isDirectory negb getStats listEntries].
    repeat split. eexists. reflexivity.
  - left. now repeat split.
Qed.

Lemma sync_operations_agree_witness :
  internalModuleStat (process := hostProcess) (heap sampleUnmounted 0) "/docs" = 1%Z
  /\ readFileSync (process := hostProcess) (heap sampleUnmounted 0) "/docs" OptUndefined
     = Throw (EISDIR "read" "/docs").
Proof.
  destruct (sync_operations_agree (process := hostProcess)
              (heap sampleUnmounted 0) "/docs" OptUndefined false eq_refl)
    as [(H & _) | [(H & _) | (H & _ & _ & Hr & _)]];
    [discriminate H | discriminate H | now split].
Defined.

(** X16: for [stat], [lstat], [readdir], [realpath] and [access] the
    callback form and the promise form give the caller what the synchronous
    form returns or throws (which [readFile] does not); [lstat] is [stat];
    and [access] succeeds exactly where [existsSync] holds, failing with
    ENOENT otherwise. *)
Theorem callback_and_promise_forms {process : Process}
        (this : VirtualFileSystem) (p : string) (withFileTypes : bool) :
  (stat this p = statSync this p /\ promises_stat this p = statSync this p)
  /\ (lstat this p = statSync this p /\ promises_lstat this p = statSync this p
      /\ lstatSync this p = statSync this p)
  /\ (readdir this p withFileTypes = readdirSync this p withFileTypes
      /\ promises_readdir this p withFileTypes = readdirSync this p withFileTypes)
  /\ (realpath this p = realpathSync this p
      /\ promises_realpath this p = realpathSync this p)
  /\ promises_access this p = access this p
  /\ access this p = if existsSync this p then Return tt
                     else Throw (ENOENT "access" p).
Proof.
  repeat split. unfold access, existsSync.
  now destruct (_resolveEntry this p).
Qed.

(** ** module_hooks.js: the registry *)

Lemma ArrayPrototypeIndexOf_range (xs : list ObjId) (x : ObjId) :
  ArrayPrototypeIndexOf xs x = (-1)%Z \/ (0 <= ArrayPrototypeIndexOf xs x)%Z.
Proof.
  induction xs as [|y ys IH]; cbn [ArrayPrototypeIndexOf]; [now left|].
  destruct (y =? x)%nat; [right; lia|].
  destruct (Z.eqb_spec (ArrayPrototypeIndexOf ys x) (-1)); [now left | right; lia].
Qed.

Lemma ArrayPrototypeIndexOf_In (xs : list ObjId) (x : ObjId) :
  ArrayPrototypeIndexOf xs x = (-1)%Z <-> ~ In x xs.
Proof.
  induction xs as [|y ys IH]; cbn [ArrayPrototypeIndexOf In]; [tauto|].
  destruct (Nat.eqb_spec y x) as [->|Hne].
  - split; [discriminate | intros H; exfalso; apply H; now left].
  - destruct (Z.eqb_spec (ArrayPrototypeIndexOf ys x) (-1)) as [E|E].
    + split; [|reflexivity]. intros _ [H|H]; [contradiction | now apply IH].
    + destruct (ArrayPrototypeIndexOf_range ys x) as [E'|Hr]; [contradiction|].
      split; [lia|]. intros H. exfalso. apply E, IH. tauto.
Qed.

Lemma filter_absent (xs : list ObjId) (x : ObjId) :
  ~ In x xs -> filter (fun y => negb (y =? x)%nat) xs = xs.
Proof.
  induction xs as [|y ys IH]; intros H; [reflexivity|]. cbn [filter].
  destruct (Nat.eqb_spec y x) as [->|_]; [exfalso; apply H; now left|].
  cbn [negb]. rewrite IH; [reflexivity|]. intros Hin. apply H. now right.
Qed.

(** Splicing one element out at the index of [x] leaves the others, in
    their order. *)
Lemma ArrayPrototypeSplice_indexOf (xs : list ObjId) (x : ObjId) :
  NoDup xs -> In x xs ->
  ArrayPrototypeSplice xs (ArrayPrototypeIndexOf xs x) 1
  = filter (fun y => negb (y =? x)%nat) xs.
Proof.
  unfold ArrayPrototypeSplice.
  induction xs as [|y ys IH]; intros Hn Hin; [contradiction|].
  inversion Hn as [|? ? Hy Hys]; subst.
  cbn [ArrayPrototypeIndexOf filter].
  destruct (Nat.eqb_spec y x) as [->|Hne].
  - cbn. now rewrite filter_absent.
  - destruct Hin as [E|Hin]; [contradiction|]. cbn [negb].
    assert (Hi : ArrayPrototypeIndexOf ys x <> (-1)%Z).
    { intros E. now apply ArrayPrototypeIndexOf_In in E. }
    destruct (ArrayPrototypeIndexOf_range ys x) as [E|Hr]; [contradiction|].
    destruct (Z.eqb_spec (ArrayPrototypeIndexOf ys x) (-1)) as [E|_];
      [contradiction|].
    replace (Z.to_nat (ArrayPrototypeIndexOf ys x + 1))
      with (S (Z.to_nat (ArrayPrototypeIndexOf ys x))) by lia.
    cbn [firstn skipn Nat.add app]. f_equal. now apply IH.
Qed.

Lemma unregisterVFS_list (vfs : ObjId) (w : World) :
  NoDup (activeVFSList w) ->
  activeVFSList (unregisterVFS vfs w)
  = filter (fun i => negb (i =? vfs)%nat) (activeVFSList w).
Proof.
  intros Hn. unfold unregisterVFS.
  destruct (Z.eqb_spec (ArrayPrototypeIndexOf (activeVFSList w) vfs) (-1))
    as [E|E]; cbn [negb].
  - apply ArrayPrototypeIndexOf_In in E. now rewrite filter_absent.
  - cbn [activeVFSList setActiveVFSList].
    apply ArrayPrototypeSplice_indexOf; [exact Hn|].
    destruct (in_dec Nat.eq_dec vfs (activeVFSList w)) as [H|H]; [exact H|].
    now apply ArrayPrototypeIndexOf_In in H.
Qed.

Lemma hooks_registerVFS (vfs : ObjId) (w : World) :
  hooksInstalled (registerVFS vfs w)
  = hooksInstalled w
    || (ArrayPrototypeIndexOf (activeVFSList w) vfs =? -1)%Z.
Proof.
  unfold registerVFS, installHooks.
  destruct (ArrayPrototypeIndexOf (activeVFSList w) vfs =? -1)%Z;
    [|now rewrite orb_false_r].
  cbn [hooksInstalled setActiveVFSList].
  destruct (hooksInstalled w) eqn:E; cbn [negb hooksInstalled orb];
    [exact E | reflexivity].
Qed.

Lemma hooks_unregisterVFS (vfs : ObjId) (w : World) :
  hooksInstalled (unregisterVFS vfs w) = hooksInstalled w.
Proof.
  unfold unregisterVFS.
  now destruct (negb (ArrayPrototypeIndexOf (activeVFSList w) vfs =? -1)%Z).
Qed.

Lemma registerVFS_list (vfs : ObjId) (w : World) :
  activeVFSList (registerVFS vfs w)
  = if (ArrayPrototypeIndexOf (activeVFSList w) vfs =? -1)%Z
    then activeVFSList w ++ [vfs] else activeVFSList w.
Proof.
  destruct (Z.eqb_spec (ArrayPrototypeIndexOf (activeVFSList w) vfs) (-1))
    as [E|E].
  - now apply registerVFS_appends.
  - now rewrite registerVFS_again.
Qed.

Lemma NoDup_snoc (xs : list ObjId) (x : ObjId) :
  NoDup xs -> ~ In x xs -> NoDup (xs ++ [x]).
Proof.
  intros Hn Hx. apply NoDup_app; [exact Hn | repeat constructor; auto |].
  intros y Hy [<-|[]]. contradiction.
Qed.

Lemma filter_snoc_absent (xs : list ObjId) (x : ObjId) :
  ~ In x xs -> filter (fun y => negb (y =? x)%nat) (xs ++ [x]) = xs.
Proof.
  intros H. rewrite filter_app, filter_absent by exact H.
  cbn [filter]. rewrite Nat.eqb_refl. cbn [negb]. apply app_nil_r.
Qed.

(** X17: the registry is a list without repetition, in the order of
    registration.  [registerVFS] appends an instance that is not
    registered, installing the hooks, and does nothing for one that is;
    [unregisterVFS] takes the instance out and keeps the others in their
    order, and keeps the hooks as they are; neither touches an instance;
    and unregistering what was just registered gives the list back. *)
Theorem registry_operations (vfs : ObjId) (w : World) :
  NoDup (activeVFSList w) ->
  (activeVFSList (registerVFS vfs w)
   = if existsb (Nat.eqb vfs) (activeVFSList w)
     then activeVFSList w else activeVFSList w ++ [vfs])
  /\ NoDup (activeVFSList (registerVFS vfs w))
  /\ (~ In vfs (activeVFSList w) -> areHooksInstalled (registerVFS vfs w) = true)
  /\ registerVFS vfs (registerVFS vfs w) = registerVFS vfs w
  /\ activeVFSList (unregisterVFS vfs w)
     = filter (fun i => negb (i =? vfs)%nat) (activeVFSList w)
  /\ NoDup (activeVFSList (unregisterVFS vfs w))
  /\ areHooksInstalled (unregisterVFS vfs w) = areHooksInstalled w
  /\ heap (registerVFS vfs w) = heap w
  /\ heap (unregisterVFS vfs w) = heap w
  /\ (~ In vfs (activeVFSList w) ->
      activeVFSList (unregisterVFS vfs (registerVFS vfs w)) = activeVFSList w).
Proof.
  intros Hn.
  assert (Hex : existsb (Nat.eqb vfs) (activeVFSList w)
                = negb (ArrayPrototypeIndexOf (activeVFSList w) vfs =? -1)%Z).
  { destruct (Z.eqb_spec (ArrayPrototypeIndexOf (activeVFSList w) vfs) (-1))
      as [E|E]; cbn [negb].
    - apply ArrayPrototypeIndexOf_In in E.
      destruct (existsb (Nat.eqb vfs) (activeVFSList w)) eqn:Hb; [|reflexivity].
      apply existsb_exists in Hb as (i & Hi & Heq).
      apply Nat.eqb_eq in Heq. now subst i.
    - apply existsb_exists. exists vfs. split; [|apply Nat.eqb_refl].
      destruct (in_dec Nat.eq_dec vfs (activeVFSList w)) as [H|H]; [exact H|].
      now apply ArrayPrototypeIndexOf_In in H. }
  assert (Hreg : NoDup (activeVFSList (registerVFS vfs w))).
  { rewrite registerVFS_list.
    destruct (Z.eqb_spec (ArrayPrototypeIndexOf (activeVFSList w) vfs) (-1))
      as [E|E]; [|exact Hn].
    apply NoDup_snoc; [exact Hn | now apply ArrayPrototypeIndexOf_In]. }
  repeat split.
  - rewrite registerVFS_list, Hex.
    now destruct (ArrayPrototypeIndexOf (activeVFSList w) vfs =? -1)%Z.
  - exact Hreg.
  - intros Hnot. unfold areHooksInstalled. rewrite hooks_registerVFS.
    apply ArrayPrototypeIndexOf_In in Hnot. rewrite Hnot. apply orb_true_r.
  - apply registerVFS_again. intros E. apply ArrayPrototypeIndexOf_In in E.
    apply E. rewrite registerVFS_list.
    destruct (Z.eqb_spec (ArrayPrototypeIndexOf (activeVFSList w) vfs) (-1))
      as [E'|E'].
    + apply in_or_app. right. now left.
    + destruct (in_dec Nat.eq_dec vfs (activeVFSList w)) as [H|H]; [exact H|].
      now apply ArrayPrototypeIndexOf_In in H.
  - now apply unregisterVFS_list.
  - rewrite unregisterVFS_list by exact Hn. now apply NoDup_filter.
  - apply hooks_unregisterVFS.
  - apply heap_registerVFS.
  - apply heap_unregisterVFS.
  - intros Hnot. rewrite unregisterVFS_list by exact Hreg.
    rewrite registerVFS_list.
    apply ArrayPrototypeIndexOf_In in Hnot as E. rewrite E. cbn [Z.eqb].
    now apply filter_snoc_absent.
Qed.

Lemma registry_operations_witness :
  activeVFSList (unregisterVFS 0 sampleTwoMounts) = [1; 2]
  /\ activeVFSList (registerVFS 3 sampleTwoMounts) = [0; 1; 2; 3].
Proof.
  destruct (registry_operations 0 sampleTwoMounts)
    as (_ & _ & _ & _ & H & _); [repeat constructor; simpl; intuition lia|].
  destruct (registry_operations 3 sampleTwoMounts)
    as (H' & _); [repeat constructor; simpl; intuition lia|].
  split; [exact H | exact H'].
Defined.

Section RegistryFacts.

Context {process : Process}.

Lemma registryInvariant_tree (w : World) (this : ObjId) (that : VirtualFileSystem) :
  kMounted that = kMounted (heap w this) ->
  kOverlay that = kOverlay (heap w this) ->
  registryInvariant w -> registryInvariant (setObject w this that).
Proof.
  intros Hm Ho (Hn & Hin & Hh). split; [exact Hn | split; [|exact Hh]].
  intros i. cbn [heap activeVFSList setObject].
  destruct (Nat.eqb_spec i this) as [->|_]; [rewrite Hm, Ho|]; apply Hin.
Qed.

Lemma registryInvariant_activate (w w' : World) (this : ObjId) :
  activeVFSList w' = activeVFSList w ->
  hooksInstalled w' = hooksInstalled w ->
  (forall i, i <> this -> heap w' i = heap w i) ->
  kMounted (heap w this) || kOverlay (heap w this) = false ->
  kMounted (heap w' this) || kOverlay (heap w' this) = true ->
  registryInvariant w ->
  registryInvariant (registerVFS this w').
Proof.
  intros El Ehooks Eheap Hoff Hon (Hn & Hin & Hh).
  assert (Hnot : ~ In this (activeVFSList w)).
  { intros H. apply Hin in H. congruence. }
  assert (E : ArrayPrototypeIndexOf (activeVFSList w') this = (-1)%Z)
    by (rewrite El; now apply ArrayPrototypeIndexOf_In).
  split; [|split].
  - rewrite (registerVFS_appends _ _ E), El. now apply NoDup_snoc.
  - intros i. rewrite (registerVFS_appends _ _ E), heap_registerVFS, El.
    rewrite in_app_iff.
    destruct (Nat.eq_dec i this) as [->|Hne].
    + split; [intros _; exact Hon | intros _; right; now left].
    + rewrite (Eheap i Hne), <- Hin.
      split; [intros [H|[H|[]]]; [exact H | congruence] | now left].
  - intros _. rewrite hooks_registerVFS, E. apply orb_true_r.
Qed.

Lemma registryInvariant_unmount (w : World) (this : ObjId) :
  registryInvariant w -> registryInvariant (unmount this w).
Proof.
  intros (Hn & Hin & Hh). unfold unmount.
  assert (El : activeVFSList
                 (setObject (unregisterVFS this w) this
                            (setMode (heap (unregisterVFS this w) this)
                                     None false false))
               = filter (fun i => negb (i =? this)%nat) (activeVFSList w))
    by (cbn [activeVFSList setObject]; now apply unregisterVFS_list).
  split; [|split].
  - rewrite El. now apply NoDup_filter.
  - intros i. rewrite El, filter_In. cbn [heap setObject].
    rewrite heap_unregisterVFS.
    destruct (Nat.eqb_spec i this) as [->|Hne]; cbn [negb].
    + cbn [setMode kMounted kOverlay orb]. split; [intros [_ H] | intros H];
        discriminate H.
    + rewrite <- Hin. tauto.
  - intros Hne. cbn [hooksInstalled setObject]. rewrite hooks_unregisterVFS.
    apply Hh. intros E. apply Hne. now rewrite El, E.
Qed.

Lemma registryInvariant_call (w : World) (c : ObjId * Call) :
  registryInvariant w -> registryInvariant (call w c).
Proof.
  intros Hinv. destruct c as [this [prefix| | |p content|p|p]]; cbn [call].
  - unfold mount.
    destruct (kMounted (heap w this) || kOverlay (heap w this)) eqn:Hoff;
      [exact Hinv|].
    cbn [fst].
    apply (registryInvariant_activate w); try reflexivity; try assumption.
    + intros i Hne. cbn [heap setObject].
      now destruct (Nat.eqb_spec i this).
    + cbn [heap setObject]. now rewrite Nat.eqb_refl.
  - unfold overlay.
    destruct (kMounted (heap w this) || kOverlay (heap w this)) eqn:Hoff;
      [exact Hinv|].
    cbn [fst].
    apply (registryInvariant_activate w); try reflexivity; try assumption.
    + intros i Hne. cbn [heap setObject].
      now destruct (Nat.eqb_spec i this).
    + cbn [heap setObject]. rewrite Nat.eqb_refl.
      cbn [setMode kMounted kOverlay]. apply orb_true_r.
  - now apply registryInvariant_unmount.
  - destruct (addFile_mode (heap w this) p content) as (_ & Hm & Ho).
    now apply registryInvariant_tree.
  - destruct (addDirectory_mode (heap w this) p) as (_ & Hm & Ho).
    now apply registryInvariant_tree.
  - destruct (remove_mode (heap w this) p) as (_ & Hm & Ho).
    now apply registryInvariant_tree.
Qed.

End RegistryFacts.

Lemma registryInvariant_run {process : Process}
      (calls : list (ObjId * Call)) (w : World) :
  registryInvariant w -> registryInvariant (run calls w).
Proof.
  revert w. induction calls as [|c calls IH]; intros w H; [exact H|].
  apply IH. now apply registryInvariant_call.
Qed.

Lemma registryInvariant_initial : registryInvariant initialWorld.
Proof.
  split; [constructor | split; [|now intros H]].
  intros i. cbn. split; [contradiction | discriminate].
Qed.

Lemma hooks_call {process : Process} (w : World) (c : ObjId * Call) :
  hooksInstalled w = true -> hooksInstalled (call w c) = true.
Proof.
  intros H. destruct c as [this [prefix| | |p content|p|p]]; cbn [call];
    try exact H.
  - unfold mount.
    destruct (kMounted (heap w this) || kOverlay (heap w this)); [exact H|].
    cbn [fst]. rewrite hooks_registerVFS. cbn [hooksInstalled setObject].
    now rewrite H.
  - unfold overlay.
    destruct (kMounted (heap w this) || kOverlay (heap w this)); [exact H|].
    cbn [fst]. rewrite hooks_registerVFS. cbn [hooksInstalled setObject].
    now rewrite H.
  - unfold unmount. cbn [hooksInstalled setObject].
    now rewrite hooks_unregisterVFS.
Qed.

Lemma hooks_run {process : Process} (calls : list (ObjId * Call)) (w : World) :
  hooksInstalled w = true -> hooksInstalled (run calls w) = true.
Proof.
  revert w. induction calls as [|c calls IH]; intros w H; [exact H|].
  apply IH. now apply hooks_call.
Qed.

(** X18: whatever calls are made on whatever instances, the registry lists
    exactly the instances that are mounted or in overlay mode, each once;
    while the hooks are not installed no instance is active; and once the
    hooks are installed they stay installed. *)
Theorem registry_lists_active {process : Process}
        (calls : list (ObjId * Call)) :
  let w := run calls initialWorld in
  NoDup (activeVFSList w)
  /\ (forall i, In i (activeVFSList w)
                <-> isMounted (heap w i) = true \/ isOverlay (heap w i) = true)
  /\ (areHooksInstalled w = false ->
      getActiveVFSCount w = 0
      /\ forall i, isMounted (heap w i) = false /\ isOverlay (heap w i) = false)
  /\ (forall more, areHooksInstalled w = true ->
                   areHooksInstalled (run more w) = true).
Proof.
  intros w.
  destruct (registryInvariant_run calls initialWorld registryInvariant_initial)
    as (Hn & Hin & Hh).
  fold w in Hn, Hin, Hh.
  split; [exact Hn | split; [|split]].
  - intros i. rewrite Hin. unfold isMounted, isOverlay. apply orb_true_iff.
  - unfold areHooksInstalled, getActiveVFSCount. intros Hoff.
    assert (El : activeVFSList w = []).
    { destruct (activeVFSList w) eqn:E; [reflexivity|].
      rewrite Hh in Hoff by discriminate. discriminate Hoff. }
    rewrite El. split; [reflexivity|]. intros i. unfold isMounted, isOverlay.
    apply orb_false_iff.
    destruct (kMounted (heap w i) || kOverlay (heap w i)) eqn:E; [|reflexivity].
    apply Hin in E. rewrite El in E. contradiction.
  - intros more. apply hooks_run.
Qed.

Lemma setMode_inactive (this : VirtualFileSystem) :
  modeInvariant this = true -> kMounted this = false -> kOverlay this = false ->
  setMode this None false false = this.
Proof.
  destruct this as [root [m|] mounted overlay ft]; cbn; intros H -> ->;
    [discriminate H | reflexivity].
Qed.

(** X19: unmounting undoes mounting.  From any state reached by calls, for
    an instance that is neither mounted nor in overlay mode, [mount] or
    [overlay] followed by [unmount] leaves the registry and every instance
    as they were before; the hooks stay installed. *)
Theorem activate_then_unmount {process : Process}
        (calls : list (ObjId * Call)) (this : ObjId) (prefix : string) :
  path.isAbsolute cwd = true ->
  let w := run calls initialWorld in
  isMounted (heap w this) = false ->
  isOverlay (heap w this) = false ->
  forall w1,
    w1 = fst (mount this prefix w) \/ w1 = fst (overlay this w) ->
    activeVFSList w1 = activeVFSList w ++ [this]
    /\ activeVFSList (unmount this w1) = activeVFSList w
    /\ (forall i, heap (unmount this w1) i = heap w i)
    /\ areHooksInstalled (unmount this w1) = true.
Proof.
  intros Habs w Hm Ho w1 Hw1. unfold isMounted, isOverlay in *.
  pose proof (registryInvariant_run calls initialWorld registryInvariant_initial)
    as Hinv.
  fold w in Hinv. destruct Hinv as (Hn & Hin & Hh).
  assert (Hoff : kMounted (heap w this) || kOverlay (heap w this) = false)
    by now rewrite Hm, Ho.
  assert (Hnot : ~ In this (activeVFSList w)).
  { intros H. apply Hin in H. congruence. }
  apply ArrayPrototypeIndexOf_In in Hnot as Eidx.
  pose proof (reachable_modeInvariant Habs calls this) as Hmode. fold w in Hmode.
  assert (Hl1 : activeVFSList w1 = activeVFSList w ++ [this]).
  { destruct Hw1 as [-> | ->]; [unfold mount | unfold overlay];
      rewrite Hoff; cbn [fst]; now rewrite registerVFS_appends. }
  assert (Hh1 : hooksInstalled w1 = true).
  { destruct Hw1 as [-> | ->]; [unfold mount | unfold overlay];
      rewrite Hoff; cbn [fst]; rewrite hooks_registerVFS;
      cbn [activeVFSList setObject]; rewrite Eidx; apply orb_true_r. }
  assert (Hheap1 : forall i, heap w1 i
                     = if (i =? this)%nat
                       then heap w1 this else heap w i).
  { intros i. destruct (Nat.eqb_spec i this) as [->|Hne]; [reflexivity|].
    destruct Hw1 as [-> | ->].
    - rewrite (mount_inactive this prefix w i Hoff).
      now destruct (Nat.eqb_spec i this).
    - rewrite (overlay_inactive this w i Hoff).
      now destruct (Nat.eqb_spec i this). }
  assert (Hroot1 : setMode (heap w1 this) None false false
                   = setMode (heap w this) None false false).
  { destruct Hw1 as [-> | ->].
    - now rewrite (mount_inactive this prefix w this Hoff), Nat.eqb_refl.
    - now rewrite (overlay_inactive this w this Hoff), Nat.eqb_refl. }
  split; [exact Hl1 | split; [|split]].
  - unfold unmount. cbn [activeVFSList setObject].
    rewrite unregisterVFS_list, Hl1.
    + now apply filter_snoc_absent.
    + rewrite Hl1. now apply NoDup_snoc.
  - intros i. rewrite unmount_heap.
    destruct (Nat.eqb_spec i this) as [->|Hne].
    + rewrite Hroot1. now apply setMode_inactive.
    + rewrite Hheap1. now destruct (Nat.eqb_spec i this).
  - unfold areHooksInstalled, unmount. cbn [hooksInstalled setObject].
    now rewrite hooks_unregisterVFS.
Qed.

Lemma activate_then_unmount_witness :
  activeVFSList (unmount 3 (fst (mount (process := hostProcess) 3 "/tmp"
                                       sampleTwoMounts)))
  = activeVFSList sampleTwoMounts.
Proof.
  apply (activate_then_unmount (process := hostProcess)
           (sampleCalls
              ++ [ (1, CallAddFile "/a.txt" (FixedBytes "second"));
                   (2, CallAddFile "/etc/hosts" (FixedBytes "overlay"));
                   (0, CallMount "/sea");
                   (1, CallMount "/sea");
                   (2, CallOverlay) ]) 3 "/tmp" eq_refl eq_refl eq_refl
           _ (or_introl eq_refl)).
Defined.

(** ** module_hooks.js: what the installed functions return *)

(** X20: the installed functions are transparent for paths that no
    registered instance claims, and so when nothing is registered: each
    returns what the function it replaced returns.  An argument that is
    neither a string nor a URL goes to the replaced function whatever is
    registered. *)
Theorem hooks_transparent {process : Process}
        (w : World) (filename : string) :
  Forall (fun i => shouldHandle (heap w i) (normalizePath filename) = false)
         (activeVFSList w) ->
  (forall original, vfsStat original w filename = original filename)
  /\ (forall p, pathStr p = Some filename \/ p = PathOther ->
        (forall original options,
            vfsReadFileSync original w p options = original p options)
        /\ (forall original, vfsRealpathSync original w p = original p)
        /\ (forall original, vfsLstatSync original w p = original p)
        /\ (forall original, vfsStatSync original w p = original p)).
Proof.
  intros Hall.
  pose proof (findVFSForStatLoop_skip (heap w) (normalizePath filename)
                (activeVFSList w) [] Hall) as Hs.
  pose proof (fun options =>
                findVFSForReadLoop_skip (heap w) (normalizePath filename)
                  (activeVFSList w) [] filename options Hall) as Hr.
  pose proof (findVFSForRealpathLoop_skip (heap w) (normalizePath filename)
                (activeVFSList w) [] filename Hall) as Hp.
  pose proof (findVFSForFsStatLoop_skip (heap w) (normalizePath filename)
                (activeVFSList w) [] filename Hall) as Hf.
  rewrite app_nil_r in Hs, Hp, Hf.
  split.
  - intros original. unfold vfsStat, findVFSForStat. now rewrite Hs.
  - intros p [Hq | ->]; [|now repeat split].
    unfold vfsReadFileSync, vfsRealpathSync, vfsLstatSync, vfsStatSync,
      findVFSForRead, findVFSForRealpath, findVFSForFsStat.
    rewrite Hq, Hp, Hf. repeat split. intros original options.
    specialize (Hr options). rewrite app_nil_r in Hr. now rewrite Hr.
Qed.

Lemma hooks_transparent_witness :
  vfsStat (process := hostProcess) (fun _ => 7%Z) sampleTwoMounts "/usr/lib/x.js"
  = 7%Z.
Proof.
  apply (hooks_transparent (process := hostProcess) sampleTwoMounts "/usr/lib/x.js").
  repeat constructor.
Defined.

(** X21: what the installed functions return at the first registered
    instance that claims a path, when the path exists there.  The stat
    functions describe the entry and [realpathSync] returns the normalized
    path, without looking further.  [readFileSync] on a directory goes to
    the replaced function; on a file it returns the content; where the
    content cannot be read synchronously a mounted instance throws and an
    overlay lets the instances registered after it decide. *)
Theorem hooks_at_first_claim {process : Process}
        (w : World) (pre post : list ObjId) (vfs : ObjId)
        (filename : string) (p : PathLike) (entry : VirtualEntry) :
  path.isAbsolute cwd = true ->
  pathStr p = Some filename ->
  activeVFSList w = pre ++ vfs :: post ->
  Forall (fun i => shouldHandle (heap w i) (normalizePath filename) = false) pre ->
  shouldHandle (heap w vfs) (normalizePath filename) = true ->
  _resolveEntry (heap w vfs) (normalizePath filename) = Some entry ->
  (forall original,
      vfsStat original w filename = if isDirectory entry then 1%Z else 0%Z)
  /\ (forall original, vfsStatSync original w p = Return (getStats entry))
  /\ (forall original, vfsLstatSync original w p = Return (getStats entry))
  /\ (forall original,
         vfsRealpathSync original w p = Return (normalizePath filename))
  /\ (forall original options,
         vfsReadFileSync original w p options
         = match entry with
           | VirtualDirectory _ _ => original p options
           | VirtualFile _ content =>
               match syncRead content options with
               | Return data => Return data
               | Throw e =>
                   if isMounted (heap w vfs) then Throw e
                   else vfsReadFileSync original (setActiveVFSList w post)
                                        p options
               end
           end).
Proof.
  intros Habs Hp Hl Hpre Hclaim Hentry.
  assert (Hex : existsSync (heap w vfs) (normalizePath filename) = true)
    by (unfold existsSync; now rewrite Hentry).
  assert (Hstat : internalModuleStat (heap w vfs) (normalizePath filename)
                  = if isDirectory entry then 1%Z else 0%Z)
    by (unfold internalModuleStat; now rewrite Hentry).
  split; [|split; [|split; [|split]]].
  - intros original. unfold vfsStat, findVFSForStat.
    rewrite Hl, (findVFSForStatLoop_skip _ _ _ _ Hpre).
    cbn [findVFSForStatLoop]. rewrite Hclaim, Hstat.
    replace (0 <=? (if isDirectory entry then 1 else 0))%Z with true
      by now destruct (isDirectory entry).
    now rewrite orb_true_r.
  - intros original. unfold vfsStatSync, findVFSForFsStat.
    rewrite Hp, Hl, (findVFSForFsStatLoop_skip _ _ _ _ _ Hpre).
    cbn [findVFSForFsStatLoop]. rewrite Hclaim, Hex.
    unfold statSync. now rewrite Hentry.
  - intros original. unfold vfsLstatSync, findVFSForFsStat.
    rewrite Hp, Hl, (findVFSForFsStatLoop_skip _ _ _ _ _ Hpre).
    cbn [findVFSForFsStatLoop]. rewrite Hclaim, Hex.
    unfold statSync. now rewrite Hentry.
  - intros original. unfold vfsRealpathSync, findVFSForRealpath.
    rewrite Hp, Hl, (findVFSForRealpathLoop_skip _ _ _ _ _ Hpre).
    cbn [findVFSForRealpathLoop]. rewrite Hclaim, Hex.
    unfold realpathSync.
    rewrite (_resolveEntry_normalized Habs), Hentry.
    now rewrite (normalizePath_normalized Habs).
  - intros original options. unfold vfsReadFileSync, findVFSForRead.
    rewrite Hp, Hl, (findVFSForReadLoop_skip _ _ _ _ _ _ Hpre).
    cbn [findVFSForReadLoop activeVFSList heap setActiveVFSList].
    rewrite Hclaim, Hex, Hstat.
    unfold readFileSync. rewrite Hentry.
    destruct entry as [entryPath content|dirPath entries];
      cbn [isDirectory Z.eqb negb]; [|reflexivity].
    destruct content as [bytes|[bytes|e]|result];
      cbn [getContentSync syncRead]; try reflexivity;
      now destruct (isMounted (heap w vfs)).
Qed.

Lemma hooks_at_first_claim_witness :
  vfsReadFileSync (process := hostProcess) (fun _ _ => Return (Raw "disk"))
                  sampleTwoMounts (PathString "/sea/docs") OptUndefined
  = Return (Raw "disk")
  /\ vfsStat (process := hostProcess) (fun _ => (-2)%Z) sampleTwoMounts "/sea/docs"
     = 1%Z.
Proof.
  destruct (hooks_at_first_claim (process := hostProcess) sampleTwoMounts
              [] [1; 2] 0 "/sea/docs" (PathString "/sea/docs")
              (VirtualDirectory "/docs"
                 [ ("readme.md", VirtualFile "/docs/readme.md" (FixedBytes "read me"));
                   ("lazy.bin",
                    VirtualFile "/docs/lazy.bin" (AsyncProvider (Return "later"))) ])
              eq_refl eq_refl eq_refl ltac:(constructor) eq_refl eq_refl)
    as (Hs & _ & _ & _ & Hr).
  split; [exact (Hr (fun _ _ => Return (Raw "disk")) OptUndefined)
         | exact (Hs (fun _ => (-2)%Z))].
Defined.

(** ** module_hooks.js: the module loader hooks *)

Section LoaderFacts.

Context {process : Process}.
Variable fileURLToPath : string -> Outcome string.
Variable pathToFileURL : string -> string.
Variable dirname : string -> string.

Lemma vfsResolveHookLoop_firstClaim (objs : ObjId -> VirtualFileSystem)
      (list : list ObjId) (normalized : string) (next : Outcome ResolveResult) :
  vfsResolveHookLoop pathToFileURL objs list normalized next
  = match firstClaim objs list normalized with
    | None => next
    | Some vfs =>
        if (internalModuleStat (objs vfs) normalized =? 0)%Z
        then Return (mkResolveResult (pathToFileURL normalized)
                                     (getFormatFromExtension normalized) true)
        else next
    end.
Proof.
  unfold firstClaim.
  induction list as [|vfs rest IH]; [reflexivity|].
  cbn [vfsResolveHookLoop find].
  destruct (shouldHandle (objs vfs) normalized
            && existsSync (objs vfs) normalized); [|exact IH].
  now destruct (internalModuleStat (objs vfs) normalized =? 0)%Z.
Qed.

Lemma vfsResolveHookLoop_skip (objs : ObjId -> VirtualFileSystem)
      (pre rest : list ObjId) (normalized : string)
      (next : Outcome ResolveResult) :
  Forall (fun i => shouldHandle (objs i) normalized
                   && existsSync (objs i) normalized = false) pre ->
  vfsResolveHookLoop pathToFileURL objs (pre ++ rest) normalized next
  = vfsResolveHookLoop pathToFileURL objs rest normalized next.
Proof.
  induction 1 as [|i pre Hi _ IH]; [reflexivity|].
  cbn [app vfsResolveHookLoop]. now rewrite Hi.
Qed.

Lemma vfsLoadHookLoop_skip (objs : ObjId -> VirtualFileSystem)
      (pre rest : list ObjId) (normalized : string) (context : LoadContext)
      (next : Outcome LoadResult) :
  Forall (fun i => shouldHandle (objs i) normalized
                   && existsSync (objs i) normalized = false) pre ->
  vfsLoadHookLoop objs (pre ++ rest) normalized context next
  = vfsLoadHookLoop objs rest normalized context next.
Proof.
  induction 1 as [|i pre Hi _ IH]; [reflexivity|].
  cbn [app vfsLoadHookLoop]. now rewrite Hi.
Qed.

Lemma absolute_specifier (specifier : string) :
  firstCharIs specifier "/" = true ->
  StringPrototypeStartsWith specifier "node:" = false
  /\ StringPrototypeStartsWith specifier "file://" = false.
Proof.
  destruct specifier as [|c s]; [discriminate|]. cbn [firstCharIs].
  intros E. apply Ascii.eqb_eq in E. subst c. now split.
Qed.

End LoaderFacts.

Lemma file_url_not_node (url : string) :
  StringPrototypeStartsWith url "file://" = true ->
  StringPrototypeStartsWith url "node:" = false.
Proof.
  destruct url as [|c s]; [reflexivity|].
  unfold StringPrototypeStartsWith. intros Hfile.
  change (Ascii.eqb "f" c && JSString.startsWith s "ile://" = true) in Hfile.
  change (Ascii.eqb "n" c && JSString.startsWith s "ode:" = false).
  apply andb_true_iff in Hfile as [Hc _]. apply Ascii.eqb_eq in Hc.
  now subst c.
Qed.

Lemma unclaimed_unserved {process : Process} (objs : ObjId -> VirtualFileSystem)
      (normalized : string) (pre : list ObjId) :
  Forall (fun i => shouldHandle (objs i) normalized = false) pre ->
  Forall (fun i => shouldHandle (objs i) normalized
                   && existsSync (objs i) normalized = false) pre.
Proof.
  intros H. apply Forall_forall. intros i Hi.
  rewrite Forall_forall in H. now rewrite (H i Hi).
Qed.

(** ** Precedence among the registered instances *)

(** C6, as the claim states it, fails.  Two overlay instances both claim
    [/docs/lazy.bin]; the read of the first throws, so the dispatch passes
    it over and the second decides what [fs.readFileSync] returns.  And of
    two instances mounted at [/sea], both of which claim [/sea/only.js],
    the first has no such entry: the fs dispatch stops there with ENOENT,
    while the resolve hook passes the first over and lets the second
    decide. *)
Lemma first_claimer_decides_counterexample :
  (activeVFSList sampleTwoOverlays = [0; 1]
   /\ shouldHandle (process := hostProcess) (heap sampleTwoOverlays 0)
                   "/docs/lazy.bin" = true
   /\ shouldHandle (process := hostProcess) (heap sampleTwoOverlays 1)
                   "/docs/lazy.bin" = true
   /\ findVFSForRead (process := hostProcess)
                     (setActiveVFSList sampleTwoOverlays [0])
                     "/docs/lazy.bin" OptUndefined
      = Return None
   /\ findVFSForRead (process := hostProcess) sampleTwoOverlays
                     "/docs/lazy.bin" OptUndefined
      = Return (Some (1, Raw "second")))
  /\ (activeVFSList sampleShadowed = [0; 1]
      /\ shouldHandle (process := hostProcess) (heap sampleShadowed 0)
                      "/sea/only.js" = true
      /\ shouldHandle (process := hostProcess) (heap sampleShadowed 1)
                      "/sea/only.js" = true
      /\ findVFSForRead (process := hostProcess) sampleShadowed
                        "/sea/only.js" OptUndefined
         = Throw (ENOENT "open" "/sea/only.js")
      /\ vfsResolveHook (process := hostProcess)
                        (fun url => Return url) (fun p => "file://" +++ p)
                        (fun p => p)
                        (setActiveVFSList sampleShadowed [0])
                        "/sea/only.js" (mkResolveContext None)
                        (fun _ _ => Throw (Error "not found"))
         = Throw (Error "not found")
      /\ vfsResolveHook (process := hostProcess)
                        (fun url => Return url) (fun p => "file://" +++ p)
                        (fun p => p)
                        sampleShadowed
                        "/sea/only.js" (mkResolveContext None)
                        (fun _ _ => Throw (Error "not found"))
         = Return (mkResolveResult "file:///sea/only.js" "commonjs" true)).
Proof. repeat split. Qed.

(** C6, amended: precedence is by registration order, and the first
    instance that claims the path decides, but for the cases in which the
    code passes an instance over.  [registerVFS] appends to the active
    list, and the dispatch runs through the list from its head.  Let [vfs]
    be the first instance in the list that claims the path, and [found] the
    entry it has for it.  The module stat, the fs stat and the realpath
    dispatch answer from [vfs] alone: with the entry, or with the miss of a
    mounted instance (an instance that is not mounted claims only what it
    has).  The read dispatch answers from [vfs] alone too (the content of a
    file, the miss of a mounted instance, nothing for a directory), except
    when [vfs] is not mounted and its read throws: then the instances after
    it decide.  The resolve hook and the load hook pass [vfs] over when it
    has no entry, mounted or not, and the load hook also when it is not
    mounted and its read throws; otherwise they answer from [vfs] alone. *)
Theorem first_registered_wins {process : Process}
        (w : World) (pre post : list ObjId) (vfs : ObjId) (filename : string) :
  path.isAbsolute cwd = true ->
  activeVFSList w = pre ++ vfs :: post ->
  Forall (fun i => shouldHandle (heap w i) (normalizePath filename) = false) pre ->
  shouldHandle (heap w vfs) (normalizePath filename) = true ->
  let normalized := normalizePath filename in
  let found := _resolveEntry (heap w vfs) normalized in
  (forall w' id, ArrayPrototypeIndexOf (activeVFSList w') id = (-1)%Z ->
                 activeVFSList (registerVFS id w') = activeVFSList w' ++ [id])
  /\ (found = None -> isMounted (heap w vfs) = true)
  /\ findVFSForStat w filename
     = Some (vfs, match found with
                  | Some entry => if isDirectory entry then 1%Z else 0%Z
                  | None => (-2)%Z
                  end)
  /\ findVFSForFsStat w filename
     = match found with
       | Some entry => Return (Some (vfs, getStats entry))
       | None => Throw (createENOENT "stat" filename)
       end
  /\ findVFSForRealpath w filename
     = match found with
       | Some _ => Return (Some (vfs, normalized))
       | None => Throw (createENOENT "realpath" filename)
       end
  /\ (forall options,
         findVFSForRead w filename options
         = match found with
           | Some (VirtualFile _ content) =>
               match syncRead content options with
               | Return data => Return (Some (vfs, data))
               | Throw e =>
                   if isMounted (heap w vfs) then Throw e
                   else findVFSForRead (setActiveVFSList w post) filename options
               end
           | Some (VirtualDirectory _ _) => Return None
           | None => Throw (createENOENT "open" filename)
           end)
  /\ (forall fileURLToPath pathToFileURL dirname context nextResolve,
         firstCharIs filename "/" = true ->
         vfsResolveHook fileURLToPath pathToFileURL dirname
                        w filename context nextResolve
         = match found with
           | Some (VirtualFile _ _) =>
               Return (mkResolveResult (pathToFileURL normalized)
                                       (getFormatFromExtension normalized) true)
           | Some (VirtualDirectory _ _) => nextResolve filename context
           | None =>
               vfsResolveHook fileURLToPath pathToFileURL dirname
                              (setActiveVFSList w post) filename context
                              nextResolve
           end)
  /\ (forall fileURLToPath url context nextLoad,
         StringPrototypeStartsWith url "file://" = true ->
         fileURLToPath url = Return filename ->
         vfsLoadHook fileURLToPath w url context nextLoad
         = match found with
           | Some (VirtualFile _ content) =>
               match syncRead content (OptString "utf8") with
               | Return source =>
                   Return (mkLoadResult
                             match contextFormat context with
                             | Some format =>
                                 if JSString.truthy format then format
                                 else getFormatFromExtension normalized
                             | None => getFormatFromExtension normalized
                             end
                             source true)
               | Throw e =>
                   if isMounted (heap w vfs) then Throw e
                   else vfsLoadHook fileURLToPath (setActiveVFSList w post)
                                    url context nextLoad
               end
           | Some (VirtualDirectory _ _) => nextLoad url context
           | None =>
               vfsLoadHook fileURLToPath (setActiveVFSList w post)
                           url context nextLoad
           end).
Proof.
  intros Habs Hlist Hpre Hclaim normalized found.
  split; [exact (fun w' id => registerVFS_appends id w')|].
  assert (Hmiss : found = None -> isMounted (heap w vfs) = true).
  { intros Hnone. destruct (isMounted (heap w vfs)) eqn:Hm; [reflexivity|].
    destruct (shouldHandle_unmounted _ _ Habs Hclaim Hm) as [entry He].
    subst found normalized. congruence. }
  pose proof (unclaimed_unserved (heap w) normalized pre Hpre) as Hpre'.
  split; [exact Hmiss|].
  split; [|split; [|split; [|split; [|split]]]].
  - unfold findVFSForStat. fold normalized.
    rewrite Hlist, findVFSForStatLoop_skip by exact Hpre.
    cbn [findVFSForStatLoop]. fold normalized in Hclaim. rewrite Hclaim.
    unfold internalModuleStat. fold found.
    destruct found as [entry|] eqn:E.
    + destruct (isDirectory entry); now rewrite orb_true_r.
    + now rewrite (Hmiss eq_refl).
  - unfold findVFSForFsStat. fold normalized.
    rewrite Hlist, findVFSForFsStatLoop_skip by exact Hpre.
    cbn [findVFSForFsStatLoop]. fold normalized in Hclaim. rewrite Hclaim.
    unfold existsSync, statSync. fold found.
    destruct found as [entry|] eqn:E; [reflexivity|].
    now rewrite (Hmiss eq_refl).
  - unfold findVFSForRealpath. fold normalized.
    rewrite Hlist, findVFSForRealpathLoop_skip by exact Hpre.
    cbn [findVFSForRealpathLoop]. fold normalized in Hclaim. rewrite Hclaim.
    assert (Hn : normalizePath normalized = normalized)
      by apply (normalizePath_normalized Habs filename).
    unfold existsSync, realpathSync. rewrite Hn. fold found.
    destruct found as [entry|] eqn:E; [reflexivity|].
    now rewrite (Hmiss eq_refl).
  - intros options. unfold findVFSForRead. fold normalized.
    rewrite Hlist, findVFSForReadLoop_skip by exact Hpre.
    cbn [findVFSForReadLoop activeVFSList heap setActiveVFSList].
    fold normalized in Hclaim. rewrite Hclaim.
    unfold existsSync, internalModuleStat, readFileSync. fold found.
    destruct found as [[entryPath content|dirPath entries]|] eqn:E.
    + cbn [isDirectory Z.eqb negb].
      destruct content as [bytes|[bytes|e]|result];
        cbn [getContentSync syncRead]; try reflexivity;
        now destruct (isMounted (heap w vfs)).
    + reflexivity.
    + now rewrite (Hmiss eq_refl).
  - intros fileURLToPath pathToFileURL dirname context nextResolve Hslash.
    unfold vfsResolveHook.
    destruct (absolute_specifier filename Hslash) as [-> ->]. rewrite Hslash.
    cbn [activeVFSList heap setActiveVFSList]. fold normalized.
    rewrite Hlist, vfsResolveHookLoop_skip by exact Hpre'.
    cbn [vfsResolveHookLoop]. fold normalized in Hclaim. rewrite Hclaim.
    unfold existsSync, internalModuleStat. fold found.
    now destruct found as [[entryPath content|dirPath entries]|] eqn:E.
  - intros fileURLToPath url context nextLoad Hfile Hpath.
    unfold vfsLoadHook.
    rewrite (file_url_not_node url Hfile), Hfile, Hpath. cbn [negb].
    cbn [activeVFSList heap setActiveVFSList]. fold normalized.
    rewrite Hlist, vfsLoadHookLoop_skip by exact Hpre'.
    cbn [vfsLoadHookLoop]. fold normalized in Hclaim. rewrite Hclaim.
    unfold existsSync, internalModuleStat, readFileSync. fold found.
    destruct found as [[entryPath content|dirPath entries]|] eqn:E;
      [|reflexivity..].
    cbn [isDirectory Z.eqb negb andb].
    destruct content as [bytes|[bytes|e]|result];
      cbn [getContentSync syncRead]; try reflexivity;
      now destruct (isMounted (heap w vfs)).
Qed.

Lemma first_registered_wins_witness :
  findVFSForStat (process := hostProcess) sampleTwoMounts "/sea/a.txt"
  = Some (0, 0%Z)
  /\ findVFSForRead (process := hostProcess) sampleTwoMounts "/sea/a.txt" OptUndefined
     = Return (Some (0, Raw "hi")).
Proof.
  destruct (first_registered_wins (process := hostProcess)
              sampleTwoMounts [] [1; 2] 0 "/sea/a.txt"
              eq_refl eq_refl (Forall_nil _) eq_refl)
    as (_ & _ & Hstat & _ & _ & Hread & _).
  split; [exact Hstat | exact (Hread OptUndefined)].
Defined.

(** X22: the resolve hook.  A [node:] specifier, a bare specifier and a
    relative specifier without a parent URL go to the next resolver,
    whatever is registered.  For an absolute path, and for a [file:] URL
    once it is turned into a path, the first registered instance that
    claims the path and has it decides: a file is resolved to its URL with
    the format of its extension, short-circuiting the chain; a directory
    goes to the next resolver, as does a path that no instance claims and
    has. *)
Theorem vfsResolveHook_specification {process : Process}
        (fileURLToPath : string -> Outcome string)
        (pathToFileURL : string -> string) (dirname : string -> string)
        (w : World) (specifier : string) (context : ResolveContext)
        (nextResolve : string -> ResolveContext -> Outcome ResolveResult) :
  let hook := vfsResolveHook fileURLToPath pathToFileURL dirname
                             w specifier context nextResolve in
  let next := nextResolve specifier context in
  let decided (checkPath : string) :=
    let normalized := normalizePath checkPath in
    match firstClaim (heap w) (activeVFSList w) normalized with
    | None => next
    | Some vfs =>
        if (internalModuleStat (heap w vfs) normalized =? 0)%Z
        then Return (mkResolveResult (pathToFileURL normalized)
                                     (getFormatFromExtension normalized) true)
        else next
    end in
  (StringPrototypeStartsWith specifier "node:" = true -> hook = next)
  /\ (StringPrototypeStartsWith specifier "file://" = false ->
      firstCharIs specifier "/" = false ->
      firstCharIs specifier "." = false \/ parentURL context = None ->
      hook = next)
  /\ (firstCharIs specifier "/" = true -> hook = decided specifier)
  /\ (forall checkPath,
         StringPrototypeStartsWith specifier "file://" = true ->
         fileURLToPath specifier = Return checkPath ->
         hook = decided checkPath).
Proof.
  intros hook next decided. subst hook next decided. unfold vfsResolveHook.
  split; [|split; [|split]].
  - now intros ->.
  - intros -> -> Hcase.
    destruct (StringPrototypeStartsWith specifier "node:"); [reflexivity|].
    destruct Hcase as [-> | ->]; [reflexivity|].
    now destruct (firstCharIs specifier ".").
  - intros Habs. cbv zeta.
    destruct (absolute_specifier specifier Habs) as [-> ->]. rewrite Habs.
    apply vfsResolveHookLoop_firstClaim.
  - intros checkPath Hfile Hpath. cbv zeta.
    assert (Hnode : StringPrototypeStartsWith specifier "node:" = false).
    { destruct specifier as [|c s]; [reflexivity|].
      unfold StringPrototypeStartsWith in *.
      change (Ascii.eqb "f" c && JSString.startsWith s "ile://" = true) in Hfile.
      change (Ascii.eqb "n" c && JSString.startsWith s "ode:" = false).
      apply andb_true_iff in Hfile as [Hc _]. apply Ascii.eqb_eq in Hc.
      now subst c. }
    rewrite Hnode, Hfile, Hpath.
    apply vfsResolveHookLoop_firstClaim.
Qed.

Lemma vfsResolveHook_specification_witness :
  vfsResolveHook (process := hostProcess)
                 (fun url => Return url) (fun p => "file://" +++ p) (fun p => p)
                 sampleTwoMounts "/sea/docs/readme.md" (mkResolveContext None)
                 (fun _ _ => Throw (Error "not found"))
  = Return (mkResolveResult "file:///sea/docs/readme.md" "commonjs" true).
Proof.
  exact (proj1 (proj2 (proj2 (vfsResolveHook_specification (process := hostProcess)
                                (fun url => Return url) (fun p => "file://" +++ p)
                                (fun p => p)
                                sampleTwoMounts "/sea/docs/readme.md"
                                (mkResolveContext None)
                                (fun _ _ => Throw (Error "not found")))))
               eq_refl).
Defined.

(** X23: the load hook.  A URL that is not a [file:] URL goes to the next
    loader, whatever is registered.  For a [file:] URL, instances that do
    not both claim the path and have it are passed over; at the first that
    does, a directory goes to the next loader; a file is loaded as UTF-8
    text with the format of the context, or of its extension when the
    context has none, short-circuiting the chain; and where the content
    cannot be read synchronously a mounted instance throws and an overlay
    lets the instances registered after it decide. *)
Theorem vfsLoadHook_specification {process : Process}
        (fileURLToPath : string -> Outcome string)
        (w : World) (url : string) (context : LoadContext)
        (nextLoad : string -> LoadContext -> Outcome LoadResult) :
  let hook := fun w => vfsLoadHook fileURLToPath w url context nextLoad in
  let next := nextLoad url context in
  (StringPrototypeStartsWith url "file://" = false -> hook w = next)
  /\ (forall filePath,
         StringPrototypeStartsWith url "file://" = true ->
         fileURLToPath url = Return filePath ->
         let normalized := normalizePath filePath in
         (firstClaim (heap w) (activeVFSList w) normalized = None ->
          hook w = next)
         /\ (forall pre vfs post entry,
                activeVFSList w = pre ++ vfs :: post ->
                Forall (fun i => shouldHandle (heap w i) normalized
                                 && existsSync (heap w i) normalized = false)
                       pre ->
                shouldHandle (heap w vfs) normalized = true ->
                _resolveEntry (heap w vfs) normalized = Some entry ->
                hook w
                = match entry with
                  | VirtualDirectory _ _ => next
                  | VirtualFile _ content =>
                      match syncRead content (OptString "utf8") with
                      | Return source =>
                          Return (mkLoadResult
                                    match contextFormat context with
                                    | Some format =>
                                        if JSString.truthy format then format
                                        else getFormatFromExtension normalized
                                    | None => getFormatFromExtension normalized
                                    end
                                    source true)
                      | Throw e =>
                          if isMounted (heap w vfs) then Throw e
                          else hook (setActiveVFSList w post)
                      end
                  end)).
Proof.
  intros hook next. subst hook next. unfold vfsLoadHook. split.
  - intros Hfile. rewrite Hfile. cbn [negb].
    now destruct (StringPrototypeStartsWith url "node:").
  - intros filePath Hfile Hpath. cbv zeta.
    set (normalized := normalizePath filePath).
    assert (Hnode : StringPrototypeStartsWith url "node:" = false).
    { destruct url as [|c s]; [reflexivity|].
      unfold StringPrototypeStartsWith in *.
      change (Ascii.eqb "f" c && JSString.startsWith s "ile://" = true) in Hfile.
      change (Ascii.eqb "n" c && JSString.startsWith s "ode:" = false).
      apply andb_true_iff in Hfile as [Hc _]. apply Ascii.eqb_eq in Hc.
      now subst c. }
    rewrite Hnode, Hfile, Hpath. cbn [negb]. fold normalized. split.
    + unfold firstClaim. intros Hnone.
      rewrite <- (app_nil_r (activeVFSList w)).
      rewrite vfsLoadHookLoop_skip; [reflexivity|].
      apply Forall_forall. intros i Hi.
      exact (find_none _ _ Hnone i Hi).
    + intros pre vfs post entry Hl Hpre Hclaim Hentry.
      rewrite Hl, (vfsLoadHookLoop_skip _ _ _ _ _ _ Hpre).
      cbn [vfsLoadHookLoop activeVFSList heap setActiveVFSList].
      unfold existsSync, internalModuleStat, readFileSync.
      rewrite Hclaim, Hentry. cbn [andb].
      destruct entry as [entryPath content|dirPath entries];
        cbn [isDirectory Z.eqb negb]; [|reflexivity].
      destruct content as [bytes|[bytes|e]|result];
        cbn [getContentSync syncRead]; try reflexivity;
        now destruct (isMounted (heap w vfs)).
Qed.

Lemma vfsLoadHook_specification_witness :
  vfsLoadHook (process := hostProcess) (fun url => Return url)
              sampleTwoMounts "https://example.org/x.mjs" (mkLoadContext None)
              (fun _ _ => Throw (Error "default loader"))
  = Throw (Error "default loader").
Proof.
  exact (proj1 (vfsLoadHook_specification (process := hostProcess)
                  (fun url => Return url) sampleTwoMounts
                  "https://example.org/x.mjs" (mkLoadContext None)
                  (fun _ _ => Throw (Error "default loader")))
               eq_refl).
Defined.

(** ** The fallthrough option *)

Section FallthroughFacts.

Context {process : Process}.

Lemma _resolveEntry_fallthrough (this : VirtualFileSystem) (option : bool)
      (q : string) :
  _resolveEntry (setFallthrough this option) q = _resolveEntry this q.
Proof. reflexivity. Qed.

Lemma shouldHandle_fallthrough (this : VirtualFileSystem) (option : bool)
      (q : string) :
  shouldHandle (setFallthrough this option) q = shouldHandle this q.
Proof. reflexivity. Qed.

Variable w : World.
Variable option : ObjId -> bool.

Lemma findVFSForStatLoop_fallthrough (list : list ObjId) (normalized : string) :
  findVFSForStatLoop (heap (withFallthrough w option)) list normalized
  = findVFSForStatLoop (heap w) list normalized.
Proof.
  induction list as [|vfs rest IH]; [reflexivity|].
  cbn [findVFSForStatLoop]. rewrite IH. reflexivity.
Qed.

Lemma findVFSForReadLoop_fallthrough (list : list ObjId)
      (filename normalized : string) (options : ReadOptions) :
  findVFSForReadLoop (heap (withFallthrough w option)) list filename normalized
                     options
  = findVFSForReadLoop (heap w) list filename normalized options.
Proof.
  induction list as [|vfs rest IH]; [reflexivity|].
  cbn [findVFSForReadLoop]. rewrite IH. reflexivity.
Qed.

Lemma findVFSForRealpathLoop_fallthrough (list : list ObjId)
      (filename normalized : string) :
  findVFSForRealpathLoop (heap (withFallthrough w option)) list filename normalized
  = findVFSForRealpathLoop (heap w) list filename normalized.
Proof.
  induction list as [|vfs rest IH]; [reflexivity|].
  cbn [findVFSForRealpathLoop]. rewrite IH. reflexivity.
Qed.

Lemma findVFSForFsStatLoop_fallthrough (list : list ObjId)
      (filename normalized : string) :
  findVFSForFsStatLoop (heap (withFallthrough w option)) list filename normalized
  = findVFSForFsStatLoop (heap w) list filename normalized.
Proof.
  induction list as [|vfs rest IH]; [reflexivity|].
  cbn [findVFSForFsStatLoop]. rewrite IH. reflexivity.
Qed.

Lemma vfsResolveHookLoop_fallthrough (pathToFileURL : string -> string)
      (list : list ObjId) (normalized : string) (next : Outcome ResolveResult) :
  vfsResolveHookLoop pathToFileURL (heap (withFallthrough w option)) list
                     normalized next
  = vfsResolveHookLoop pathToFileURL (heap w) list normalized next.
Proof.
  induction list as [|vfs rest IH]; [reflexivity|].
  cbn [vfsResolveHookLoop]. rewrite IH. reflexivity.
Qed.

Lemma vfsLoadHookLoop_fallthrough (list : list ObjId) (normalized : string)
      (context : LoadContext) (next : Outcome LoadResult) :
  vfsLoadHookLoop (heap (withFallthrough w option)) list normalized context next
  = vfsLoadHookLoop (heap w) list normalized context next.
Proof.
  induction list as [|vfs rest IH]; [reflexivity|].
  cbn [vfsLoadHookLoop]. rewrite IH. reflexivity.
Qed.

End FallthroughFacts.

Lemma fallthrough_call {process : Process} (w : World) (c : ObjId * Call)
      (i : ObjId) :
  kFallthrough (heap (call w c) i) = kFallthrough (heap w i).
Proof.
  destruct c as [this [prefix| | |p content|p|p]]; cbn [call].
  - unfold mount.
    destruct (kMounted (heap w this) || kOverlay (heap w this)); [reflexivity|].
    cbn [fst]. rewrite heap_registerVFS. cbn [heap setObject].
    rewrite Nat.eqb_refl. now destruct (Nat.eqb_spec i this) as [->|_].
  - unfold overlay.
    destruct (kMounted (heap w this) || kOverlay (heap w this)); [reflexivity|].
    cbn [fst]. rewrite heap_registerVFS. cbn [heap setObject].
    now destruct (Nat.eqb_spec i this) as [->|_].
  - rewrite unmount_heap. now destruct (Nat.eqb_spec i this) as [->|_].
  - cbn [heap setObject]. destruct (Nat.eqb_spec i this) as [->|_]; [|reflexivity].
    apply (treeCall_mode (heap w this) (TreeAddFile p content)).
  - cbn [heap setObject]. destruct (Nat.eqb_spec i this) as [->|_]; [|reflexivity].
    apply (treeCall_mode (heap w this) (TreeAddDirectory p)).
  - cbn [heap setObject]. destruct (Nat.eqb_spec i this) as [->|_]; [|reflexivity].
    apply (treeCall_mode (heap w this) (TreeRemove p)).
Qed.

Lemma fallthrough_run {process : Process} (calls : list (ObjId * Call))
      (w : World) (i : ObjId) :
  kFallthrough (heap (run calls w) i) = kFallthrough (heap w i).
Proof.
  revert w. induction calls as [|c calls IH]; intros w; [reflexivity|].
  unfold run in *. cbn [fold_left]. rewrite IH. apply fallthrough_call.
Qed.

(** X24: the [fallthrough] option is kept as it was given and is nowhere
    read.  No call changes it; and the operations of an instance, the
    functions installed in place of the [fs] functions and the loader hooks
    give the same results whatever value the option has in each instance. *)
Theorem fallthrough_is_not_read {process : Process}
        (w : World) (option : ObjId -> bool) :
  (forall calls i,
      fallthrough (heap (run calls w) i) = fallthrough (heap w i))
  /\ (forall i c, fallthrough (treeCall (heap w i) c) = fallthrough (heap w i))
  /\ (forall i q, shouldHandle (heap (withFallthrough w option) i) q
                  = shouldHandle (heap w i) q
                  /\ _resolveEntry (heap (withFallthrough w option) i) q
                     = _resolveEntry (heap w i) q)
  /\ (forall original filename,
         vfsStat original (withFallthrough w option) filename
         = vfsStat original w filename)
  /\ (forall original p options,
         vfsReadFileSync original (withFallthrough w option) p options
         = vfsReadFileSync original w p options)
  /\ (forall original p,
         vfsRealpathSync original (withFallthrough w option) p
         = vfsRealpathSync original w p)
  /\ (forall original p,
         vfsLstatSync original (withFallthrough w option) p
         = vfsLstatSync original w p
         /\ vfsStatSync original (withFallthrough w option) p
            = vfsStatSync original w p)
  /\ (forall fileURLToPath pathToFileURL dirname specifier context next,
         vfsResolveHook fileURLToPath pathToFileURL dirname
                        (withFallthrough w option) specifier context next
         = vfsResolveHook fileURLToPath pathToFileURL dirname
                          w specifier context next)
  /\ (forall fileURLToPath url context next,
         vfsLoadHook fileURLToPath (withFallthrough w option) url context next
         = vfsLoadHook fileURLToPath w url context next).
Proof.
  split; [intros calls i; apply fallthrough_run|].
  split; [intros i c; apply treeCall_mode|].
  split; [intros i q; split; reflexivity|].
  split; [intros original filename | split; [intros original p options|
    split; [intros original p | split; [intros original p; split |
      split; [intros fileURLToPath pathToFileURL dirname specifier context next
             | intros fileURLToPath url context next]]]]].
  - unfold vfsStat, findVFSForStat. cbn [activeVFSList withFallthrough].
    now rewrite findVFSForStatLoop_fallthrough.
  - unfold vfsReadFileSync, findVFSForRead. cbn [activeVFSList withFallthrough].
    destruct (pathStr p); [|reflexivity].
    now rewrite findVFSForReadLoop_fallthrough.
  - unfold vfsRealpathSync, findVFSForRealpath.
    cbn [activeVFSList withFallthrough].
    destruct (pathStr p); [|reflexivity].
    now rewrite findVFSForRealpathLoop_fallthrough.
  - unfold vfsLstatSync, findVFSForFsStat. cbn [activeVFSList withFallthrough].
    destruct (pathStr p); [|reflexivity].
    now rewrite findVFSForFsStatLoop_fallthrough.
  - unfold vfsStatSync, findVFSForFsStat. cbn [activeVFSList withFallthrough].
    destruct (pathStr p); [|reflexivity].
    now rewrite findVFSForFsStatLoop_fallthrough.
  - unfold vfsResolveHook. cbn [activeVFSList withFallthrough].
    destruct (StringPrototypeStartsWith specifier "node:"); [reflexivity|].
    destruct (StringPrototypeStartsWith specifier "file://").
    { destruct (fileURLToPath specifier); [|reflexivity].
      apply vfsResolveHookLoop_fallthrough. }
    destruct (firstCharIs specifier "/");
      [apply vfsResolveHookLoop_fallthrough|].
    destruct (firstCharIs specifier "."); [|reflexivity].
    destruct (parentURL context) as [parent|]; [|reflexivity].
    destruct (JSString.truthy parent); [|reflexivity].
    destruct (urlToPath fileURLToPath parent); [|reflexivity].
    apply vfsResolveHookLoop_fallthrough.
  - unfold vfsLoadHook. cbn [activeVFSList withFallthrough].
    destruct (StringPrototypeStartsWith url "node:"); [reflexivity|].
    destruct (negb (StringPrototypeStartsWith url "file://")); [reflexivity|].
    destruct (fileURLToPath url); [|reflexivity].
    now rewrite vfsLoadHookLoop_fallthrough.
Qed.

(** ** virtual_fs.js: the ancestors of an added path *)

Lemma addFileLoop_throws (segments done : list string)
      (current entry : VirtualEntry) :
  segments <> [] ->
  isReturn (snd (addFileLoop current done segments entry)) = false
  <-> exists init rest blocker,
        segments = init ++ rest /\ rest <> []
        /\ resolveSegments current init = Some blocker
        /\ isDirectory blocker = false.
Proof.
  revert done current.
  induction segments as [|s rest IH]; intros done current Hne; [congruence|].
  destruct rest as [|s' rest'].
  - rewrite addFileLoop_last. split.
    + destruct (isDirectory current) eqn:Hd; [discriminate|]. intros _.
      exists [], [s], current. now repeat split.
    + intros (init & rest & blocker & E & Hr & Hres & Hb).
      destruct init as [|i init].
      * cbn in Hres. injection Hres as <-. now rewrite Hb.
      * destruct init; destruct rest; cbn in E; congruence.
  - rewrite addFileLoop_step by discriminate.
    specialize (IH (done ++ [s])).
    destruct (isDirectory current) eqn:Hd; cbn [negb].
    2:{ split; [intros _ | reflexivity].
        exists [], (s :: s' :: rest'), current. now repeat split. }
    destruct (getEntry current s) as [child|] eqn:Hg.
    + destruct (isDirectory child) eqn:Hc; cbn [negb].
      * cbn [snd]. rewrite (IH child) by discriminate. split.
        -- intros (init & rest & blocker & E & Hr & Hres & Hb).
           exists (s :: init), rest, blocker. repeat split; try assumption.
           ++ cbn [app]. now rewrite E.
           ++ cbn [resolveSegments]. now rewrite Hd, Hg.
        -- intros (init & rest & blocker & E & Hr & Hres & Hb).
           destruct init as [|i init].
           ++ cbn in Hres. injection Hres as <-. congruence.
           ++ cbn [app] in E. injection E as <- E.
              cbn [resolveSegments] in Hres. rewrite Hd, Hg in Hres.
              exists init, rest, blocker. now repeat split.
      * split; [intros _ | reflexivity].
        exists [s], (s' :: rest'), child. repeat split; try discriminate;
          try assumption.
        cbn [resolveSegments]. now rewrite Hd, Hg.
    + cbv zeta. cbn [snd]. rewrite addFileLoop_fresh. split; [discriminate|].
      intros (init & rest & blocker & E & Hr & Hres & Hb).
      destruct init as [|i init].
      * cbn in Hres. injection Hres as <-. congruence.
      * cbn [app] in E. injection E as <- E.
        cbn [resolveSegments] in Hres. rewrite Hd, Hg in Hres.
        discriminate Hres.
Qed.

Lemma resolveSegments_prefix (init rest : list string)
      (root entry : VirtualEntry) :
  rest <> [] ->
  resolveSegments root (init ++ rest) = Some entry ->
  exists dir, resolveSegments root init = Some dir /\ isDirectory dir = true.
Proof.
  revert root. induction init as [|s init IH]; intros root Hne H.
  - destruct rest as [|r rest]; [congruence|]. cbn [app resolveSegments] in H.
    exists root. split; [reflexivity|].
    now destruct (isDirectory root).
  - cbn [app resolveSegments] in *.
    destruct (negb (isDirectory root)); [discriminate H|].
    destruct (getEntry root s) as [child|]; [|discriminate H].
    now apply (IH child).
Qed.

Lemma internalModuleStat_segments {process : Process}
      (this : VirtualFileSystem) (segments : list string) :
  path.isAbsolute cwd = true ->
  kMounted this = false ->
  Forall (fun s => cleanSegment s = true) segments ->
  internalModuleStat this (pathOf segments)
  = match resolveSegments (kRoot this) segments with
    | None => (-2)%Z
    | Some entry => if isDirectory entry then 1%Z else 0%Z
    end.
Proof.
  intros Habs Hm Hs. unfold internalModuleStat.
  destruct (_resolveEntry_segments Habs this (pathOf segments) Hm) as [-> _].
  now rewrite (normalizePath_pathOf _ Hs), (splitPath_pathOf _ Hs).
Qed.

(** X25: [addFile] and [addDirectory] make the directories above the path
    and fail only on a file in the way.  In an instance that is not
    mounted, for a path other than the root, each of the two calls throws
    exactly when a proper ancestor of the path is not a directory (the two
    fail on the same paths); and after a call that returns, every proper
    ancestor of the path is a directory. *)
Theorem addFile_ancestors {process : Process}
        (this : VirtualFileSystem) (p : string) (c : ContentSource) :
  path.isAbsolute cwd = true ->
  isMounted this = false ->
  normalizePath p <> "/" ->
  let blocked :=
    exists init rest,
      splitPath (normalizePath p) = init ++ rest /\ rest <> []
      /\ internalModuleStat this (pathOf init) = 0%Z in
  let made (after : VirtualFileSystem) :=
    forall init rest,
      splitPath (normalizePath p) = init ++ rest -> rest <> [] ->
      internalModuleStat after (pathOf init) = 1%Z in
  ((exists e, snd (addFile this p c) = Throw e) <-> blocked)
  /\ ((exists e, snd (addDirectory this p) = Throw e) <-> blocked)
  /\ (snd (addFile this p c) = Return tt -> made (fst (addFile this p c)))
  /\ (snd (addDirectory this p) = Return tt -> made (fst (addDirectory this p))).
Proof.
  intros Habs Hm Hne blocked made. unfold isMounted in Hm.
  destruct (normalizePath_clean Habs p) as (segs & Hs & E).
  assert (Esp : splitPath (normalizePath p) = segs)
    by (rewrite E; now apply splitPath_pathOf).
  assert (Hsne : segs <> []) by (intros ->; now apply Hne).
  assert (Hlen : (List.length (splitPath (normalizePath p)) =? 0)%nat = false).
  { rewrite Esp. now destruct segs. }
  assert (Hclean : forall init rest, segs = init ++ rest ->
                     Forall (fun s => cleanSegment s = true) init).
  { intros init rest ->. now apply Forall_app in Hs as [Hi _]. }
  assert (Hblocked : forall entry,
             isReturn (snd (addFileLoop (kRoot this) [] segs entry)) = false
             <-> blocked).
  { intros entry. rewrite (addFileLoop_throws segs [] (kRoot this) entry Hsne).
    subst blocked. rewrite Esp. split.
    - intros (init & rest & blocker & E' & Hr & Hres & Hb).
      exists init, rest. repeat split; try assumption.
      rewrite (internalModuleStat_segments this init Habs Hm (Hclean _ _ E')).
      now rewrite Hres, Hb.
    - intros (init & rest & E' & Hr & Hstat).
      rewrite (internalModuleStat_segments this init Habs Hm (Hclean _ _ E'))
        in Hstat.
      destruct (resolveSegments (kRoot this) init) as [blocker|] eqn:Hres;
        [|discriminate Hstat].
      exists init, rest, blocker. repeat split; try assumption.
      now destruct (isDirectory blocker). }
  assert (Hmade : forall after entry,
             kMounted after = false ->
             kRoot after = fst (addFileLoop (kRoot this) [] segs entry) ->
             snd (addFileLoop (kRoot this) [] segs entry) = Return tt ->
             made after).
  { intros after entry Hafter Hroot Hret init rest E' Hr. rewrite Esp in E'.
    rewrite (internalModuleStat_segments after init Habs Hafter (Hclean _ _ E')).
    pose proof (addFileLoop_found segs [] (kRoot this) entry Hsne Hret) as Hf.
    rewrite <- Hroot, E' in Hf.
    destruct (resolveSegments_prefix init rest _ _ Hr Hf) as (dir & -> & ->).
    reflexivity. }
  split; [|split; [|split]].
  - rewrite <- (Hblocked (VirtualFile (normalizePath p) c)), <- Esp.
    unfold addFile. rewrite Hlen.
    destruct (addFileLoop (kRoot this) [] (splitPath (normalizePath p))
                (VirtualFile (normalizePath p) c)) as [root r].
    cbn [snd]. symmetry. apply isReturn_unit.
  - rewrite <- (Hblocked (VirtualDirectory (normalizePath p) [])), <- Esp.
    unfold addDirectory. rewrite Hlen.
    pose proof (addDirectoryLoop_addFileLoop (splitPath (normalizePath p)) []
                  (kRoot this) (VirtualDirectory (normalizePath p) []))
      as [_ Hr].
    destruct (addDirectoryLoop (kRoot this) [] (splitPath (normalizePath p))
                (VirtualDirectory (normalizePath p) [])) as [root r].
    cbn [snd] in *. rewrite <- Hr. symmetry. apply isReturn_unit.
  - intros Hret. destruct (addFile_returns this p c Hret) as (_ & Hroot & Hloop).
    rewrite Esp in Hroot, Hloop.
    apply (Hmade _ (VirtualFile (normalizePath p) c)); try assumption.
    now rewrite addFile_mode_kept.
  - intros Hret.
    destruct (addDirectory_returns this p Hne Hret) as (Hroot & Hloop).
    rewrite Esp in Hroot, Hloop.
    apply (Hmade _ (VirtualDirectory (normalizePath p) [])); try assumption.
    now rewrite addDirectory_mode_kept.
Qed.

Lemma addFile_ancestors_witness :
  (exists e, snd (addFile (process := hostProcess) (heap sampleUnmounted 0)
                          "/a.txt/b/c.txt" (FixedBytes "c")) = Throw e)
  /\ internalModuleStat (process := hostProcess)
       (fst (addFile (process := hostProcess) (heap sampleUnmounted 0)
                     "/x/y/z.txt" (FixedBytes "z")))
       (pathOf ["x"; "y"]) = 1%Z.
Proof.
  split.
  - apply (proj1 (addFile_ancestors (process := hostProcess)
                    (heap sampleUnmounted 0) "/a.txt/b/c.txt" (FixedBytes "c")
                    eq_refl eq_refl ltac:(discriminate))).
    exists ["a.txt"], ["b"; "c.txt"].
    split; [reflexivity | split; [discriminate | reflexivity]].
  - apply (proj1 (proj2 (proj2 (addFile_ancestors (process := hostProcess)
                    (heap sampleUnmounted 0) "/x/y/z.txt" (FixedBytes "z")
                    eq_refl eq_refl ltac:(discriminate))))
                 eq_refl ["x"; "y"] ["z.txt"] eq_refl ltac:(discriminate)).
Defined.

(** ** The adapter for the assets of a single executable application *)

Lemma resolveSegments_file (fp : string) (fc : ContentSource)
      (place : list string) (found : VirtualEntry) :
  resolveSegments (VirtualFile fp fc) place = Some found ->
  place = [] /\ found = VirtualFile fp fc.
Proof.
  destruct place as [|s place]; cbn; [|discriminate].
  intros [= <-]. now split.
Qed.

Lemma resolveSegments_empty (p : string) (place : list string)
      (fp : string) (fc : ContentSource) :
  resolveSegments (VirtualDirectory p []) place <> Some (VirtualFile fp fc).
Proof. destruct place as [|s place]; cbn; discriminate. Qed.

Lemma resolveSegments_nil_file (dir : VirtualEntry) (fp : string)
      (fc : ContentSource) :
  isDirectory dir = true -> resolveSegments dir [] <> Some (VirtualFile fp fc).
Proof. destruct dir; cbn; [discriminate|]. intros _ H. discriminate H. Qed.

(** The files in the tree after the loop of [addFile]: the one it put, and
    files that were there. *)
Lemma addFileLoop_files (segments done : list string) (current : VirtualEntry)
      (p : string) (c : ContentSource) (place : list string)
      (fp : string) (fc : ContentSource) :
  segments <> [] ->
  resolveSegments (fst (addFileLoop current done segments (VirtualFile p c))) place
  = Some (VirtualFile fp fc) ->
  place = segments
  \/ resolveSegments current place = Some (VirtualFile fp fc).
Proof.
  revert done current place.
  induction segments as [|s rest IH]; intros done current place Hne H;
    [congruence|].
  destruct rest as [|s' rest'].
  - rewrite addFileLoop_last in H.
    destruct (isDirectory current) eqn:Hd; [|now right]. cbn [fst] in H.
    destruct place as [|y pr].
    + exfalso. revert H. apply resolveSegments_nil_file.
      now rewrite isDirectory_addEntry.
    + destruct (String.eqb_spec s y) as [<-|Hny].
      * cbn [resolveSegments] in H.
        rewrite isDirectory_addEntry, Hd, (getEntry_addEntry _ _ _ Hd) in H.
        cbn [negb] in H. apply resolveSegments_file in H as [-> _]. now left.
      * right. now rewrite resolveSegments_addEntry_other in H.
  - rewrite addFileLoop_step in H by discriminate.
    destruct (isDirectory current) eqn:Hd; cbn [negb] in H; [|now right].
    destruct (getEntry current s) as [child|] eqn:Hg.
    + destruct (isDirectory child) eqn:Hc; cbn [negb] in H; [|now right].
      cbn [fst] in H. destruct place as [|y pr].
      * exfalso. revert H. apply resolveSegments_nil_file.
        now rewrite isDirectory_addEntry.
      * destruct (String.eqb_spec s y) as [<-|Hny].
        -- cbn [resolveSegments] in H.
           rewrite isDirectory_addEntry, Hd, (getEntry_addEntry _ _ _ Hd) in H.
           cbn [negb] in H.
           destruct (IH _ _ _ ltac:(discriminate) H) as [-> | Hold];
             [now left | right].
           cbn [resolveSegments]. now rewrite Hd, Hg.
        -- right. now rewrite resolveSegments_addEntry_other in H.
    + cbv zeta in H. cbn [fst] in H. destruct place as [|y pr].
      * exfalso. revert H. apply resolveSegments_nil_file.
        now rewrite !isDirectory_addEntry.
      * destruct (String.eqb_spec s y) as [<-|Hny].
        -- cbn [resolveSegments] in H.
           rewrite !isDirectory_addEntry, Hd in H.
           rewrite getEntry_addEntry in H by now rewrite isDirectory_addEntry.
           cbn [negb] in H.
           destruct (IH _ _ _ ltac:(discriminate) H) as [-> | Hold];
             [now left | exfalso].
           revert Hold. apply resolveSegments_empty.
        -- right. now rewrite !resolveSegments_addEntry_other in H.
Qed.

Section SeaFacts.

Context {process : Process}.
Variable getAsset : string -> Outcome Buffer.

Lemma addFile_unblocked (this : VirtualFileSystem) (p : string)
      (c : ContentSource) (P : list (list string)) :
  (forall place fp fc,
      resolveSegments (kRoot this) place = Some (VirtualFile fp fc) -> In place P) ->
  (forall q, In q P -> isPrefixOf q (splitPath (normalizePath p)) = false) ->
  splitPath (normalizePath p) <> [] ->
  snd (addFile this p c) = Return tt.
Proof.
  intros Hfiles Hind Hne. unfold addFile.
  destruct (List.length (splitPath (normalizePath p)) =? 0)%nat eqn:Hlen.
  { apply splitPath_root_length in Hlen. contradiction. }
  pose proof (addFileLoop_throws (splitPath (normalizePath p)) [] (kRoot this)
                (VirtualFile (normalizePath p) c) Hne) as Hthrows.
  destruct (addFileLoop (kRoot this) [] (splitPath (normalizePath p))
              (VirtualFile (normalizePath p) c)) as [root r].
  cbn [snd] in *. apply isReturn_unit.
  destruct (isReturn r) eqn:Hr; [reflexivity | exfalso].
  destruct (proj1 Hthrows eq_refl) as (init & rest & blocker & E & _ & Hres & Hb).
  destruct blocker as [fp fc|]; [|discriminate Hb].
  apply Hfiles in Hres. apply Hind in Hres.
  rewrite E, isPrefixOf_app in Hres. discriminate Hres.
Qed.

Lemma createSeaVfsLoop_ok (keys : list string) :
  forall (this : VirtualFileSystem) (P : list (list string)),
    (forall place fp fc,
        resolveSegments (kRoot this) place = Some (VirtualFile fp fc) ->
        In place P) ->
    independentPaths (map assetSegments keys) = true ->
    (forall k q, In k keys -> In q P ->
                 isPrefixOf (assetSegments k) q = false
                 /\ isPrefixOf q (assetSegments k) = false) ->
    (forall k, In k keys -> exists content, getAsset k = Return content) ->
    exists this',
      createSeaVfsLoop getAsset this keys = (this', Return tt)
      /\ kMountPoint this' = kMountPoint this
      /\ kMounted this' = kMounted this
      /\ kOverlay this' = kOverlay this
      /\ (forall k content,
             In k keys -> getAsset k = Return content ->
             resolveSegments (kRoot this') (assetSegments k)
             = Some (VirtualFile (normalizePath (assetPath k))
                                 (FixedBytes content)))
      /\ (forall q fp fc,
             In q P ->
             resolveSegments (kRoot this) q = Some (VirtualFile fp fc) ->
             resolveSegments (kRoot this') q = Some (VirtualFile fp fc)).
Proof.
  induction keys as [|k rest IH]; intros this P Hfiles Hind Hcross Hassets.
  - exists this. repeat split; try reflexivity; [intros k content []|auto].
  - cbn [map independentPaths] in Hind.
    apply andb_true_iff in Hind as [Hind Hrest].
    apply andb_true_iff in Hind as [Hlen Hothers].
    assert (Hne : assetSegments k <> []).
    { intros E. rewrite E in Hlen. discriminate Hlen. }
    destruct (Hassets k (or_introl eq_refl)) as [content Hget].
    pose proof (addFile_unblocked this (assetPath k) (FixedBytes content) P
                  Hfiles (fun q Hq => proj2 (Hcross k q (or_introl eq_refl) Hq))
                  Hne) as Hret.
    destruct (addFile_returns this (assetPath k) (FixedBytes content) Hret)
      as (_ & Hroot & Hloop).
    destruct (addFile_mode this (assetPath k) (FixedBytes content))
      as (Hmp & Hm & Ho).
    pose proof (addFileLoop_found _ [] (kRoot this)
                  (VirtualFile (normalizePath (assetPath k)) (FixedBytes content))
                  Hne Hloop) as Hfound.
    fold (assetSegments k) in Hroot, Hloop, Hfound.
    rewrite <- Hroot in Hfound.
    cbn [createSeaVfsLoop]. rewrite Hget.
    destruct (addFile this (assetPath k) (FixedBytes content)) as [this1 r] eqn:Eadd.
    cbn [fst snd] in *. subst r.
    destruct (IH this1 (assetSegments k :: P)) as (this' & Eloop & Hmp' & Hm' & Ho' & Hnew & Hold).
    + intros place fp fc Hres. rewrite Hroot in Hres.
      destruct (addFileLoop_files _ _ _ _ _ _ _ _ Hne Hres) as [-> | Hbefore];
        [now left | right; now apply (Hfiles _ fp fc)].
    + exact Hrest.
    + intros k' q Hk' [<- | Hq]; [|apply Hcross; [now right | exact Hq]].
      rewrite forallb_forall in Hothers.
      specialize (Hothers (assetSegments k') (in_map _ _ _ Hk')).
      apply andb_true_iff in Hothers as [H1 H2].
      apply negb_true_iff in H1, H2. now split.
    + intros k' Hk'. apply Hassets. now right.
    + exists this'. rewrite Eloop, Hmp', Hm', Ho', Hmp, Hm, Ho.
      repeat split; try reflexivity.
      * intros k' content' [<- | Hk'] Hget'; [|now apply Hnew].
        assert (content' = content) as -> by congruence.
        apply Hold; [now left | exact Hfound].
      * intros q fp fc Hq Hres. apply Hold; [now right|].
        rewrite Hroot. apply addFileLoop_frame; [|exact Hres].
        apply (Hcross k q (or_introl eq_refl) Hq).
Qed.

End SeaFacts.

Lemma mount_returns {process : Process} (this : ObjId) (prefix : string)
      (w : World) :
  kMounted (heap w this) || kOverlay (heap w this) = false ->
  mount this prefix w = (fst (mount this prefix w), Return tt)
  /\ activeVFSList (fst (mount this prefix w))
     = activeVFSList (registerVFS this w)
  /\ hooksInstalled (fst (mount this prefix w))
     = hooksInstalled (registerVFS this w).
Proof.
  intros H. unfold mount. rewrite H. cbn [fst].
  rewrite !registerVFS_list, !hooks_registerVFS. now repeat split.
Qed.

(** X26: every asset can be read under the prefix, unless the prefix is
    the root.  When the process is a single executable application whose
    asset keys give paths none of which is the root or lies above another,
    [createSeaVfs] returns a new instance mounted at the normalized prefix
    (["/sea"] when none is given), registered after the instances that were
    registered, and leaves the other instances alone; the hooks are
    installed, whatever [moduleHooks] says.  With a prefix other than the
    root, each asset is read from the instance at the mount point followed
    by the normalized path of its key, and through [fs.readFileSync] too
    where no instance registered earlier claims that path.  With a prefix
    that normalizes to the root, nothing but the root exists in the
    instance: no asset can be read from it. *)
Theorem createSeaVfs_assets {process : Process}
        (getAssetKeys : list string) (getAsset : string -> Outcome Buffer)
        (options : SeaOptions) (vfs : ObjId) (w : World) :
  path.isAbsolute cwd = true ->
  ~ In vfs (activeVFSList w) ->
  independentPaths (map assetSegments getAssetKeys) = true ->
  (forall key, In key getAssetKeys -> exists content, getAsset key = Return content) ->
  let prefix := match sea_prefix options with
                | Some prefix => prefix
                | None => "/sea"
                end in
  exists w',
    createSeaVfs true getAssetKeys getAsset options vfs w = (w', Return (Some vfs))
    /\ isMounted (heap w' vfs) = true
    /\ mountPoint (heap w' vfs) = Some (normalizePath prefix)
    /\ activeVFSList w' = activeVFSList w ++ [vfs]
    /\ areHooksInstalled w' = true
    /\ (forall i, i <> vfs -> heap w' i = heap w i)
    /\ (normalizePath prefix <> "/" ->
        forall key content readOptions,
          In key getAssetKeys -> getAsset key = Return content ->
          let q := normalizePath prefix +++ normalizePath (assetPath key) in
          readFileSync (heap w' vfs) q readOptions
          = Return (handleEncoding readOptions content)
          /\ (Forall (fun i => shouldHandle (heap w i) q = false)
                     (activeVFSList w) ->
              forall original,
                vfsReadFileSync original w' (PathString q) readOptions
                = Return (handleEncoding readOptions content)))
    /\ (normalizePath prefix = "/" ->
        forall p readOptions,
          normalizePath p <> "/" ->
          existsSync (heap w' vfs) p = false
          /\ readFileSync (heap w' vfs) p readOptions
             = Throw (ENOENT "open" p)).
Proof.
  intros Habs Hfresh Hind Hassets prefix.
  unfold createSeaVfs. cbn [negb]. fold prefix.
  set (w1 := setObject w vfs (newVirtualFileSystem None)).
  assert (Hnew : heap w1 vfs = newVirtualFileSystem None)
    by (cbn [w1 heap setObject]; now rewrite Nat.eqb_refl).
  rewrite Hnew.
  destruct (createSeaVfsLoop_ok getAsset getAssetKeys
              (newVirtualFileSystem None) [])
    as (fields & Eloop & Hmp & Hm & Ho & Hfiles & _).
  { intros place fp fc H. exfalso. revert H. apply resolveSegments_empty. }
  { exact Hind. }
  { intros k q _ []. }
  { exact Hassets. }
  rewrite Eloop.
  set (w2 := setObject w1 vfs fields).
  assert (Hfields : heap w2 vfs = fields)
    by (cbn [w2 heap setObject]; now rewrite Nat.eqb_refl).
  assert (Hoff : kMounted (heap w2 vfs) || kOverlay (heap w2 vfs) = false)
    by now rewrite Hfields, Hm, Ho.
  destruct (mount_returns vfs prefix w2 Hoff) as (Emount & Elist & Ehooks).
  rewrite Emount.
  set (w' := fst (mount vfs prefix w2)) in *.
  assert (Hheap : forall i,
             heap w' i
             = if (i =? vfs)%nat
               then setMode fields (Some (normalizePath prefix)) true false
               else heap w i).
  { intros i. unfold w'. rewrite (mount_inactive vfs prefix w2 i Hoff), Hfields.
    destruct (Nat.eqb_spec i vfs) as [->|Hne]; [reflexivity|].
    cbn [w2 w1 heap setObject]. now destruct (Nat.eqb_spec i vfs). }
  assert (Hlist : activeVFSList w' = activeVFSList w ++ [vfs]).
  { rewrite Elist.
    change (activeVFSList w) with (activeVFSList w2).
    apply registerVFS_appends. now apply ArrayPrototypeIndexOf_In. }
  assert (Hthis : heap w' vfs
                  = setMode fields (Some (normalizePath prefix)) true false)
    by now rewrite Hheap, Nat.eqb_refl.
  exists w'. split; [reflexivity|]. rewrite Hthis.
  set (this' := setMode fields (Some (normalizePath prefix)) true false) in *.
  split; [reflexivity | split; [reflexivity | split; [exact Hlist | split;
    [|split; [|split]]]]].
  { unfold areHooksInstalled. rewrite Ehooks, hooks_registerVFS.
    change (activeVFSList w2) with (activeVFSList w).
    apply ArrayPrototypeIndexOf_In in Hfresh. rewrite Hfresh. apply orb_true_r. }
  { intros i Hne. rewrite Hheap. now destruct (Nat.eqb_spec i vfs). }
  - intros Hprefix key content readOptions Hkey Hget. cbv zeta.
    set (q := normalizePath prefix +++ normalizePath (assetPath key)).
    assert (Hnp : normalizePath (assetPath key) <> "/").
    { intros E. clear - Hind Hkey E. unfold assetSegments in Hind.
      induction getAssetKeys as [|k keys IH]; [contradiction|].
      cbn [map independentPaths] in Hind.
      apply andb_true_iff in Hind as [Hind Hrest].
      apply andb_true_iff in Hind as [Hlen _].
      destruct Hkey as [-> | Hkey]; [|now apply IH].
      rewrite E in Hlen. discriminate Hlen. }
    destruct (mounted_path Habs prefix (assetPath key) Hprefix Hnp)
      as (Hq & Hunder & Hrel).
    fold q in Hq, Hunder, Hrel.
    assert (Hres : _resolveEntry this' q
                   = Some (VirtualFile (normalizePath (assetPath key))
                                       (FixedBytes content))).
    { rewrite (_resolveEntry_mounted this' q (normalizePath prefix) eq_refl eq_refl
                 (normalizePath_truthy Habs prefix)).
      rewrite Hq, Hunder, Hrel. unfold treeLookup.
      destruct (String.eqb_spec (normalizePath (assetPath key)) "/") as [E|_];
        [contradiction|].
      exact (Hfiles key content Hkey Hget). }
    destruct (read_found this' q _ _ readOptions Hres) as [Hex Hread].
    cbn [syncRead] in Hread. split; [exact Hread|].
    intros Hothers original.
    unfold vfsReadFileSync, findVFSForRead. cbn [pathStr].
    rewrite Hlist, Hq, findVFSForReadLoop_skip.
    + cbn [findVFSForReadLoop]. rewrite Hthis. fold this'.
      assert (Hclaim : shouldHandle this' q = true).
      { unfold shouldHandle.
        cbn [this' setMode kMounted kOverlay kMountPoint negb andb].
        rewrite (normalizePath_truthy Habs prefix), Hq. exact Hunder. }
      rewrite Hclaim, Hex. unfold internalModuleStat. rewrite Hres.
      cbn [isDirectory Z.eqb negb]. now rewrite Hread.
    + apply Forall_forall. intros i Hi. rewrite Hheap.
      destruct (Nat.eqb_spec i vfs) as [->|_]; [contradiction|].
      rewrite Forall_forall in Hothers. now apply Hothers.
  - intros Hroot p readOptions Hp.
    assert (Hres : _resolveEntry this' p = None).
    { rewrite (_resolveEntry_mounted this' p (normalizePath prefix) eq_refl eq_refl
                 (normalizePath_truthy Habs prefix)).
      rewrite Hroot.
      destruct (isUnderMountPoint (normalizePath p) "/") eqn:Hu; [|reflexivity].
      apply (isUnderMountPoint_root p Habs) in Hu. contradiction. }
    unfold existsSync, readFileSync. rewrite Hres. now split.
Qed.

Lemma createSeaVfs_assets_witness :
  exists w',
    createSeaVfs (process := hostProcess) true ["config.json"; "/data/a.bin"]
                 (fun key => Return ("asset " +++ key))
                 (mkSeaOptions (Some "/assets/") (Some false)) 3 sampleTwoMounts
    = (w', Return (Some 3))
    /\ areHooksInstalled w' = true
    /\ vfsReadFileSync (process := hostProcess)
                       (fun _ _ => Throw (Error "no such file")) w'
                       (PathString "/assets/data/a.bin") OptUndefined
       = Return (Raw "asset /data/a.bin").
Proof.
  destruct (createSeaVfs_assets (process := hostProcess)
              ["config.json"; "/data/a.bin"]
              (fun key => Return ("asset " +++ key))
              (mkSeaOptions (Some "/assets/") (Some false)) 3 sampleTwoMounts
              eq_refl)
    as (w' & E & _ & _ & _ & Hh & _ & Hread & _).
  - simpl. intuition lia.
  - reflexivity.
  - intros key _. eexists. reflexivity.
  - exists w'. split; [exact E | split; [exact Hh|]].
    destruct (Hread ltac:(discriminate) "/data/a.bin" _ OptUndefined
                    (or_intror (or_introl eq_refl)) eq_refl) as [_ Hhook].
    apply Hhook. repeat constructor.
Defined.

(** X27: the adapter outside a single executable application, and its
    singleton.  When the process is not such an application,
    [createSeaVfs] and [getSeaVfs] return null and change nothing, and
    [hasSeaAssets] is false.  Once [getSeaVfs] has returned an instance,
    every later call returns that instance and changes nothing, whatever
    options it is given; a call that throws caches nothing.
    [hasSeaAssets] is true exactly in an application with at least one
    asset key; and [moduleHooks] changes nothing in what [createSeaVfs]
    does. *)
Theorem getSeaVfs_singleton {process : Process}
        (isSea : bool) (getAssetKeys : list string)
        (getAsset : string -> Outcome Buffer) :
  (isSea = false ->
   (forall options vfs w,
       createSeaVfs isSea getAssetKeys getAsset options vfs w = (w, Return None))
   /\ (forall options vfs st,
          cachedSeaVfs st = None ->
          getSeaVfs isSea getAssetKeys getAsset options vfs st = (st, Return None))
   /\ hasSeaAssets isSea getAssetKeys = false)
  /\ (forall options vfs st st' created,
         getSeaVfs isSea getAssetKeys getAsset options vfs st
         = (st', Return (Some created)) ->
         forall options' vfs',
           getSeaVfs isSea getAssetKeys getAsset options' vfs' st'
           = (st', Return (Some created)))
  /\ (forall options vfs st st' e,
         getSeaVfs isSea getAssetKeys getAsset options vfs st = (st', Throw e) ->
         cachedSeaVfs st' = None)
  /\ hasSeaAssets isSea getAssetKeys
     = isSea && negb (List.length getAssetKeys =? 0)%nat
  /\ (forall prefix moduleHooks moduleHooks' vfs w,
         createSeaVfs isSea getAssetKeys getAsset
                      (mkSeaOptions prefix moduleHooks) vfs w
         = createSeaVfs isSea getAssetKeys getAsset
                        (mkSeaOptions prefix moduleHooks') vfs w).
Proof.
  split; [|split; [|split; [|split]]].
  - intros ->. split; [reflexivity | split; [|reflexivity]].
    intros options vfs st Hc. unfold getSeaVfs. rewrite Hc.
    cbn. destruct st as [w c]. cbn in Hc. now subst c.
  - intros options vfs st st' created H options' vfs'.
    assert (Hc : cachedSeaVfs st' = Some created).
    { unfold getSeaVfs in H. destruct (cachedSeaVfs st) as [cached|] eqn:Hst.
      - injection H as <- <-. exact Hst.
      - destruct (createSeaVfs isSea getAssetKeys getAsset options vfs
                    (sea_world st)) as [w' [v|e']]; [|discriminate H].
        injection H as <- ->. reflexivity. }
    unfold getSeaVfs. now rewrite Hc.
  - intros options vfs st st' e H. unfold getSeaVfs in H.
    destruct (cachedSeaVfs st) as [cached|] eqn:Hst; [discriminate H|].
    destruct (createSeaVfs isSea getAssetKeys getAsset options vfs
                (sea_world st)) as [w' [v|e']]; [discriminate H|].
    injection H as <- _. reflexivity.
  - unfold hasSeaAssets. destruct isSea; [|reflexivity]. cbn [negb andb].
    now destruct getAssetKeys.
  - reflexivity.
Qed.

Lemma getSeaVfs_singleton_witness :
  getSeaVfs (process := hostProcess) false ["config.json"]
            (fun key => Return ("asset " +++ key))
            (mkSeaOptions (Some "/custom-sea") None) 3
            (mkSeaState sampleTwoMounts None)
  = (mkSeaState sampleTwoMounts None, Return None).
Proof.
  apply (proj1 (getSeaVfs_singleton (process := hostProcess) false ["config.json"]
                  (fun key => Return ("asset " +++ key))));
    reflexivity.
Defined.

Lemma createSeaVfsLoop_mode {process : Process}
      (getAsset : string -> Outcome Buffer) (keys : list string) :
  forall this,
    kMounted (fst (createSeaVfsLoop getAsset this keys)) = kMounted this
    /\ kOverlay (fst (createSeaVfsLoop getAsset this keys)) = kOverlay this.
Proof.
  induction keys as [|k rest IH]; intros this; [now split|].
  cbn [createSeaVfsLoop]. destruct (getAsset k) as [content|e]; [|now split].
  destruct (addFile_mode this (assetPath k) (FixedBytes content)) as (_ & Hm & Ho).
  destruct (addFile this (assetPath k) (FixedBytes content)) as [this1 [[]|e]].
  - cbn [fst] in *. destruct (IH this1) as [-> ->]. now split.
  - cbn [fst] in *. now split.
Qed.

(** X28: a failing [createSeaVfs] registers nothing.  If the call throws,
    the registry, the hooks and every instance other than the new one are
    as before the call, and the new instance is not mounted; the error is
    that of fetching an asset or of adding the file of an asset: mounting
    the new instance never fails. *)
Theorem createSeaVfs_failure {process : Process}
        (isSea : bool) (getAssetKeys : list string)
        (getAsset : string -> Outcome Buffer)
        (options : SeaOptions) (vfs : ObjId) (w w' : World) (e : JsError) :
  createSeaVfs isSea getAssetKeys getAsset options vfs w = (w', Throw e) ->
  activeVFSList w' = activeVFSList w
  /\ areHooksInstalled w' = areHooksInstalled w
  /\ (forall i, i <> vfs -> heap w' i = heap w i)
  /\ isMounted (heap w' vfs) = false
  /\ isOverlay (heap w' vfs) = false
  /\ exists key,
      In key getAssetKeys
      /\ (getAsset key = Throw e
          \/ exists content this,
              getAsset key = Return content
              /\ snd (addFile this (assetPath key) (FixedBytes content)) = Throw e).
Proof.
  unfold createSeaVfs. destruct isSea; cbn [negb]; [|discriminate].
  cbn [heap setObject]. rewrite Nat.eqb_refl.
  pose proof (createSeaVfsLoop_mode getAsset getAssetKeys
                (newVirtualFileSystem None)) as [Hm Ho].
  destruct (createSeaVfsLoop getAsset (newVirtualFileSystem None) getAssetKeys)
    as [fields [[]|e']] eqn:Eloop; cbn [fst] in *.
  - set (w2 := setObject (setObject w vfs (newVirtualFileSystem None)) vfs fields).
    assert (Hoff : kMounted (heap w2 vfs) || kOverlay (heap w2 vfs) = false).
    { cbn [w2 heap setObject]. now rewrite Nat.eqb_refl, Hm, Ho. }
    destruct (mount_returns vfs match sea_prefix options with
                                | Some prefix => prefix
                                | None => "/sea"
                                end w2 Hoff) as (-> & _).
    discriminate.
  - intros [= <- <-]. cbn [activeVFSList hooksInstalled heap setObject].
    unfold areHooksInstalled, isMounted, isOverlay.
    cbn [hooksInstalled heap setObject].
    rewrite Nat.eqb_refl, Hm, Ho.
    split; [reflexivity | split; [reflexivity | split; [|split; [reflexivity|
      split; [reflexivity|]]]]].
    { intros i Hne. now destruct (Nat.eqb_spec i vfs). }
    clear Hm Ho. revert Eloop. generalize (newVirtualFileSystem None).
    induction getAssetKeys as [|k keys IH]; intros this Eloop;
      [discriminate Eloop|].
    cbn [createSeaVfsLoop] in Eloop.
    destruct (getAsset k) as [content|e0] eqn:Hget.
    + destruct (addFile this (assetPath k) (FixedBytes content))
        as [this1 [[]|e1]] eqn:Eadd.
      * destruct (IH this1 Eloop) as (key & Hin & Hcase).
        exists key. split; [now right | exact Hcase].
      * injection Eloop as <- <-.
        exists k. split; [now left|]. right. exists content, this.
        split; [exact Hget | now rewrite Eadd].
    + injection Eloop as <- <-.
      exists k. split; [now left | now left].
Qed.

Lemma createSeaVfs_failure_witness :
  activeVFSList (fst (createSeaVfs (process := hostProcess) true
                        ["data"; "data/a.bin"]
                        (fun key => Return ("asset " +++ key))
                        (mkSeaOptions None None) 3 sampleTwoMounts))
  = activeVFSList sampleTwoMounts.
Proof.
  apply (createSeaVfs_failure (process := hostProcess) true
           ["data"; "data/a.bin"] (fun key => Return ("asset " +++ key))
           (mkSeaOptions None None) 3 sampleTwoMounts _
           (Error "Cannot create file: data is not a directory")).
  reflexivity.
Defined.

(** ** virtual_fs.js: what exists lies below what exists *)

Lemma resolveSegments_app_none (init rest : list string) (root : VirtualEntry) :
  resolveSegments root init = None -> resolveSegments root (init ++ rest) = None.
Proof.
  revert root. induction init as [|s init IH]; intros root H; [discriminate H|].
  cbn [app resolveSegments] in *.
  destruct (negb (isDirectory root)); [reflexivity|].
  destruct (getEntry root s) as [child|]; [now apply IH | reflexivity].
Qed.

(** X29: in an instance that is not mounted, every proper ancestor of a
    path that exists is a directory; and [remove] takes the whole subtree:
    after [remove] of a path other than the root, no path at or under it
    exists. *)
Theorem remove_subtree {process : Process} (this : VirtualFileSystem) :
  path.isAbsolute cwd = true ->
  isMounted this = false ->
  (forall q init rest,
      existsSync this q = true ->
      splitPath (normalizePath q) = init ++ rest -> rest <> [] ->
      internalModuleStat this (pathOf init) = 1%Z)
  /\ (forall p q,
         wellFormed (kRoot this) = true ->
         normalizePath p <> "/" ->
         isUnderMountPoint (normalizePath q) (normalizePath p) = true ->
         existsSync (fst (remove this p)) q = false).
Proof.
  intros Habs Hm. unfold isMounted in Hm. split.
  - intros q init rest Hex Esp Hrest.
    destruct (normalizePath_clean Habs q) as (segs & Hs & E).
    rewrite E, (splitPath_pathOf _ Hs) in Esp. subst segs.
    apply Forall_app in Hs as Hs'. destruct Hs' as [Hi _].
    rewrite (internalModuleStat_segments this init Habs Hm Hi).
    unfold existsSync in Hex.
    destruct (_resolveEntry_segments Habs this q Hm) as [Hr _].
    rewrite Hr, E, (splitPath_pathOf _ Hs) in Hex.
    destruct (resolveSegments (kRoot this) (init ++ rest)) as [entry|] eqn:Hres;
      [|discriminate Hex].
    now destruct (resolveSegments_prefix init rest _ _ Hrest Hres) as (dir & -> & ->).
  - intros p q Hwf Hne Hunder.
    destruct (remove_unmounted this p Habs Hm Hwf Hne) as (_ & Hgone & _).
    destruct (remove_mode_kept this p) as [Hm' _]. rewrite Hm in Hm'.
    destruct (normalizePath_clean Habs p) as (ps & Hps & Ep).
    destruct (normalizePath_clean Habs q) as (qs & Hqs & Eq).
    unfold existsSync in *.
    destruct (_resolveEntry_segments Habs _ p Hm') as [Hrp _].
    destruct (_resolveEntry_segments Habs _ q Hm') as [Hrq _].
    rewrite Hrp, Ep, (splitPath_pathOf _ Hps) in Hgone.
    rewrite Hrq, Eq, (splitPath_pathOf _ Hqs).
    rewrite Ep, Eq in Hunder.
    apply (isUnderMountPoint_pathOf _ _ Hqs Hps) in Hunder.
    destruct ps as [|x ps']; [exfalso; now apply Hne|].
    apply isPrefixOf_inv in Hunder as [rs ->].
    rewrite resolveSegments_app_none; [reflexivity|].
    now destruct (resolveSegments (kRoot (fst (remove this p))) (x :: ps')).
Qed.

Lemma remove_subtree_witness :
  existsSync (process := hostProcess)
             (fst (remove (process := hostProcess) (heap sampleUnmounted 0) "/docs"))
             "/docs/readme.md" = false.
Proof.
  apply (proj2 (remove_subtree (process := hostProcess) (heap sampleUnmounted 0)
                  eq_refl eq_refl) "/docs" "/docs/readme.md");
    [reflexivity | discriminate | reflexivity].
Defined.
